(** * Content-addressed file matching: fingerprinting, scanning, grouping

    A shallow embedding of the fingerprinting, scanning and grouping code of
    the scripts

    - [compare_resources.py] (and [compare_resources_v2.py], whose
      [calculate_md5], [scan_directory] and [compare_directories] differ only
      in a progress counter for images), and
    - [find_duplicate_files_simple.py] (and [find_duplicate_files_v2.py],
      [find_duplicate_files_v3.py], whose [calculate_md5] and
      [find_duplicate_files] are the same text),

    together with the properties the design document states about them. *)

From Stdlib Require Import ZArith List Bool Arith Lia.
From Stdlib Require Import Strings.String Strings.Ascii Init.Byte.
From Stdlib Require Import Sorting.Permutation Sorting.Sorted.
From Stdlib Require Import Structures.OrdersEx.
From Stdlib Require Import Numbers.DecimalString Numbers.DecimalNat.
Import ListNotations.

Local Open Scope Z_scope.

(** ** The [hashlib.md5] object

    [hashlib] is the Python standard library, not code of the scripts.  The
    object [hashlib.md5()] is modelled as the streaming MD5 of RFC 1321: a
    context holding the four chaining words, the bytes not yet forming a
    64-byte block, and the number of bytes fed so far. *)
Module Md5.

Definition bytes := list byte.

Definition word := Z.
Definition wrap32 (x : Z) : word := x mod 2 ^ 32.
Definition add32 (x y : word) : word := wrap32 (x + y).
Definition not32 (x : word) : word := Z.lxor x 0xffffffff.
Definition rotl32 (x : word) (s : Z) : word :=
  Z.lor (wrap32 (Z.shiftl x s)) (Z.shiftr x (32 - s)).

Definition F (x y z : word) : word := Z.lor (Z.land x y) (Z.land (not32 x) z).
Definition G (x y z : word) : word := Z.lor (Z.land x z) (Z.land y (not32 z)).
Definition H (x y z : word) : word := Z.lxor (Z.lxor x y) z.
Definition I (x y z : word) : word := Z.lxor y (Z.lor x (not32 z)).

(** T[i] = floor(2^32 * |sin(i+1)|). *)
Definition T : list word :=
  [ 0xd76aa478; 0xe8c7b756; 0x242070db; 0xc1bdceee;
    0xf57c0faf; 0x4787c62a; 0xa8304613; 0xfd469501;
    0x698098d8; 0x8b44f7af; 0xffff5bb1; 0x895cd7be;
    0x6b901122; 0xfd987193; 0xa679438e; 0x49b40821;
    0xf61e2562; 0xc040b340; 0x265e5a51; 0xe9b6c7aa;
    0xd62f105d; 0x02441453; 0xd8a1e681; 0xe7d3fbc8;
    0x21e1cde6; 0xc33707d6; 0xf4d50d87; 0x455a14ed;
    0xa9e3e905; 0xfcefa3f8; 0x676f02d9; 0x8d2a4c8a;
    0xfffa3942; 0x8771f681; 0x6d9d6122; 0xfde5380c;
    0xa4beea44; 0x4bdecfa9; 0xf6bb4b60; 0xbebfbc70;
    0x289b7ec6; 0xeaa127fa; 0xd4ef3085; 0x04881d05;
    0xd9d4d039; 0xe6db99e5; 0x1fa27cf8; 0xc4ac5665;
    0xf4292244; 0x432aff97; 0xab9423a7; 0xfc93a039;
    0x655b59c3; 0x8f0ccc92; 0xffeff47d; 0x85845dd1;
    0x6fa87e4f; 0xfe2ce6e0; 0xa3014314; 0x4e0811a1;
    0xf7537e82; 0xbd3af235; 0x2ad7d2bb; 0xeb86d391 ].

(** Per-step left-rotation amounts. *)
Definition shifts : list Z :=
  [ 7; 12; 17; 22; 7; 12; 17; 22; 7; 12; 17; 22; 7; 12; 17; 22;
    5; 9; 14; 20; 5; 9; 14; 20; 5; 9; 14; 20; 5; 9; 14; 20;
    4; 11; 16; 23; 4; 11; 16; 23; 4; 11; 16; 23; 4; 11; 16; 23;
    6; 10; 15; 21; 6; 10; 15; 21; 6; 10; 15; 21; 6; 10; 15; 21 ].

Definition byte_val (b : byte) : Z := Z.of_N (Byte.to_N b).

(** Four bytes, least significant first, as one 32-bit word. *)
Definition word_of_bytes (bs : bytes) : word :=
  fold_right (fun b acc => byte_val b + 256 * acc) 0 (firstn 4 bs).

Fixpoint words_of_block (n : nat) (bs : bytes) : list word :=
  match n with
  | O => []
  | S n' => word_of_bytes bs :: words_of_block n' (skipn 4 bs)
  end.

Definition chain : Type := word * word * word * word.

Definition step (M : list word) (st : chain) (i : nat) : chain :=
  let '(a, b, c, d) := st in
  let '(f, g) :=
    if (i <? 16)%nat then (F b c d, i)
    else if (i <? 32)%nat then (G b c d, (5 * i + 1) mod 16)%nat
    else if (i <? 48)%nat then (H b c d, (3 * i + 5) mod 16)%nat
    else (I b c d, (7 * i) mod 16)%nat in
  let x := add32 (add32 (add32 a f) (nth i T 0)) (nth g M 0) in
  (d, add32 b (rotl32 x (nth i shifts 0)), b, c).

(** One 64-byte block folded into the chaining words. *)
Definition compress (st : chain) (block : bytes) : chain :=
  let M := words_of_block 16 block in
  let '(a, b, c, d) := st in
  let '(a', b', c', d') := fold_left (step M) (seq 0 64) st in
  (add32 a a', add32 b b', add32 c c', add32 d d').

(** Consume whole 64-byte blocks from the front of [data]; what is left is
    shorter than a block.  [fuel] bounds the number of blocks. *)
Fixpoint absorb (fuel : nat) (st : chain) (data : bytes) : chain * bytes :=
  match fuel with
  | O => (st, data)
  | S fuel' =>
      if (64 <=? List.length data)%nat
      then absorb fuel' (compress st (firstn 64 data)) (skipn 64 data)
      else (st, data)
  end.

Record md5_ctx : Type := mk_ctx {
  ctx_chain : chain;
  ctx_pending : bytes;
  ctx_count : Z
}.

(** [hashlib.md5()] *)
Definition md5_new : md5_ctx :=
  mk_ctx (0x67452301, 0xefcdab89, 0x98badcfe, 0x10325476) [] 0.

(** [h.update(data)] *)
Definition update (h : md5_ctx) (data : bytes) : md5_ctx :=
  let buf := (ctx_pending h ++ data)%list in
  let '(st, rest) := absorb (List.length buf) (ctx_chain h) buf in
  mk_ctx st rest (ctx_count h + Z.of_nat (List.length data)).

Definition byte_of_Z (z : Z) : byte :=
  match Byte.of_N (Z.to_N (z mod 256)) with
  | Some b => b
  | None => x00
  end.

(** [n] bytes of [z], least significant first. *)
Fixpoint le_bytes (n : nat) (z : Z) : bytes :=
  match n with
  | O => []
  | S n' => byte_of_Z z :: le_bytes n' (z / 256)
  end.

(** Padding: one 0x80 byte, zero bytes up to 56 modulo 64, then the bit
    length as 64 bits, least significant byte first. *)
Definition padding (count : Z) : bytes :=
  let zeros := Z.to_nat ((55 - count) mod 64) in
  (x80 :: repeat x00 zeros ++ le_bytes 8 ((8 * count) mod 2 ^ 64))%list.

(** [h.digest()] *)
Definition digest (h : md5_ctx) : bytes :=
  let tail := (ctx_pending h ++ padding (ctx_count h))%list in
  let '(a, b, c, d) := fst (absorb (List.length tail) (ctx_chain h) tail) in
  (le_bytes 4 a ++ le_bytes 4 b ++ le_bytes 4 c ++ le_bytes 4 d)%list.

Definition hex_digit (n : Z) : ascii :=
  nth (Z.to_nat n)
    ["0"; "1"; "2"; "3"; "4"; "5"; "6"; "7";
     "8"; "9"; "a"; "b"; "c"; "d"; "e"; "f"]%char "0"%char.

Fixpoint hex_of_bytes (bs : bytes) : string :=
  match bs with
  | [] => EmptyString
  | b :: bs' =>
      String (hex_digit (byte_val b / 16))
        (String (hex_digit (byte_val b mod 16)) (hex_of_bytes bs'))
  end.

(** [h.hexdigest()] *)
Definition hexdigest (h : md5_ctx) : string := hex_of_bytes (digest h).

(** [hashlib.md5(data).hexdigest()]: the whole content hashed in one step. *)
Definition md5_hex (data : bytes) : string := hexdigest (update md5_new data).

End Md5.

(** ** The host: files, directory trees, paths *)
Module Fs.

(** How reading a file can go wrong.  [ReadFails k]: the file opens, and the
    call of [f.read] number [k] (counting from 0) raises, if the loop gets
    that far. *)
Inductive io_fault : Type :=
| NoFault
| OpenFails
| ReadFails (k : nat).

Record file : Type := mk_file {
  content : Md5.bytes;
  fault : io_fault;
  mtime : Z;
  mode : Z
}.

(** A directory as [os.walk] sees it: the entries that are not directories,
    and the subdirectories, each in the order [os.scandir] lists them. *)
#[local] Unset Elimination Schemes.
Inductive tree : Type :=
| Dir (files : list (string * file)) (subdirs : list (string * tree)).
#[local] Set Elimination Schemes.

Inductive node : Type :=
| NFile (f : file)
| NDir (t : tree).

Record host : Type := mk_host {
  nodes : list (string * node);       (* what a root path names *)
  abspath : string -> string          (* os.path.abspath *)
}.

Fixpoint resolve (ns : list (string * node)) (path : string) : option node :=
  match ns with
  | [] => None
  | (p, n) :: ns' => if String.eqb p path then Some n else resolve ns' path
  end.

(** [os.path.exists] *)
Definition exists_ (h : host) (path : string) : bool :=
  match resolve (nodes h) path with
  | Some _ => true
  | None => false
  end.

(** [os.path.isdir] *)
Definition isdir (h : host) (path : string) : bool :=
  match resolve (nodes h) path with
  | Some (NDir _) => true
  | _ => false
  end.

Definition sep : ascii := "/"%char.

Fixpoint endswith_sep (s : string) : bool :=
  match s with
  | EmptyString => false
  | String c EmptyString => Ascii.eqb c sep
  | String _ s' => endswith_sep s'
  end.

Definition startswith_sep (s : string) : bool :=
  match s with
  | String c _ => Ascii.eqb c sep
  | EmptyString => false
  end.

(** [os.path.join(a, b)] of [posixpath]. *)
Definition join (a b : string) : string :=
  if startswith_sep b then b
  else if (String.eqb a EmptyString || endswith_sep a)%bool then String.append a b
  else String.append a (String sep b).

(** What [os.walk(top)] yields below a directory: [(root, dirs, files)] for
    the directory itself, then the same for each subdirectory in turn.  Each
    file name comes with the file that its joined path opens. *)
Fixpoint walk (top : string) (t : tree)
  : list (string * list string * list (string * file)) :=
  match t with
  | Dir files subdirs =>
      (top, map fst subdirs, files)
        :: flat_map (fun d => walk (join top (fst d)) (snd d)) subdirs
  end.

(** [os.walk(top)]: nothing is yielded when [top] is not a directory. *)
Definition os_walk (h : host) (top : string)
  : list (string * list string * list (string * file)) :=
  match resolve (nodes h) top with
  | Some (NDir t) => walk top t
  | _ => []
  end.

(** The values of successive [f.read(size)] calls up to, not including, the
    empty one that marks the end of the stream. *)
Fixpoint chunks (fuel : nat) (size : nat) (data : Md5.bytes) : list Md5.bytes :=
  match fuel with
  | O => []
  | S fuel' =>
      match data with
      | [] => []
      | _ :: _ => firstn size data :: chunks fuel' size (skipn size data)
      end
  end.

Definition raises (flt : io_fault) (i : nat) : bool :=
  match flt with
  | ReadFails k => Nat.eqb k i
  | _ => false
  end.

(** [for chunk in iter(lambda: f.read(4096), b''): md5_hash.update(chunk)].
    [i] numbers the call of [f.read]; [None] is a raised exception. *)
Fixpoint feed (flt : io_fault) (i : nat) (cs : list Md5.bytes) (h : Md5.md5_ctx)
  : option Md5.md5_ctx :=
  match cs with
  | [] => if raises flt i then None else Some h
  | c :: cs' => if raises flt i then None else feed flt (S i) cs' (Md5.update h c)
  end.

(** The body of the [with open(file_path, 'rb') as f] block. *)
Definition hash_file (f : file) (h : Md5.md5_ctx) : option Md5.md5_ctx :=
  match fault f with
  | OpenFails => None
  | flt => feed flt 0 (chunks (List.length (content f)) 4096 (content f)) h
  end.

End Fs.

(** ** What is written: cells, printed notes, files *)
Module Out.

(** A value put in a cell: an [int] or a [str]. *)
Inductive cell : Type :=
| CInt (n : Z)
| CStr (s : string).

Definition row : Type := list cell.

(** What the operating system answers about the output side of a run: the
    directory and the file of the report, and the sizes of the files that
    are listed in it.  [None] and [false] stand for a raised exception. *)
Record os_view : Type := mk_os {
  getsize : string -> option Z;                  (* os.path.getsize *)
  relpath : string -> string -> option string;   (* os.path.relpath *)
  path_exists : string -> bool;                  (* os.path.exists *)
  can_create : string -> bool;    (* os.makedirs, open(.., 'w'), wb.save work *)
  can_write : string -> nat -> row -> bool
    (* writer.writerow of this row works on the file that holds so many rows *)
}.

Inductive note : Type :=
| NoDuplicates
| CreatedDir (dir : string)
| SavedTo (path : string)
| GroupCount (n : nat)
| TotalDuplicates (n : nat)
| DetailsTitle
| DetailGroup (group_num : nat) (md5 : string)
| DetailPath (path : string) (size : option Z)
| Generating (path : string)
| ExcelDone (n : nat).

(** What an exporter does: it prints, makes a directory, opens a file for
    writing (the file is created, or emptied), hands a row to the CSV
    writer, saves a workbook. *)
Inductive out_event : Type :=
| OPrint (n : note)
| OMakedirs (dir : string)
| OOpen (path : string)
| OWriterow (path : string) (r : row)
| OWrite (path : string) (rows : list row).

(** How an exporter ends: it returns, or an exception leaves it. *)
Inductive ending : Type :=
| Completed
| Failed.

End Out.

(** ** Effects: printed lines, opened files, exit *)
Module Run.
Import Out.

Inductive message : Type :=
| MsgMd5Failed (path : string)
| MsgUnreadable (path : string)
| MsgScanning (dir : string)
| MsgProcessed (n : nat)
| MsgScanDone (n unique : nat)
| MsgScanned (n : nat)
| MsgScanComplete (n : nat)
| MsgRule
| MsgStartScan
| MsgCommon (n : nat)
| MsgDirMissing (dir : string)
| MsgNotExist (dir : string)
| MsgNotDir (dir : string)
| MsgUsage
| MsgExample (n : nat)
| MsgOutputGiven (output_file : string)
| MsgOutputSibling (output_file : string)
| MsgCreatedDir (output_dir : string)
| MsgTitle
| MsgDir1 (dir : string)
| MsgDir2 (dir : string)
| MsgOutputFile (output : string)
| MsgFinished
| MsgNoMatch.

(** What a run leaves behind: a printed line, an attempt to open a file for
    reading, and what is done on the output side. *)
Inductive event : Type :=
| EvPrint (m : message)
| EvOpen (path : string)
| EvOut (o : out_event).

(** [OutputError]: the exception with which [os.makedirs], [open] for
    writing, [writerow], [os.path.getsize] or [wb.save] fails. *)
Inductive exn : Type :=
| KeyError (k : string)
| OutputError.

Inductive outcome (A : Type) : Type :=
| Returned (a : A)
| Exited (status : Z)
| Uncaught (e : exn).
Arguments Returned {A} a.
Arguments Exited {A} status.
Arguments Uncaught {A} e.

(** A computation extends the trace of events and returns, exits or raises. *)
Definition M (A : Type) : Type := list event -> outcome A * list event.

Definition ret {A} (a : A) : M A := fun tr => (Returned a, tr).

Definition bind {A B} (m : M A) (k : A -> M B) : M B :=
  fun tr =>
    match m tr with
    | (Returned a, tr') => k a tr'
    | (Exited c, tr') => (Exited c, tr')
    | (Uncaught e, tr') => (Uncaught e, tr')
    end.

Definition emit (e : event) : M unit := fun tr => (Returned tt, (tr ++ [e])%list).
Definition print (m : message) : M unit := emit (EvPrint m).
Definition sys_exit {A} (status : Z) : M A := fun tr => (Exited status, tr).
Definition raise {A} (e : exn) : M A := fun tr => (Uncaught e, tr).

Fixpoint for_each {X S : Type} (xs : list X) (body : X -> S -> M S) (s : S) : M S :=
  match xs with
  | [] => ret s
  | x :: xs' => bind (body x s) (for_each xs' body)
  end.

(** [os.makedirs(dir)] *)
Definition makedirs (os : os_view) (dir : string) : M unit :=
  if can_create os dir then emit (EvOut (OMakedirs dir)) else raise OutputError.

(** A call of an exporter: what it does joins the trace, and an exception
    that leaves it goes on to the caller. *)
Definition call (r : ending * list out_event) : M unit :=
  fun tr =>
    (match fst r with
     | Completed => Returned tt
     | Failed => Uncaught OutputError
     end, (tr ++ map EvOut (snd r))%list).

Definition run {A} (m : M A) : outcome A * list event := m [].

(** The exit status of a process whose main function ends this way. *)
Definition exit_status {A} (o : outcome A) : Z :=
  match o with
  | Returned _ => 0
  | Exited c => c
  | Uncaught _ => 1
  end.

End Run.

Notation "x <- c1 ;; c2" := (Run.bind c1 (fun x => c2))
  (at level 61, c1 at next level, right associativity).
Notation "c1 ;; c2" := (Run.bind c1 (fun _ => c2))
  (at level 61, right associativity).

(** ** Python containers *)
Module Py.

(** A [dict] with [str] keys: its items in insertion order. *)
Definition dict (V : Type) : Type := list (string * V).

Fixpoint getitem {V} (d : dict V) (k : string) : option V :=
  match d with
  | [] => None
  | (k', v) :: d' => if String.eqb k' k then Some v else getitem d' k
  end.

(** [k in d] *)
Definition contains {V} (d : dict V) (k : string) : bool :=
  match getitem d k with
  | Some _ => true
  | None => false
  end.

(** [d[k] = v]: a present key keeps its place, a new key goes last. *)
Fixpoint setitem {V} (d : dict V) (k : string) (v : V) : dict V :=
  match d with
  | [] => [(k, v)]
  | (k', v') :: d' =>
      if String.eqb k' k then (k', v) :: d' else (k', v') :: setitem d' k v
  end.

Definition keys {V} (d : dict V) : list string := map fst d.

Definition mem (k : string) (l : list string) : bool := existsb (String.eqb k) l.

(** [set(xs)], as an enumeration without repetition. *)
Fixpoint set_of (xs : list string) : list string :=
  match xs with
  | [] => []
  | x :: xs' => if mem x xs' then set_of xs' else x :: set_of xs'
  end.

(** [s1 & s2] *)
Definition set_and (s1 s2 : list string) : list string :=
  filter (fun k => mem k s2) s1.

Fixpoint insert (x : string) (l : list string) : list string :=
  match l with
  | [] => [x]
  | y :: l' => if String.leb x y then x :: l else y :: insert x l'
  end.

(** [sorted(xs)] on strings: ascending by code point. *)
Definition sorted (xs : list string) : list string := fold_right insert [] xs.

(** Truthiness of a [str]. *)
Definition truthy (s : string) : bool := negb (String.eqb s EmptyString).

(** Truthiness of a value that is [None] or a [str]. *)
Definition truthy_opt (v : option string) : bool :=
  match v with
  | Some s => truthy s
  | None => false
  end.

End Py.

Import Fs Out Run Py.

(** ** compare_resources.py *)
Module CompareResources.

(** Lines 17-36.  [f] is the file that [file_path] opens; the attempt to open
    it is recorded.  [None] from [hash_file] is the [except Exception]
    branch. *)
Definition calculate_md5 (file_path : string) (f : file) : M string :=
  let md5_hash := Md5.md5_new in
  emit (EvOpen file_path) ;;
  match hash_file f md5_hash with
  | Some md5_hash => ret (Md5.hexdigest md5_hash)
  | None => print (MsgMd5Failed file_path) ;; ret EmptyString
  end.

(** [md5_dict[md5_value].append(file_path)] *)
Definition append_at (md5_dict : dict (list string)) (md5_value file_path : string)
  : M (dict (list string)) :=
  match getitem md5_dict md5_value with
  | Some paths => ret (setitem md5_dict md5_value (paths ++ [file_path])%list)
  | None => raise (KeyError md5_value)
  end.

(** Lines 57-67: the body of the inner loop, on the loop variables
    [(md5_dict, file_count)]. *)
Definition scan_file (root : string) (entry : string * file)
    (st : dict (list string) * nat) : M (dict (list string) * nat) :=
  let '(filename, f) := entry in
  let '(md5_dict, file_count) := st in
  let file_path := join root filename in
  md5_value <- calculate_md5 file_path f ;;
  if truthy md5_value then
    let md5_dict :=
      if negb (contains md5_dict md5_value)
      then setitem md5_dict md5_value []
      else md5_dict in
    md5_dict <- append_at md5_dict md5_value file_path ;;
    let file_count := S file_count in
    (if Nat.eqb (file_count mod 100) 0
     then print (MsgProcessed file_count) else ret tt) ;;
    ret (md5_dict, file_count)
  else ret (md5_dict, file_count).

(** Lines 39-70. *)
Definition scan_directory (h : host) (directory : string) : M (dict (list string)) :=
  let md5_dict := [] in
  let directory := abspath h directory in
  print (MsgScanning directory) ;;
  let file_count := O in
  st <- for_each (os_walk h directory)
          (fun '(root, dirs, files) st => for_each files (scan_file root) st)
          (md5_dict, file_count) ;;
  let '(md5_dict, file_count) := st in
  print (MsgScanDone file_count (List.length md5_dict)) ;;
  ret md5_dict.

Definition group : Type := string * list string * list string.

(** [md5_dict[md5_value]] *)
Definition lookup (md5_dict : dict (list string)) (md5_value : string)
  : M (list string) :=
  match getitem md5_dict md5_value with
  | Some paths => ret paths
  | None => raise (KeyError md5_value)
  end.

(** Lines 91-101: the groups of two indexes already built. *)
Definition match_across (md5_dict1 md5_dict2 : dict (list string)) : M (list group) :=
  let common_md5 := set_and (set_of (keys md5_dict1)) (set_of (keys md5_dict2)) in
  print (MsgCommon (List.length common_md5)) ;;
  let results := [] in
  for_each (sorted common_md5)
    (fun md5_value results =>
       files1 <- lookup md5_dict1 md5_value ;;
       files2 <- lookup md5_dict2 md5_value ;;
       ret (results ++ [(md5_value, files1, files2)])%list)
    results.

(** Lines 73-101. *)
Definition compare_directories (h : host) (dir1 dir2 : string) : M (list group) :=
  print MsgRule ;;
  print MsgStartScan ;;
  print MsgRule ;;
  md5_dict1 <- scan_directory h dir1 ;;
  md5_dict2 <- scan_directory h dir2 ;;
  match_across md5_dict1 md5_dict2.

End CompareResources.

(** ** find_duplicate_files_simple.py *)
Module FindDuplicates.

(** Lines 9-20.  The value is [None] or a [str]. *)
Definition calculate_md5 (file_path : string) (f : file) : M (option string) :=
  let md5_hash := Md5.md5_new in
  emit (EvOpen file_path) ;;
  match hash_file f md5_hash with
  | Some md5_hash => ret (Some (Md5.hexdigest md5_hash))
  | None => print (MsgUnreadable file_path) ;; ret None
  end.

(** [md5_dict[md5_value].append(file_path)] on a [defaultdict(list)]: a
    missing key is first given the empty list. *)
Definition append_at (md5_dict : dict (list string)) (md5_value file_path : string)
  : dict (list string) :=
  match getitem md5_dict md5_value with
  | Some paths => setitem md5_dict md5_value (paths ++ [file_path])%list
  | None => setitem (setitem md5_dict md5_value []) md5_value ([] ++ [file_path])%list
  end.

(** Lines 42-50: the body of the inner loop. *)
Definition scan_file (root : string) (entry : string * file)
    (st : dict (list string) * nat) : M (dict (list string) * nat) :=
  let '(filename, f) := entry in
  let '(md5_dict, file_count) := st in
  let file_path := join root filename in
  let file_count := S file_count in
  (if Nat.eqb (file_count mod 100) 0
   then print (MsgScanned file_count) else ret tt) ;;
  md5_value <- calculate_md5 file_path f ;;
  if truthy_opt md5_value then
    match md5_value with
    | Some md5 => ret (append_at md5_dict md5 file_path, file_count)
    | None => ret (md5_dict, file_count)
    end
  else ret (md5_dict, file_count).

(** Lines 33-52: the index of a directory. *)
Definition scan (h : host) (directory : string) : M (dict (list string)) :=
  let md5_dict := [] in
  print (MsgScanning directory) ;;
  let file_count := O in
  st <- for_each (os_walk h directory)
          (fun '(root, dirs, files) st => for_each files (scan_file root) st)
          (md5_dict, file_count) ;;
  let '(md5_dict, file_count) := st in
  print (MsgScanComplete file_count) ;;
  ret md5_dict.

(** Line 55: the dict comprehension. *)
Definition duplicates (md5_dict : dict (list string)) : dict (list string) :=
  filter (fun '(md5, paths) => (1 <? List.length paths)%nat) md5_dict.

(** Lines 23-57. *)
Definition find_duplicate_files (h : host) (directory : string)
  : M (dict (list string)) :=
  (if negb (exists_ h directory)
   then print (MsgNotExist directory) ;; sys_exit 1 else ret tt) ;;
  (if negb (isdir h directory)
   then print (MsgNotDir directory) ;; sys_exit 1 else ret tt) ;;
  md5_dict <- scan h directory ;;
  let duplicate_files := duplicates md5_dict in
  ret duplicate_files.

End FindDuplicates.

(** ** Derived notions used in the statements *)

(** The file can be fingerprinted: it opens, and no call of [f.read] that the
    loop makes raises.  The loop makes one call per chunk and one more, which
    returns the empty bytes. *)
Definition reads_ok (f : file) : bool :=
  match fault f with
  | NoFault => true
  | OpenFails => false
  | ReadFails k =>
      (List.length (chunks (List.length (content f)) 4096 (content f)) <? k)%nat
  end.

(** The files of a walk with their joined paths, in the order the two nested
    loops of a scanner visit them. *)
Definition walk_files (h : host) (top : string) : list (string * file) :=
  flat_map (fun '(root, dirs, files) =>
              map (fun '(filename, f) => (join root filename, f)) files)
           (os_walk h top).

(** [d[k]] when present, else nothing. *)
Definition paths_at (d : dict (list string)) (k : string) : list string :=
  match getitem d k with
  | Some paths => paths
  | None => []
  end.

Definition digest_of (g : CompareResources.group) : string := fst (fst g).

(** The digests two indexes share, as the set intersection enumerates them. *)
Definition common_digests (A B : dict (list string)) : list string :=
  set_and (set_of (keys A)) (set_of (keys B)).

(** One group per shared digest, digests ascending. *)
Definition groups_across (A B : dict (list string)) : list CompareResources.group :=
  map (fun k => (k, paths_at A k, paths_at B k)) (sorted (common_digests A B)).

(** What a report of cross-tree groups must be for the indexes [A] and [B]. *)
Definition pairs_exactly (A B : dict (list string))
    (results : list CompareResources.group) : Prop :=
  (forall d, In d (map digest_of results)
             <-> contains A d = true /\ contains B d = true)
  /\ (forall d files1 files2,
        In (d, files1, files2) results ->
        getitem A d = Some files1 /\ getitem B d = Some files2)
  /\ NoDup (map digest_of results).

(** One more path under a digest: appended to the digest's list, which is
    created at the end of the index when the digest is new. *)
Definition add_path (d : dict (list string)) (k p : string) : dict (list string) :=
  match getitem d k with
  | Some paths => setitem d k (paths ++ [p])%list
  | None => setitem d k [p]
  end.

(** The digest and path of every file that can be read, in visiting order. *)
Definition fingerprints (fs : list (string * file)) : list (string * string) :=
  flat_map (fun '(p, f) =>
              if reads_ok f then [(Md5.md5_hex (content f), p)] else []) fs.

(** The index that a scan of these files builds. *)
Definition index_of (fs : list (string * file)) : dict (list string) :=
  fold_left (fun d '(k, p) => add_path d k p) (fingerprints fs) [].

(** A turn of the inner loop of [scan_directory], as a change of the loop
    variables [(md5_dict, file_count)]. *)
Definition cr_visit (root : string) (entry : string * file)
    (st : dict (list string) * nat) : dict (list string) * nat :=
  if reads_ok (snd entry)
  then (add_path (fst st) (Md5.md5_hex (content (snd entry)))
          (join root (fst entry)), S (snd st))
  else st.

(** The same for the inner loop of [find_duplicate_files]. *)
Definition fd_visit (root : string) (entry : string * file)
    (st : dict (list string) * nat) : dict (list string) * nat :=
  (if reads_ok (snd entry)
   then add_path (fst st) (Md5.md5_hex (content (snd entry)))
          (join root (fst entry))
   else fst st, S (snd st)).

Definition unreadable (fs : list (string * file)) : list (string * file) :=
  filter (fun pf => negb (reads_ok (snd pf))) fs.

(** The paths a run tried to open, in order. *)
Definition opened (tr : list event) : list string :=
  flat_map (fun e => match e with EvOpen p => [p] | _ => [] end) tr.

(** The paths a run reported as unreadable, in order. *)
Definition reported (tr : list event) : list string :=
  flat_map (fun e =>
              match e with
              | EvPrint (MsgMd5Failed p) | EvPrint (MsgUnreadable p) => [p]
              | _ => []
              end) tr.

Definition is_hex (c : ascii) : bool :=
  existsb (Ascii.eqb c)
    ["0"; "1"; "2"; "3"; "4"; "5"; "6"; "7";
     "8"; "9"; "a"; "b"; "c"; "d"; "e"; "f"]%char.

Fixpoint all_hex (s : string) : bool :=
  match s with
  | EmptyString => true
  | String c s' => is_hex c && all_hex s'
  end.

(** [x <= y] on [str]. *)
Definition le_str (x y : string) : Prop := String.leb x y = true.

(** Ascending, neighbours distinct. *)
Fixpoint ascending (l : list string) : bool :=
  match l with
  | [] => true
  | x :: l' =>
      match l' with
      | [] => true
      | y :: _ => String.ltb x y && ascending l'
      end
  end.

Fixpoint has_sep (s : string) : bool :=
  match s with
  | EmptyString => false
  | String c s' => Ascii.eqb c sep || has_sep s'
  end.

(** A name as a directory entry has it: not empty, no separator. *)
Definition name_ok (s : string) : bool :=
  negb (String.eqb s EmptyString) && negb (has_sep s).

(** Directory entries have names, and no two entries of one directory have
    the same name. *)
Fixpoint tree_ok (t : tree) : Prop :=
  match t with
  | Dir files subdirs =>
      NoDup (map fst files ++ map fst subdirs)
      /\ Forall (fun n => name_ok n = true) (map fst files ++ map fst subdirs)
      /\ (fix all_ok (ds : list (string * tree)) : Prop :=
            match ds with
            | [] => True
            | d :: ds' => tree_ok (snd d) /\ all_ok ds'
            end) subdirs
  end.

(** What [join top] puts before a name: [top] itself, with a separator when
    [top] is not empty and does not end in one. *)
Definition base (top : string) : string :=
  if (String.eqb top EmptyString || endswith_sep top)%bool
  then top else String.append top (String sep EmptyString).

(** The joined paths of the files below [top], in walk order. *)
Definition tree_paths (top : string) (t : tree) : list string :=
  map fst
    (flat_map (fun '(root, dirs, files) =>
                 map (fun '(filename, f) => (join root filename, f)) files)
              (walk top t)).

(** What a scan of the files [fs] must leave behind: the index [idx] lists a
    path under a digest exactly when a visited file with that path could be
    read and has that digest; no key is the empty string and no key has an
    empty list; every file was opened, in visiting order; and the files that
    could not be read are the ones reported. *)
Definition scanned_exactly (fs : list (string * file))
    (idx : dict (list string)) (evs : list event) : Prop :=
  (forall d p,
      In p (paths_at idx d)
      <-> exists f, In (p, f) fs /\ reads_ok f = true
                    /\ d = Md5.md5_hex (content f))
  /\ contains idx EmptyString = false
  /\ (forall d, contains idx d = true -> paths_at idx d <> [])
  /\ opened evs = map fst fs
  /\ reported evs = map fst (unreadable fs).

Definition md5_of_nothing : string := "d41d8cd98f00b204e9800998ecf8427e".

Definition bytes_of_string (s : string) : Md5.bytes :=
  map byte_of_ascii (list_ascii_of_string s).

(** The strings of [xs] that are not in [seen], each at its first place. *)
Fixpoint firsts (seen xs : list string) : list string :=
  match xs with
  | [] => []
  | x :: xs' =>
      if mem x seen then firsts seen xs' else x :: firsts (seen ++ [x]) xs'
  end.

(** The digests of the readable files in the order the walk first meets
    them. *)
Definition discovery_order (fs : list (string * file)) : list string :=
  firsts [] (map fst (fingerprints fs)).

(** ** A small host for examples *)

Definition empty_file : file := mk_file [] NoFault 0 0.
Definition letter_a : file := mk_file (bytes_of_string "a") NoFault 1700000000 420.
Definition letter_a_again : file :=
  mk_file (bytes_of_string "a") (ReadFails 7) 1600000000 292.
Definition locked : file := mk_file (bytes_of_string "abc") OpenFails 0 0.
Definition torn : file := mk_file (bytes_of_string "abc") (ReadFails 1) 0 0.
Definition two_chunks : file := mk_file (repeat "y"%byte 4097) NoFault 0 0.

Definition sample_tree : tree :=
  Dir [("e1"%string, empty_file); ("e2"%string, empty_file);
       ("a1"%string, letter_a); ("locked"%string, locked)]
      [("sub"%string, Dir [("a2"%string, letter_a_again);
                           ("torn"%string, torn)] [])].

Definition other_tree : tree :=
  Dir [("copy"%string, letter_a_again); ("big"%string, two_chunks);
       ("nothing"%string, empty_file)] [].

Definition sample_host : host :=
  mk_host [("/t"%string, NDir sample_tree);
           ("/u"%string, NDir other_tree);
           ("/f"%string, NFile empty_file)]
          (fun p => p).

Definition md5_of_a : string := "0cc175b9c0f1b6a831c399e269772661".

(** ** More of the scripts: paths, reports, the target of a move *)

Module PosixPath.

(** [(p[:i], p[i:])] with [i = p.rfind('/') + 1]. *)
Fixpoint split_last (p : string) : string * string :=
  match p with
  | EmptyString => (EmptyString, EmptyString)
  | String c p' =>
      if has_sep p' then
        let '(head, tail) := split_last p' in (String c head, tail)
      else if Ascii.eqb c sep then (String c EmptyString, p')
      else (EmptyString, String c p')
  end.

Fixpoint all_sep (s : string) : bool :=
  match s with
  | EmptyString => true
  | String c s' => Ascii.eqb c sep && all_sep s'
  end.

(** [s.rstrip('/')] *)
Fixpoint rstrip_sep (s : string) : string :=
  match s with
  | EmptyString => EmptyString
  | String c s' =>
      let r := rstrip_sep s' in
      if Ascii.eqb c sep && String.eqb r EmptyString then EmptyString
      else String c r
  end.

(** [os.path.basename] *)
Definition basename (p : string) : string := snd (split_last p).

(** [os.path.dirname] *)
Definition dirname (p : string) : string :=
  let head := fst (split_last p) in
  if negb (String.eqb head EmptyString) && negb (all_sep head)
  then rstrip_sep head else head.

End PosixPath.

Module Report.
Import PosixPath.

(** *** compare_resources.py, lines 104-199 *)

Definition get_relative_path (os : os_view) (file_path base_dir : string) : string :=
  match relpath os file_path base_dir with
  | Some r => r
  | None => file_path
  end.

Definition excel_header (dir1 dir2 : string) : row :=
  [CStr "序号"; CStr "MD5值";
   CStr (String.append "文件路径1 (" (String.append (basename dir1) ")"));
   CStr (String.append "文件路径2 (" (String.append (basename dir2) ")"));
   CStr "文件大小(字节)"].

(** Lines 168-177: the row number [i] of a group. *)
Definition excel_row (os : os_view) (dir1 dir2 : string) (idx : nat)
    (md5_value : string) (files1 files2 : list string) (file_size : Z)
    (i : nat) : row :=
  let file1 := match nth_error files1 i with
               | Some p => get_relative_path os p dir1
               | None => EmptyString
               end in
  let file2 := match nth_error files2 i with
               | Some p => get_relative_path os p dir2
               | None => EmptyString
               end in
  [if Nat.eqb i 0 then CInt (Z.of_nat idx) else CStr EmptyString;
   if Nat.eqb i 0 then CStr md5_value else CStr EmptyString;
   CStr file1;
   CStr file2;
   if Nat.eqb i 0 then CInt file_size else CStr EmptyString].

(** Lines 160-185 for one group; [None] when [os.path.getsize] raises. *)
Definition excel_group (os : os_view) (dir1 dir2 : string) (idx : nat)
    (g : CompareResources.group) : option (list row) :=
  let '(md5_value, files1, files2) := g in
  let file_size := match files1 with
                   | p :: _ => getsize os p
                   | [] => Some 0
                   end in
  match file_size with
  | Some file_size =>
      let max_count := Nat.max (List.length files1) (List.length files2) in
      Some (map (excel_row os dir1 dir2 idx md5_value files1 files2 file_size)
                (seq 0 max_count))
  | None => None
  end.

Fixpoint excel_groups (os : os_view) (dir1 dir2 : string) (idx : nat)
    (results : list CompareResources.group) : option (list row) :=
  match results with
  | [] => Some []
  | g :: rest =>
      match excel_group os dir1 dir2 idx g with
      | None => None
      | Some rows =>
          match excel_groups os dir1 dir2 (S idx) rest with
          | None => None
          | Some more => Some (rows ++ more)
          end
      end
  end.

(** The cell values that [export_to_excel] saves; fonts, fills, alignment,
    column widths and the frozen pane do not change them. *)
Definition export_to_excel (os : os_view)
    (results : list CompareResources.group) (output_path dir1 dir2 : string)
  : ending * list out_event :=
  match excel_groups os dir1 dir2 1 results with
  | None => (Failed, [OPrint (Generating output_path)])
  | Some rows =>
      if can_create os output_path
      then (Completed,
            [OPrint (Generating output_path);
             OWrite output_path (excel_header dir1 dir2 :: rows);
             OPrint (ExcelDone (List.length results))])
      else (Failed, [OPrint (Generating output_path)])
  end.

(** [c.lower()] for the letters A to Z; no other character lowers to one of
    the characters of ".xlsx". *)
Definition lower_ascii (c : ascii) : ascii :=
  let n := nat_of_ascii c in
  if (65 <=? n)%nat && (n <=? 90)%nat then ascii_of_nat (n + 32) else c.

Fixpoint lower (s : string) : string :=
  match s with
  | EmptyString => EmptyString
  | String c s' => String (lower_ascii c) (lower s')
  end.

(** [s.endswith(suffix)] *)
Fixpoint endswith (s suffix : string) : bool :=
  if String.eqb s suffix then true
  else match s with
       | EmptyString => false
       | String _ s' => endswith s' suffix
       end.

(** Lines 237-239 of [main]: the output name gets its extension. *)
Definition with_xlsx (output : string) : string :=
  if negb (endswith (lower output) ".xlsx")
  then String.append output ".xlsx" else output.

(** *** find_duplicate_files_simple.py, lines 60-110 *)

Definition csv_header : row :=
  [CStr "组号"; CStr "MD5值"; CStr "文件路径"; CStr "文件大小(字节)"].

(** Lines 83-88: the row of one path; a size that cannot be read is
    replaced by a text. *)
Definition csv_row (os : os_view) (group_num : nat) (md5 path : string) : row :=
  let file_size := match getsize os path with
                   | Some n => CInt n
                   | None => CStr "无法获取"
                   end in
  [CInt (Z.of_nat group_num); CStr md5; CStr path; file_size].

(** Lines 80-90: the rows of the groups, [group_num] counting up. *)
Fixpoint csv_groups (os : os_view) (group_num : nat)
    (items : list (string * list string)) : list row :=
  match items with
  | [] => []
  | (md5, paths) :: rest =>
      map (csv_row os group_num md5) paths ++ csv_groups os (S group_num) rest
  end.

(** Lines 100-110: the details printed at the end. *)
Fixpoint details (os : os_view) (group_num : nat)
    (items : list (string * list string)) : list out_event :=
  match items with
  | [] => []
  | (md5, paths) :: rest =>
      OPrint (DetailGroup group_num md5)
        :: map (fun path => OPrint (DetailPath path (getsize os path))) paths
        ++ details os (S group_num) rest
  end.

(** [writer.writerow(r)] for the rows in turn, the file holding [n] rows
    already: the loop ends at the first call that raises, and the rows before
    it have been handed over. *)
Fixpoint writerows (os : os_view) (output_file : string) (n : nat)
    (rows : list row) : ending * list out_event :=
  match rows with
  | [] => (Completed, [])
  | r :: rest =>
      if can_write os output_file n r then
        let '(e, evs) := writerows os output_file (S n) rest in
        (e, OWriterow output_file r :: evs)
      else (Failed, [])
  end.

(** Lines 72-110.  [open] creates the file, or empties it; the header and
    the rows of lines 80-90 go to the writer one by one, each as soon as it
    is built; the summary is printed when the [with] block is left without
    an exception. *)
Definition write_csv (os : os_view) (duplicate_files : dict (list string))
    (output_file : string) (before : list out_event) : ending * list out_event :=
  if can_create os output_file then
    match writerows os output_file 0
            (csv_header :: csv_groups os 1 duplicate_files) with
    | (Completed, ws) =>
        let total_duplicates :=
          list_sum (map (fun e => List.length (snd e)) duplicate_files) in
        (Completed,
         before
           ++ OOpen output_file :: ws
           ++ [OPrint (SavedTo output_file);
               OPrint (GroupCount (List.length duplicate_files));
               OPrint (TotalDuplicates total_duplicates);
               OPrint DetailsTitle]
           ++ details os 1 duplicate_files)
    | (Failed, ws) => (Failed, before ++ OOpen output_file :: ws)
    end
  else (Failed, before).

Definition export_to_csv (os : os_view) (duplicate_files : dict (list string))
    (output_file : string) : ending * list out_event :=
  match duplicate_files with
  | [] => (Completed, [OPrint NoDuplicates])
  | _ :: _ =>
      let output_dir := dirname output_file in
      if truthy output_dir && negb (path_exists os output_dir) then
        if can_create os output_dir
        then write_csv os duplicate_files output_file
               [OMakedirs output_dir; OPrint (CreatedDir output_dir)]
        else (Failed, [])
      else write_csv os duplicate_files output_file []
  end.

(** The workbooks that a run saved, with their rows. *)
Definition written (evs : list out_event) : list (string * list row) :=
  flat_map (fun e => match e with OWrite p rows => [(p, rows)] | _ => [] end) evs.

Definition made_dirs (evs : list out_event) : list string :=
  flat_map (fun e => match e with OMakedirs d => [d] | _ => [] end) evs.

(** The files that a run opened for writing. *)
Definition created (evs : list out_event) : list string :=
  flat_map (fun e => match e with OOpen p => [p] | _ => [] end) evs.

(** The rows that a run handed to the CSV writer, in order. *)
Definition handed (evs : list out_event) : list row :=
  flat_map (fun e => match e with OWriterow _ r => [r] | _ => [] end) evs.

(** The digest and path cells of a data row of the CSV sheet. *)
Definition csv_entry (r : row) : list (string * string) :=
  match r with
  | [_; CStr md5; CStr path; _] => [(md5, path)]
  | _ => []
  end.

End Report.

(** ** The scripts as they are run *)

(** compare_resources.py, lines 202-256: [main] after [parse_args], on the
    three arguments.  No exception is caught here.  [h] holds the trees that
    are scanned, [os] answers for the output path; a directory made for the
    output holds no file, so the scan that follows finds the files of [h]. *)
Module CompareResourcesCli.
Import PosixPath Report.

Definition main (h : host) (os : os_view) (dir1 dir2 output : string) : M unit :=
  if negb (isdir h dir1) then print (MsgDirMissing dir1) ;; ret tt
  else if negb (isdir h dir2) then print (MsgDirMissing dir2) ;; ret tt
  else
    let output_dir := dirname output in
    (if truthy output_dir && negb (path_exists os output_dir)
     then makedirs os output_dir ;; print (MsgCreatedDir output_dir)
     else ret tt) ;;
    let output := with_xlsx output in
    print MsgRule ;;
    print MsgTitle ;;
    print MsgRule ;;
    print (MsgDir1 dir1) ;;
    print (MsgDir2 dir2) ;;
    print (MsgOutputFile output) ;;
    results <- CompareResources.compare_directories h dir1 dir2 ;;
    match results with
    | _ :: _ =>
        call (export_to_excel os results output dir1 dir2) ;;
        print MsgFinished
    | [] => print MsgNoMatch
    end.

End CompareResourcesCli.

(** find_duplicate_files_simple.py, lines 113-143: [argv] is [sys.argv]. *)
Module FindDuplicatesCli.
Import PosixPath Report.

Definition main (h : host) (os : os_view) (argv : list string) : M unit :=
  match argv with
  | _ :: directory :: rest =>
      let dir_name := basename (abspath h directory) in
      let csv_filename :=
        String.append "same_file_in_" (String.append dir_name ".csv") in
      output_file <-
        match rest with
        | output_path :: _ =>
            let output_file := join output_path csv_filename in
            print (MsgOutputGiven output_file) ;; ret output_file
        | [] =>
            let parent_dir := dirname (abspath h directory) in
            let output_file := join parent_dir csv_filename in
            print (MsgOutputSibling output_file) ;; ret output_file
        end ;;
      duplicate_files <- FindDuplicates.find_duplicate_files h directory ;;
      call (export_to_csv os duplicate_files output_file)
  | _ =>
      print MsgUsage ;; print (MsgExample 1) ;; print (MsgExample 2) ;;
      sys_exit 1
  end.

End FindDuplicatesCli.

(** *** move_old_files.py, lines 25-40 *)
Module MoveOldFiles.
Import PosixPath.

(** [str(counter)] *)
Definition str (n : nat) : string := NilEmpty.string_of_uint (Nat.to_uint n).

(** [source_dir.parent / (source_dir.name + str(counter))], for a resolved
    [source_dir], on which [parent] and [name] are [dirname] and
    [basename]. *)
Definition candidate (source_dir : string) (counter : nat) : string :=
  join (dirname source_dir) (String.append (basename source_dir) (str counter)).

(** The [while True] loop, at most [fuel] turns. *)
Fixpoint search (fuel : nat) (h : host) (source_dir : string) (counter : nat)
  : option string :=
  match fuel with
  | O => None
  | S fuel' =>
      let target_dir := candidate source_dir counter in
      if negb (exists_ h target_dir) then Some target_dir
      else search fuel' h source_dir (S counter)
  end.

Definition find_available_target_dir (h : host) (source_dir : string)
  : option string :=
  search (S (List.length (nodes h))) h source_dir 2.

End MoveOldFiles.

(** ** Notions used in the further statements *)

(** The files that can be read. *)
Definition readable (fs : list (string * file)) : list (string * file) :=
  filter (fun pf => reads_ok (snd pf)) fs.

(** The events a scan leaves: printed lines and opened files. *)
Definition scan_event (e : event) : Prop :=
  match e with
  | EvOpen _ => True
  | EvPrint m =>
      match m with
      | MsgMd5Failed _ | MsgUnreadable _ | MsgScanning _ | MsgProcessed _
      | MsgScanDone _ _ | MsgScanned _ | MsgScanComplete _ | MsgRule
      | MsgStartScan | MsgCommon _ => True
      | _ => False
      end
  | _ => False
  end.

(** A file that can be read and has the digest [d]. *)
Definition has_digest (d : string) (pf : string * file) : bool :=
  reads_ok (snd pf) && String.eqb (Md5.md5_hex (content (snd pf))) d.

(** A group with its two sides exchanged. *)
Definition swap_sides (g : CompareResources.group) : CompareResources.group :=
  (digest_of g, snd g, snd (fst g)).

(** Some file of each list can be read and has the digest [d]. *)
Definition shared_digest (fs1 fs2 : list (string * file)) (d : string) : Prop :=
  existsb (has_digest d) fs1 = true /\ existsb (has_digest d) fs2 = true.

(** At least two walked files can be read and have the digest [d]. *)
Definition duplicated (fs : list (string * file)) (d : string) : Prop :=
  (1 < List.length (filter (has_digest d) fs))%nat.

(** The digest and path of every entry of a dict of groups, group by group. *)
Definition entries (d : dict (list string)) : list (string * string) :=
  flat_map (fun e => map (pair (fst e)) (snd e)) d.

(** The first cell of a row. *)
Definition first_cell (r : row) : list cell :=
  match r with
  | c :: _ => [c]
  | [] => []
  end.

(** The group numbers in the first column: the number [n + i] once for every
    path of the group at place [i]. *)
Fixpoint group_numbers (n : nat) (d : dict (list string)) : list cell :=
  match d with
  | [] => []
  | e :: rest =>
      repeat (CInt (Z.of_nat n)) (List.length (snd e))
        ++ group_numbers (S n) rest
  end.

(** The printed total of an export. *)
Definition totals (evs : list out_event) : list nat :=
  flat_map (fun e => match e with
                     | OPrint (TotalDuplicates n) => [n]
                     | _ => []
                     end) evs.

(** The cell number [j] of a row, counting from 0. *)
Definition cell_at (j : nat) (r : row) : cell :=
  nth j r (CStr EmptyString).

(** A column of paths: the relative paths of the files, then empty cells up
    to [m] rows. *)
Definition padded (os : os_view) (base_dir : string)
    (files : list string) (m : nat) : list cell :=
  (map (fun p => CStr (Report.get_relative_path os p base_dir)) files
   ++ repeat (CStr EmptyString) (m - List.length files))%list.

(** A cell that is filled on the first row of a group only. *)
Definition first_only (c : cell) (m : nat) : list cell :=
  map (fun i => if Nat.eqb i 0 then c else CStr EmptyString) (seq 0 m).

(** The number of rows of a group of the cross-tree sheet. *)
Definition group_height (g : CompareResources.group) : nat :=
  Nat.max (List.length (snd (fst g))) (List.length (snd g)).

(** The size of the first file of the first side of a group can be read. *)
Definition sized (os : os_view) (g : CompareResources.group) : Prop :=
  match snd (fst g) with
  | p :: _ => getsize os p <> None
  | [] => True
  end.

(** What a run did on the output side, in order. *)
Definition outs (tr : list event) : list out_event :=
  flat_map (fun e => match e with EvOut o => [o] | _ => [] end) tr.

(** The groups that the cross-tree script finds for two roots. *)
Definition cross_groups (h : host) (dir1 dir2 : string)
  : list CompareResources.group :=
  groups_across (index_of (walk_files h (abspath h dir1)))
                (index_of (walk_files h (abspath h dir2))).

(** The groups that the duplicate finder finds below a root. *)
Definition duplicate_groups (h : host) (directory : string) : dict (list string) :=
  FindDuplicates.duplicates (index_of (walk_files h directory)).

(** The file in which [main] of the duplicate finder puts its report: it is
    named after the scanned directory and lies in the directory given as the
    second argument, or else beside the scanned directory. *)
Definition report_path (h : host) (directory : string) (rest : list string)
  : string :=
  let csv_filename :=
    String.append "same_file_in_"
      (String.append (PosixPath.basename (abspath h directory)) ".csv") in
  match rest with
  | output_path :: _ => join output_path csv_filename
  | [] => join (PosixPath.dirname (abspath h directory)) csv_filename
  end.

(** The directory of [output] is there, or has no name, or can be made. *)
Definition dir_ready (os : os_view) (output : string) : bool :=
  let output_dir := PosixPath.dirname output in
  negb (truthy output_dir && negb (path_exists os output_dir))
  || can_create os output_dir.

(** [writerow] accepts every row of [rows], the row at place [i] when the
    file holds [i] rows. *)
Definition writable (os : os_view) (path : string) (rows : list row) : Prop :=
  forall i r, nth_error rows i = Some r -> can_write os path i r = true.

(** Nothing fails on the output side. *)
Definition generous (os : os_view) : Prop :=
  (forall p, can_create os p = true)
  /\ (forall p n r, can_write os p n r = true)
  /\ (forall p, getsize os p <> None).

(** How a call ends that the caller does not guard. *)
Definition passed_on (e : ending) : outcome unit :=
  match e with
  | Completed => Returned tt
  | Failed => Uncaught OutputError
  end.

(** *** find_duplicate_files_v2.py, lines 90-121 *)
Module FindDuplicatesV2.
Import Report.

(** What is done to the worksheet: a cell is given a value, a range of rows
    of a column is merged. *)
Inductive sheet_op : Type :=
| SetCell (row col : nat) (v : cell)
| MergeCells (start_row end_row col : nat).

(** Lines 97-107: the rows of the paths of one group, from [row] on. *)
Fixpoint write_paths (os : os_view) (row group_num : nat) (md5 : string)
    (paths : list string) : nat * list sheet_op :=
  match paths with
  | [] => (row, [])
  | path :: paths' =>
      let file_size := match getsize os path with
                       | Some n => CInt n
                       | None => CStr "无法获取"
                       end in
      let '(row', ops) := write_paths os (S row) group_num md5 paths' in
      (row',
       SetCell row 1 (CInt (Z.of_nat group_num))
         :: SetCell row 2 (CStr md5)
         :: SetCell row 3 (CStr path)
         :: SetCell row 4 file_size
         :: ops)
  end.

(** Lines 93-121: the groups, [row] and [group_num] counting up. *)
Fixpoint write_groups (os : os_view) (row group_num : nat)
    (items : list (string * list string)) : nat * list sheet_op :=
  match items with
  | [] => (row, [])
  | (md5, paths) :: rest =>
      let duplicate_count := List.length paths in
      let start_row := row in
      let '(row, ops) := write_paths os row group_num md5 paths in
      let end_row := (row - 1)%nat in
      let count :=
        if Nat.eqb start_row end_row
        then [SetCell start_row 5 (CInt (Z.of_nat duplicate_count))]
        else [MergeCells start_row end_row 5;
              SetCell start_row 5 (CInt (Z.of_nat duplicate_count))] in
      let '(row', more) := write_groups os row (S group_num) rest in
      (row', ops ++ count ++ more)
  end.

(** The data part of the sheet: rows from 2, groups from 1. *)
Definition sheet_ops (os : os_view) (duplicate_files : dict (list string))
  : nat * list sheet_op :=
  write_groups os 2 1 duplicate_files.

End FindDuplicatesV2.

(** The merged row ranges of the sheet, in the order they were made. *)
Definition merged (ops : list FindDuplicatesV2.sheet_op) : list (nat * nat) :=
  flat_map (fun o => match o with
                     | FindDuplicatesV2.MergeCells s e _ => [(s, e)]
                     | _ => []
                     end) ops.

(** Row ranges that follow one another from [start], one of [n] rows for
    every [n] of [heights]. *)
Fixpoint tiles (start : nat) (heights : list nat) : list (nat * nat) :=
  match heights with
  | [] => []
  | n :: rest => (start, start + n - 1)%nat :: tiles (start + n) rest
  end.

(** ** A view of the operating system for examples *)

(** The rest of [p] after [base] and a separator, if [p] starts so. *)
Fixpoint below (base p : string) : option string :=
  match base, p with
  | EmptyString, String c r => if Ascii.eqb c sep then Some r else None
  | String a base', String c p' => if Ascii.eqb a c then below base' p' else None
  | _, EmptyString => None
  end.

Definition sample_os : os_view :=
  mk_os
    (fun p => if String.eqb p "/t/e1" then Some 0
              else if String.eqb p "/t/a1" then Some 1
              else None)
    (fun p base => below base p)
    (fun p => String.eqb p "/out")
    (fun p => negb (String.eqb p "/out/locked.csv" || String.eqb p "/sealed"))
    (fun p n r => negb (String.eqb p "/out/full.csv" && (2 <? n)%nat)).

(** A view in which nothing fails. *)
Definition plain_os : os_view :=
  mk_os (fun _ => Some 0) (fun p base => below base p) (fun _ => true)
        (fun _ => true) (fun _ _ _ => true).

Definition sample_duplicates : dict (list string) :=
  [(md5_of_nothing, ["/t/e1"; "/t/e2"]);
   (md5_of_a, ["/t/a1"; "/t/sub/a2"])]%string.

Definition sample_group : CompareResources.group :=
  (md5_of_a, ["/t/a1"; "/t/sub/a2"], ["/u/copy"])%string.

(** * Properties *)

(** ** Test vectors of RFC 1321 *)

Example md5_empty : Md5.md5_hex [] = "d41d8cd98f00b204e9800998ecf8427e"%string.
Proof. vm_compute. reflexivity. Qed.

Example md5_a :
  Md5.md5_hex (bytes_of_string "a") = "0cc175b9c0f1b6a831c399e269772661"%string.
Proof. vm_compute. reflexivity. Qed.

Example md5_abc :
  Md5.md5_hex (bytes_of_string "abc") = "900150983cd24fb0d6963f7d28e17f72"%string.
Proof. vm_compute. reflexivity. Qed.

Example md5_block :
  Md5.md5_hex (repeat "x"%byte 64) = "c1bb4f81d892b2d57947682aeb252456"%string.
Proof. vm_compute. reflexivity. Qed.

(** ** The streaming hash: feeding in pieces *)
Section Md5Facts.
Import Md5.

Lemma absorb_nil (n : nat) (st : chain) : absorb n st [] = (st, []).
Proof. destruct n; reflexivity. Qed.

(** Fuel beyond the length of the data changes nothing. *)
Lemma absorb_fuel (n m : nat) :
  forall (st : chain) (d : bytes),
    (List.length d <= n)%nat -> (List.length d <= m)%nat ->
    absorb n st d = absorb m st d.
Proof.
  revert m. induction n as [|n IH]; intros m st d Hn Hm.
  - destruct d; [|simpl in Hn; lia]. now rewrite !absorb_nil.
  - destruct m as [|m].
    + destruct d; [|simpl in Hm; lia]. reflexivity.
    + cbn [absorb].
      destruct (Nat.leb_spec 64 (List.length d)) as [Hd|Hd]; [|reflexivity].
      apply IH; rewrite length_skipn; lia.
Qed.

(** Blocks are cut at multiples of 64 from the start, so absorbing [x ++ y]
    is absorbing [x], then what [x] left over followed by [y]. *)
Lemma absorb_app (m : nat) :
  forall (n k : nat) (st : chain) (x y : bytes),
    (List.length x <= m)%nat ->
    (List.length (x ++ y) <= n)%nat ->
    (List.length (snd (absorb m st x) ++ y) <= k)%nat ->
    absorb n st (x ++ y)
    = absorb k (fst (absorb m st x)) (snd (absorb m st x) ++ y).
Proof.
  induction m as [|m IH]; intros n k st x y Hm Hn Hk.
  - destruct x; [|simpl in Hm; lia].
    cbn [absorb fst snd app] in *. now apply absorb_fuel.
  - cbn [absorb] in *. destruct (Nat.leb_spec 64 (List.length x)) as [Hx|Hx].
    + destruct n as [|n]; [rewrite length_app in Hn; lia|].
      cbn [absorb]. rewrite length_app.
      destruct (Nat.leb_spec 64 (List.length x + List.length y)); [|lia].
      rewrite firstn_app, skipn_app.
      replace (64 - List.length x)%nat with O by lia.
      rewrite firstn_O, skipn_O, app_nil_r.
      apply IH; auto.
      * rewrite length_skipn. lia.
      * rewrite length_app, length_skipn. rewrite length_app in Hn. lia.
    + cbn [fst snd] in *. now apply absorb_fuel.
Qed.

(** [h.update(a); h.update(b)] is [h.update(a + b)]. *)
Lemma update_app (h : md5_ctx) (a b : bytes) :
  update (update h a) b = update h (a ++ b).
Proof.
  unfold update.
  destruct (absorb (List.length (ctx_pending h ++ a)) (ctx_chain h)
              (ctx_pending h ++ a)) as [st1 r1] eqn:E1.
  cbn [ctx_pending ctx_chain ctx_count].
  rewrite (app_assoc (ctx_pending h) a b).
  rewrite (absorb_app (List.length (ctx_pending h ++ a))
             (List.length ((ctx_pending h ++ a) ++ b)) (List.length (r1 ++ b))
             (ctx_chain h) (ctx_pending h ++ a) b); rewrite ?E1; auto.
  cbn [fst snd].
  destruct (absorb (List.length (r1 ++ b)) st1 (r1 ++ b)) as [st2 r2].
  f_equal. rewrite length_app. lia.
Qed.

Lemma fold_update (cs : list bytes) :
  forall (h : md5_ctx) (a : bytes),
    fold_left update cs (update h a) = update h (a ++ List.concat cs).
Proof.
  induction cs as [|c cs IH]; intros h a; simpl.
  - now rewrite app_nil_r.
  - rewrite update_app, IH. now rewrite app_assoc.
Qed.

(** Whatever the pieces, feeding them one by one gives the digest of their
    concatenation. *)
Lemma hexdigest_pieces (cs : list bytes) :
  hexdigest (fold_left update cs md5_new) = md5_hex (List.concat cs).
Proof.
  unfold md5_hex. destruct cs as [|c cs]; [reflexivity|].
  simpl. now rewrite fold_update.
Qed.

Lemma hex_of_bytes_length (bs : bytes) :
  String.length (hex_of_bytes bs) = (2 * List.length bs)%nat.
Proof. induction bs as [|b bs IH]; simpl; [reflexivity | rewrite IH; lia]. Qed.

Lemma le_bytes_length (n : nat) : forall z, List.length (le_bytes n z) = n.
Proof. induction n as [|n IH]; intros z; simpl; [reflexivity | now rewrite IH]. Qed.

Lemma digest_length (h : md5_ctx) : List.length (digest h) = 16%nat.
Proof.
  unfold digest.
  destruct (fst (absorb _ (ctx_chain h) _)) as [[[a b] c] d].
  rewrite !length_app, !le_bytes_length. reflexivity.
Qed.

(** A hex digest has 32 characters. *)
Lemma hexdigest_length (h : md5_ctx) : String.length (hexdigest h) = 32%nat.
Proof. unfold hexdigest. now rewrite hex_of_bytes_length, digest_length. Qed.

Lemma hex_digit_is_hex (n : Z) : is_hex (hex_digit n) = true.
Proof.
  unfold hex_digit.
  destruct (Z.to_nat n) as [|k]; [reflexivity|].
  do 15 (destruct k as [|k]; [reflexivity|]).
  destruct k; reflexivity.
Qed.

Lemma hex_of_bytes_all_hex (bs : bytes) : all_hex (hex_of_bytes bs) = true.
Proof.
  induction bs as [|b bs IH]; [reflexivity|].
  cbn [hex_of_bytes all_hex]. now rewrite !hex_digit_is_hex, IH.
Qed.

Lemma hexdigest_truthy (h : md5_ctx) : truthy (hexdigest h) = true.
Proof.
  pose proof (hexdigest_length h) as L.
  destruct (hexdigest h); [discriminate L | reflexivity].
Qed.

End Md5Facts.

(** ** Reading a file in chunks *)
Section Reading.
Import Md5.

Lemma chunks_concat (size : nat) (Hsize : (0 < size)%nat) (fuel : nat) :
  forall data : bytes,
    (List.length data <= fuel)%nat ->
    List.concat (chunks fuel size data) = data.
Proof.
  induction fuel as [|fuel IH]; intros data Hfuel.
  - destruct data; [reflexivity | simpl in Hfuel; lia].
  - destruct data as [|b data]; [reflexivity|].
    cbn [chunks List.concat]. rewrite IH.
    + apply firstn_skipn.
    + rewrite length_skipn. cbn [List.length] in *. lia.
Qed.

(** Every chunk is a non-empty read of at most [size] bytes, and every chunk
    but the last has [size] bytes exactly. *)
Lemma chunks_sizes (size : nat) (Hsize : (0 < size)%nat) (fuel : nat) :
  forall (data : bytes) (cs1 : list bytes) (c : bytes) (cs2 : list bytes),
    chunks fuel size data = (cs1 ++ c :: cs2)%list ->
    (0 < List.length c <= size)%nat
    /\ (cs2 <> [] -> List.length c = size).
Proof.
  induction fuel as [|fuel IH]; intros data cs1 c cs2 E.
  - destruct cs1; discriminate E.
  - destruct data as [|b data]; [destruct cs1; discriminate E|].
    cbn [chunks] in E. destruct cs1 as [|c1 cs1].
    + injection E as E1 E2. subst c. rewrite length_firstn. split.
      * simpl List.length. lia.
      * intros Hne. destruct fuel as [|fuel']; [now subst cs2|].
        cbn [chunks] in E2.
        destruct (skipn size (b :: data)) as [|b' r] eqn:Es; [now subst cs2|].
        assert (L : List.length (skipn size (b :: data)) = S (List.length r))
          by now rewrite Es.
        rewrite length_skipn in L. lia.
    + injection E as _ E2. now apply (IH _ _ _ _ E2).
Qed.

Lemma feed_spec (flt : io_fault) (cs : list bytes) :
  forall (i : nat) (h : md5_ctx),
    feed flt i cs h
    = if match flt with
         | ReadFails k => (i <=? k)%nat && (k <=? i + List.length cs)%nat
         | _ => false
         end
      then None
      else Some (fold_left update cs h).
Proof.
  induction cs as [|c cs IH]; intros i h; cbn [feed fold_left List.length].
  - destruct flt as [| |k]; try reflexivity. cbn [raises].
    destruct (Nat.eqb_spec k i), (Nat.leb_spec i k), (Nat.leb_spec k (i + 0));
      cbn [andb]; try reflexivity; lia.
  - rewrite IH. destruct flt as [| |k]; try reflexivity. cbn [raises].
    destruct (Nat.eqb_spec k i), (Nat.leb_spec i k), (Nat.leb_spec (S i) k),
      (Nat.leb_spec k (i + S (List.length cs))),
      (Nat.leb_spec k (S i + List.length cs));
      cbn [andb]; try reflexivity; lia.
Qed.

Lemma hash_file_spec (f : file) (h : md5_ctx) :
  hash_file f h
  = if reads_ok f
    then Some (fold_left update
                 (chunks (List.length (content f)) 4096 (content f)) h)
    else None.
Proof.
  unfold hash_file, reads_ok. destruct (fault f) as [| |k] eqn:E.
  - now rewrite feed_spec.
  - reflexivity.
  - rewrite feed_spec. cbn [Nat.leb andb Nat.add].
    set (n := List.length (chunks _ _ _)).
    destruct (Nat.leb_spec k n), (Nat.ltb_spec n k); try reflexivity; lia.
Qed.

(** A file that can be read hashes to the digest of its whole content. *)
Lemma hash_file_whole (f : file) :
  reads_ok f = true ->
  option_map hexdigest (hash_file f md5_new) = Some (md5_hex (content f)).
Proof.
  intros R. rewrite hash_file_spec, R. cbn [option_map].
  rewrite hexdigest_pieces, chunks_concat; auto. lia.
Qed.

Lemma hash_file_fails (f : file) (h : md5_ctx) :
  reads_ok f = false -> hash_file f h = None.
Proof. intros R. now rewrite hash_file_spec, R. Qed.

End Reading.

(** ** What [calculate_md5] returns and records *)

(** The value is the digest of the content, or the empty string. *)
Lemma cr_calculate_md5_spec (file_path : string) (f : file) (tr : list event) :
  CompareResources.calculate_md5 file_path f tr
  = if reads_ok f
    then (Returned (Md5.md5_hex (content f)), tr ++ [EvOpen file_path])
    else (Returned EmptyString,
          tr ++ [EvOpen file_path; EvPrint (MsgMd5Failed file_path)]).
Proof.
  unfold CompareResources.calculate_md5, bind, emit, print, emit, ret.
  destruct (reads_ok f) eqn:R.
  - pose proof (hash_file_whole f R) as W.
    destruct (hash_file f Md5.md5_new); [|discriminate W].
    cbn [option_map] in W. now injection W as ->.
  - rewrite (hash_file_fails f _ R). now rewrite <- app_assoc.
Qed.

(** The value is the digest of the content, or [None]. *)
Lemma fd_calculate_md5_spec (file_path : string) (f : file) (tr : list event) :
  FindDuplicates.calculate_md5 file_path f tr
  = if reads_ok f
    then (Returned (Some (Md5.md5_hex (content f))), tr ++ [EvOpen file_path])
    else (Returned None,
          tr ++ [EvOpen file_path; EvPrint (MsgUnreadable file_path)]).
Proof.
  unfold FindDuplicates.calculate_md5, bind, emit, print, emit, ret.
  destruct (reads_ok f) eqn:R.
  - pose proof (hash_file_whole f R) as W.
    destruct (hash_file f Md5.md5_new); [|discriminate W].
    cbn [option_map] in W. now injection W as ->.
  - rewrite (hash_file_fails f _ R). now rewrite <- app_assoc.
Qed.

(** ** Dictionaries *)
Section DictFacts.
Context {V : Type}.
Implicit Types (d : dict V) (k : string) (v : V).

Lemma getitem_setitem d k v k' :
  getitem (setitem d k v) k' = if String.eqb k k' then Some v else getitem d k'.
Proof.
  induction d as [|[k0 v0] d IH]; cbn [setitem getitem].
  - reflexivity.
  - destruct (String.eqb_spec k0 k) as [->|Hk]; cbn [getitem].
    + destruct (String.eqb_spec k k'); reflexivity.
    + rewrite IH. destruct (String.eqb_spec k0 k') as [->|]; [|reflexivity].
      destruct (String.eqb_spec k k'); [congruence | reflexivity].
Qed.

Lemma setitem_setitem d k v v' : setitem (setitem d k v) k v' = setitem d k v'.
Proof.
  induction d as [|[k0 v0] d IH]; cbn [setitem].
  - now rewrite String.eqb_refl.
  - destruct (String.eqb_spec k0 k) as [->|Hk]; cbn [setitem].
    + now rewrite String.eqb_refl.
    + destruct (String.eqb_spec k0 k); [contradiction | now rewrite IH].
Qed.

Lemma contains_setitem d k v k' :
  contains (setitem d k v) k' = (String.eqb k k' || contains d k')%bool.
Proof.
  unfold contains. rewrite getitem_setitem. now destruct (String.eqb k k').
Qed.

Lemma contains_keys d k : contains d k = mem k (keys d).
Proof.
  unfold contains, mem, keys.
  induction d as [|[k0 v0] d IH]; cbn [getitem map existsb fst]; [reflexivity|].
  rewrite (String.eqb_sym k k0). now destruct (String.eqb k0 k).
Qed.

Lemma mem_In k (l : list string) : mem k l = true <-> In k l.
Proof.
  unfold mem. rewrite existsb_exists. split.
  - intros [x [Hx E]]. apply String.eqb_eq in E. now subst.
  - intros Hk. exists k. split; [assumption | apply String.eqb_refl].
Qed.

Lemma keys_setitem d k v :
  keys (setitem d k v) = if contains d k then keys d else (keys d ++ [k])%list.
Proof.
  unfold contains, keys.
  induction d as [|[k0 v0] d IH]; cbn [setitem getitem map app fst]; [reflexivity|].
  destruct (String.eqb_spec k0 k) as [->|Hk]; cbn [map fst]; [reflexivity|].
  rewrite IH. now destruct (getitem d k).
Qed.

Lemma getitem_In d k v : getitem d k = Some v -> In (k, v) d.
Proof.
  induction d as [|[k0 v0] d IH]; cbn [getitem]; [discriminate|].
  destruct (String.eqb_spec k0 k) as [->|Hk].
  - intros [= ->]. now left.
  - intros E. right. now apply IH.
Qed.

Lemma In_getitem d k v : NoDup (keys d) -> In (k, v) d -> getitem d k = Some v.
Proof.
  induction d as [|[k0 v0] d IH]; cbn [getitem keys map fst]; [intros _ []|].
  intros ND [E|Hin]; inversion ND as [|? ? Hnot ND']; subst.
  - injection E as -> ->. now rewrite String.eqb_refl.
  - destruct (String.eqb_spec k0 k) as [->|Hk]; [|now apply IH].
    exfalso. apply Hnot. change k with (fst (k, v)). now apply in_map.
Qed.

End DictFacts.

(** ** The index under construction *)
Section IndexFacts.
Implicit Types (d : dict (list string)) (k p : string).

Let addf := fun d (e : string * string) => let '(k, p) := e in add_path d k p.

Lemma paths_at_add_path d k p k' :
  paths_at (add_path d k p) k'
  = if String.eqb k k' then (paths_at d k' ++ [p])%list else paths_at d k'.
Proof.
  unfold paths_at, add_path.
  destruct (getitem d k) as [paths|] eqn:E; rewrite getitem_setitem;
    destruct (String.eqb_spec k k') as [<-|]; try reflexivity; now rewrite E.
Qed.

Lemma contains_add_path d k p k' :
  contains (add_path d k p) k' = (String.eqb k k' || contains d k')%bool.
Proof.
  unfold add_path. destruct (getitem d k); apply contains_setitem.
Qed.

Lemma keys_add_path d k p :
  keys (add_path d k p) = if contains d k then keys d else (keys d ++ [k])%list.
Proof.
  unfold add_path. destruct (getitem d k) eqn:E; rewrite keys_setitem;
    unfold contains; now rewrite E.
Qed.

Lemma nodup_add_path d k p : NoDup (keys d) -> NoDup (keys (add_path d k p)).
Proof.
  intros ND. rewrite keys_add_path. destruct (contains d k) eqn:C; [assumption|].
  apply NoDup_app; [assumption | repeat constructor; intros [] |].
  intros x Hx [<-|[]]. apply mem_In in Hx. rewrite <- contains_keys in Hx.
  congruence.
Qed.

Lemma fold_paths_at (es : list (string * string)) :
  forall d k,
    paths_at (fold_left addf es d) k
    = (paths_at d k
       ++ map snd (filter (fun e => String.eqb (fst e) k) es))%list.
Proof.
  induction es as [|[k0 p0] es IH]; intros d k; cbn [fold_left filter fst].
  - now rewrite app_nil_r.
  - rewrite IH. unfold addf. rewrite paths_at_add_path.
    destruct (String.eqb k0 k); cbn [map snd]; [now rewrite <- app_assoc | reflexivity].
Qed.

Lemma fold_contains (es : list (string * string)) :
  forall d k,
    contains (fold_left addf es d) k
    = (contains d k || existsb (fun e => String.eqb (fst e) k) es)%bool.
Proof.
  induction es as [|[k0 p0] es IH]; intros d k; cbn [fold_left existsb fst].
  - now rewrite orb_false_r.
  - rewrite IH. unfold addf. rewrite contains_add_path.
    destruct (String.eqb k0 k), (contains d k); reflexivity.
Qed.

Lemma fold_nodup (es : list (string * string)) :
  forall d, NoDup (keys d) -> NoDup (keys (fold_left addf es d)).
Proof.
  induction es as [|[k0 p0] es IH]; intros d ND; cbn [fold_left]; [assumption|].
  apply IH. now apply nodup_add_path.
Qed.

Lemma index_of_nodup (fs : list (string * file)) : NoDup (keys (index_of fs)).
Proof. apply fold_nodup. constructor. Qed.

Lemma index_of_paths_at (fs : list (string * file)) k :
  paths_at (index_of fs) k
  = map snd (filter (fun e => String.eqb (fst e) k) (fingerprints fs)).
Proof. unfold index_of. fold addf. now rewrite fold_paths_at. Qed.

Lemma index_of_contains (fs : list (string * file)) k :
  contains (index_of fs) k
  = existsb (fun e => String.eqb (fst e) k) (fingerprints fs).
Proof. unfold index_of. fold addf. now rewrite fold_contains. Qed.

Lemma In_fingerprints (fs : list (string * file)) k p :
  In (k, p) (fingerprints fs)
  <-> exists f, In (p, f) fs /\ reads_ok f = true /\ k = Md5.md5_hex (content f).
Proof.
  unfold fingerprints. rewrite in_flat_map. split.
  - intros [[p0 f] [Hin Hk]]. destruct (reads_ok f) eqn:R; [|destruct Hk].
    destruct Hk as [E|[]]. injection E as <- <-. now exists f.
  - intros [f [Hin [R ->]]]. exists (p, f). split; [assumption|].
    rewrite R. now left.
Qed.

(** A path is listed under a digest exactly when a visited file with that
    path could be read and has that digest. *)
Lemma index_of_In (fs : list (string * file)) k p :
  In p (paths_at (index_of fs) k)
  <-> exists f, In (p, f) fs /\ reads_ok f = true /\ k = Md5.md5_hex (content f).
Proof.
  rewrite index_of_paths_at, <- In_fingerprints, in_map_iff. split.
  - intros [[k0 p0] [E Hin]]. cbn [snd] in E. subst p0.
    apply filter_In in Hin. destruct Hin as [Hin Hk]. cbn [fst] in Hk.
    apply String.eqb_eq in Hk. now subst.
  - intros Hin. exists (k, p). split; [reflexivity|].
    apply filter_In. split; [assumption | apply String.eqb_refl].
Qed.

(** A digest that is a key has at least one path. *)
Lemma index_of_nonempty (fs : list (string * file)) k :
  contains (index_of fs) k = true -> paths_at (index_of fs) k <> [].
Proof.
  rewrite index_of_contains, index_of_paths_at, existsb_exists.
  intros [e [Hin Hk]] E.
  assert (Hf : In e (filter (fun e => String.eqb (fst e) k) (fingerprints fs)))
    by (apply filter_In; now split).
  apply (in_map snd) in Hf. rewrite E in Hf. destruct Hf.
Qed.

Lemma contains_paths_at d k :
  contains d k = true -> getitem d k = Some (paths_at d k).
Proof. unfold contains, paths_at. now destruct (getitem d k). Qed.

(** No key of an index is the empty string. *)
Lemma index_of_no_placeholder (fs : list (string * file)) :
  contains (index_of fs) EmptyString = false.
Proof.
  rewrite index_of_contains. apply not_true_is_false. rewrite existsb_exists.
  intros [[k p] [Hin Hk]]. cbn [fst] in Hk. apply String.eqb_eq in Hk. subst k.
  apply In_fingerprints in Hin. destruct Hin as [f [_ [_ E]]].
  pose proof (hexdigest_length (Md5.update Md5.md5_new (content f))) as L.
  unfold Md5.md5_hex in E. rewrite <- E in L. discriminate L.
Qed.

End IndexFacts.

(** ** Loops *)

Lemma opened_app (a b : list event) : opened (a ++ b) = (opened a ++ opened b)%list.
Proof. apply flat_map_app. Qed.

Lemma reported_app (a b : list event) :
  reported (a ++ b) = (reported a ++ reported b)%list.
Proof. apply flat_map_app. Qed.

Section ForEach.
Context {X S : Type}.
Variables (body : X -> S -> M S) (g : X -> S -> S) (op rp : X -> list string).

(** Each turn returns, and opens and reports what [op] and [rp] say. *)
Hypothesis body_spec :
  forall x s tr, exists evs,
    body x s tr = (Returned (g x s), tr ++ evs)%list
    /\ opened evs = op x /\ reported evs = rp x.

Lemma for_each_spec (xs : list X) :
  forall s tr, exists evs,
    for_each xs body s tr
    = (Returned (fold_left (fun s x => g x s) xs s), tr ++ evs)%list
    /\ opened evs = flat_map op xs /\ reported evs = flat_map rp xs.
Proof.
  induction xs as [|x xs IH]; intros s tr; cbn [for_each fold_left flat_map].
  - exists []. unfold ret. now rewrite app_nil_r.
  - destruct (body_spec x s tr) as [e1 [E1 [O1 R1]]].
    destruct (IH (g x s) (tr ++ e1)%list) as [e2 [E2 [O2 R2]]].
    exists (e1 ++ e2)%list. unfold bind. rewrite E1, E2, app_assoc.
    now rewrite opened_app, reported_app, O1, O2, R1, R2.
Qed.

End ForEach.

Section ScanState.
Let addf := fun (d : dict (list string)) (e : string * string) =>
              let '(k, p) := e in add_path d k p.
Let State : Type := (dict (list string) * nat)%type.
Let joined (root : string) := fun '((filename, f) : string * file) =>
                                (join root filename, f).

Variable visit : string -> string * file -> State -> State.

(** A turn of the inner loop adds the file's path under its digest when the
    file can be read, and leaves the index alone when not. *)
Hypothesis visit_index :
  forall root filename f st,
    fst (visit root (filename, f) st)
    = if reads_ok f
      then add_path (fst st) (Md5.md5_hex (content f)) (join root filename)
      else fst st.

Lemma fingerprints_app (a b : list (string * file)) :
  fingerprints (a ++ b) = (fingerprints a ++ fingerprints b)%list.
Proof. apply flat_map_app. Qed.

Lemma inner_index (root : string) (files : list (string * file)) :
  forall st : State,
    fst (fold_left (fun s x => visit root x s) files st)
    = fold_left addf (fingerprints (map (joined root) files)) (fst st).
Proof.
  induction files as [|[filename f] files IH]; intros st; [reflexivity|].
  cbn [fold_left map]. rewrite IH, visit_index.
  unfold fingerprints at 2. cbn [flat_map joined].
  fold (fingerprints (map (joined root) files)).
  destruct (reads_ok f); reflexivity.
Qed.

Lemma outer_index (w : list (string * list string * list (string * file))) :
  forall st : State,
    fst (fold_left
           (fun s (x : string * list string * list (string * file)) =>
              let '(root, dirs, files) := x in
              fold_left (fun s x => visit root x s) files s) w st)
    = fold_left addf
        (fingerprints (flat_map (fun '(root, dirs, files) => map (joined root) files) w))
        (fst st).
Proof.
  induction w as [|[[root dirs] files] w IH]; intros st; [reflexivity|].
  cbn [fold_left flat_map]. rewrite IH, inner_index, fingerprints_app.
  now rewrite fold_left_app.
Qed.

End ScanState.

(** ** One file, one directory, one tree *)

Lemma walk_opened (w : list (string * list string * list (string * file))) :
  flat_map (fun '(root, dirs, files) =>
              flat_map (fun x : string * file => [join root (fst x)]) files) w
  = map fst (flat_map (fun '(root, dirs, files) =>
                         map (fun '(filename, f) => (join root filename, f)) files) w).
Proof.
  induction w as [|[[root dirs] files] w IH]; [reflexivity|].
  cbn [flat_map]. rewrite map_app, IH. f_equal.
  induction files as [|[filename f] files IHf]; [reflexivity|].
  cbn [flat_map map fst app]. now rewrite IHf.
Qed.

Lemma walk_reported (w : list (string * list string * list (string * file))) :
  flat_map (fun '(root, dirs, files) =>
              flat_map (fun x : string * file =>
                          if reads_ok (snd x) then [] else [join root (fst x)])
                       files) w
  = map fst (unreadable
               (flat_map (fun '(root, dirs, files) =>
                            map (fun '(filename, f) => (join root filename, f)) files) w)).
Proof.
  unfold unreadable.
  induction w as [|[[root dirs] files] w IH]; [reflexivity|].
  cbn [flat_map]. rewrite filter_app, map_app, IH. f_equal.
  induction files as [|[filename f] files IHf]; [reflexivity|].
  cbn [flat_map map filter snd fst]. rewrite IHf.
  destruct (reads_ok f); reflexivity.
Qed.

Lemma cr_visit_index (root filename : string) (f : file)
    (st : dict (list string) * nat) :
  fst (cr_visit root (filename, f) st)
  = if reads_ok f
    then add_path (fst st) (Md5.md5_hex (content f)) (join root filename)
    else fst st.
Proof. unfold cr_visit. cbn [fst snd]. now destruct (reads_ok f). Qed.

Lemma fd_visit_index (root filename : string) (f : file)
    (st : dict (list string) * nat) :
  fst (fd_visit root (filename, f) st)
  = if reads_ok f
    then add_path (fst st) (Md5.md5_hex (content f)) (join root filename)
    else fst st.
Proof. reflexivity. Qed.

Lemma cr_scan_file_spec (root : string) (x : string * file)
    (st : dict (list string) * nat) (tr : list event) :
  exists evs,
    CompareResources.scan_file root x st tr
    = (Returned (cr_visit root x st), tr ++ evs)%list
    /\ opened evs = [join root (fst x)]
    /\ reported evs = if reads_ok (snd x) then [] else [join root (fst x)].
Proof.
  destruct x as [filename f], st as [d n].
  unfold CompareResources.scan_file, cr_visit, bind. cbn [fst snd].
  rewrite cr_calculate_md5_spec. destruct (reads_ok f) eqn:R.
  - unfold Md5.md5_hex at 1. rewrite hexdigest_truthy.
    fold (Md5.md5_hex (content f)).
    set (k := Md5.md5_hex (content f)). set (p := join root filename).
    assert (A : forall tr0,
               CompareResources.append_at
                 (if negb (contains d k) then setitem d k [] else d) k p tr0
               = (Returned (add_path d k p), tr0)).
    { intros tr0. unfold CompareResources.append_at, add_path, contains.
      destruct (getitem d k) as [paths|] eqn:E; cbn [negb].
      - now rewrite E.
      - rewrite getitem_setitem, String.eqb_refl. unfold ret.
        now rewrite setitem_setitem. }
    rewrite A.
    destruct (Nat.eqb (S n mod 100) 0).
    + exists [EvOpen p; EvPrint (MsgProcessed (S n))].
      unfold print, emit, ret. rewrite <- app_assoc. now repeat split.
    + exists [EvOpen p]. now repeat split.
  - cbn [truthy String.eqb negb]. unfold ret.
    exists [EvOpen (join root filename); EvPrint (MsgMd5Failed (join root filename))].
    now repeat split.
Qed.

Lemma fd_scan_file_spec (root : string) (x : string * file)
    (st : dict (list string) * nat) (tr : list event) :
  exists evs,
    FindDuplicates.scan_file root x st tr
    = (Returned (fd_visit root x st), tr ++ evs)%list
    /\ opened evs = [join root (fst x)]
    /\ reported evs = if reads_ok (snd x) then [] else [join root (fst x)].
Proof.
  destruct x as [filename f], st as [d n].
  unfold FindDuplicates.scan_file, fd_visit, bind. cbn [fst snd].
  set (p := join root filename).
  assert (A : forall tr0, exists evs,
             FindDuplicates.calculate_md5 p f tr0
             = ((if reads_ok f
                 then Returned (Some (Md5.md5_hex (content f)))
                 else Returned None), tr0 ++ evs)%list
             /\ opened evs = [p]
             /\ reported evs = if reads_ok f then [] else [p]).
  { intros tr0. rewrite fd_calculate_md5_spec. destruct (reads_ok f).
    - exists [EvOpen p]. now repeat split.
    - exists [EvOpen p; EvPrint (MsgUnreadable p)]. now repeat split. }
  assert (B : forall k, FindDuplicates.append_at d k p = add_path d k p).
  { intros k. unfold FindDuplicates.append_at, add_path.
    destruct (getitem d k); [reflexivity|]. now rewrite setitem_setitem. }
  destruct (Nat.eqb (S n mod 100) 0).
  - unfold print, emit.
    destruct (A (tr ++ [EvPrint (MsgScanned (S n))])%list) as [evs [E [O R]]].
    rewrite E. exists (EvPrint (MsgScanned (S n)) :: evs).
    change (EvPrint (MsgScanned (S n)) :: evs)
      with ([EvPrint (MsgScanned (S n))] ++ evs)%list.
    rewrite app_assoc, opened_app, reported_app, O, R.
    destruct (reads_ok f); cbn [truthy_opt]; unfold ret.
    + unfold Md5.md5_hex at 1. rewrite hexdigest_truthy, B. now repeat split.
    + now repeat split.
  - unfold ret at 1.
    destruct (A tr) as [evs [E [O R]]]. rewrite E. exists evs.
    destruct (reads_ok f); cbn [truthy_opt]; unfold ret.
    + unfold Md5.md5_hex at 1. rewrite hexdigest_truthy, B. now repeat split.
    + now repeat split.
Qed.

(** [scan_directory] returns the index of the files it walks, tries to open
    each of them in turn and reports those that cannot be read. *)
Lemma cr_scan_directory_spec (h : host) (directory : string) (tr : list event) :
  exists evs,
    CompareResources.scan_directory h directory tr
    = (Returned (index_of (walk_files h (abspath h directory))), tr ++ evs)%list
    /\ opened evs = map fst (walk_files h (abspath h directory))
    /\ reported evs = map fst (unreadable (walk_files h (abspath h directory))).
Proof.
  unfold CompareResources.scan_directory, bind, print, emit.
  set (w := os_walk h (abspath h directory)).
  set (body := fun '((root, dirs, files)
                        : string * list string * list (string * file))
                     (st : dict (list string) * nat) =>
                 for_each files (CompareResources.scan_file root) st).
  destruct (for_each_spec body
              (fun x st => let '(root, dirs, files) := x in
                           fold_left (fun s x => cr_visit root x s) files st)
              (fun x => let '(root, dirs, files) := x in
                        flat_map (fun x : string * file => [join root (fst x)]) files)
              (fun x => let '(root, dirs, files) := x in
                        flat_map (fun x : string * file =>
                                    if reads_ok (snd x) then []
                                    else [join root (fst x)]) files))
    with (xs := w) (s := (@nil (string * list string), 0%nat))
         (tr := (tr ++ [EvPrint (MsgScanning (abspath h directory))])%list)
    as [evs [E [Ho Hr]]].
  { intros [[root dirs] files] s tr0. unfold body.
    apply for_each_spec. intros x s0 tr1. apply cr_scan_file_spec. }
  rewrite E.
  pose proof (outer_index cr_visit cr_visit_index w ([], 0%nat)) as OI.
  match type of OI with
  | fst ?st = _ => destruct st as [d n] eqn:F
  end.
  cbn [fst] in OI.
  unfold ret.
  exists ([EvPrint (MsgScanning (abspath h directory))] ++ evs
          ++ [EvPrint (MsgScanDone n (List.length d))])%list.
  repeat split.
  - rewrite OI, !app_assoc. reflexivity.
  - rewrite !opened_app, Ho. cbn [opened flat_map app]. rewrite app_nil_r.
    apply walk_opened.
  - rewrite !reported_app, Hr. cbn [reported flat_map app]. rewrite app_nil_r.
    apply walk_reported.
Qed.

Lemma fd_scan_spec (h : host) (directory : string) (tr : list event) :
  exists evs,
    FindDuplicates.scan h directory tr
    = (Returned (index_of (walk_files h directory)), tr ++ evs)%list
    /\ opened evs = map fst (walk_files h directory)
    /\ reported evs = map fst (unreadable (walk_files h directory)).
Proof.
  unfold FindDuplicates.scan, bind, print, emit.
  set (w := os_walk h directory).
  set (body := fun '((root, dirs, files)
                        : string * list string * list (string * file))
                     (st : dict (list string) * nat) =>
                 for_each files (FindDuplicates.scan_file root) st).
  destruct (for_each_spec body
              (fun x st => let '(root, dirs, files) := x in
                           fold_left (fun s x => fd_visit root x s) files st)
              (fun x => let '(root, dirs, files) := x in
                        flat_map (fun x : string * file => [join root (fst x)]) files)
              (fun x => let '(root, dirs, files) := x in
                        flat_map (fun x : string * file =>
                                    if reads_ok (snd x) then []
                                    else [join root (fst x)]) files))
    with (xs := w) (s := (@nil (string * list string), 0%nat))
         (tr := (tr ++ [EvPrint (MsgScanning directory)])%list)
    as [evs [E [Ho Hr]]].
  { intros [[root dirs] files] s tr0. unfold body.
    apply for_each_spec. intros x s0 tr1. apply fd_scan_file_spec. }
  rewrite E.
  pose proof (outer_index fd_visit fd_visit_index w ([], 0%nat)) as OI.
  match type of OI with
  | fst ?st = _ => destruct st as [d n] eqn:F
  end.
  cbn [fst] in OI.
  unfold ret.
  exists ([EvPrint (MsgScanning directory)] ++ evs
          ++ [EvPrint (MsgScanComplete n)])%list.
  repeat split.
  - rewrite OI, !app_assoc. reflexivity.
  - rewrite !opened_app, Ho. cbn [opened flat_map app]. rewrite app_nil_r.
    apply walk_opened.
  - rewrite !reported_app, Hr. cbn [reported flat_map app]. rewrite app_nil_r.
    apply walk_reported.
Qed.

(** ** Order on strings, [sorted], sets *)

Lemma ascii_compare_refl (a : ascii) : Ascii.compare a a = Eq.
Proof. apply N.compare_refl. Qed.

Lemma string_compare_refl (s : string) : String.compare s s = Eq.
Proof.
  induction s as [|a s IH]; [reflexivity|].
  cbn [String.compare]. now rewrite ascii_compare_refl.
Qed.

Lemma string_lt_trans (s1 : string) :
  forall s2 s3,
    String.compare s1 s2 = Lt -> String.compare s2 s3 = Lt ->
    String.compare s1 s3 = Lt.
Proof.
  induction s1 as [|a1 s1 IH]; intros [|a2 s2] [|a3 s3];
    cbn [String.compare]; try discriminate; try reflexivity.
  destruct (Ascii.compare a1 a2) eqn:E12; try discriminate;
    destruct (Ascii.compare a2 a3) eqn:E23; try discriminate; intros H12 H23.
  - apply Ascii.compare_eq_iff in E12, E23. subst.
    rewrite ascii_compare_refl. now apply IH with s2.
  - apply Ascii.compare_eq_iff in E12. subst. now rewrite E23.
  - apply Ascii.compare_eq_iff in E23. subst. now rewrite E12.
  - unfold Ascii.compare in *. rewrite N.compare_lt_iff in *.
    assert (L : (N_of_ascii a1 < N_of_ascii a3)%N) by lia.
    apply N.compare_lt_iff in L. now rewrite L.
Qed.

Lemma string_leb_trans (s1 s2 s3 : string) :
  String.leb s1 s2 = true -> String.leb s2 s3 = true -> String.leb s1 s3 = true.
Proof.
  unfold String.leb.
  destruct (String.compare s1 s2) eqn:E12; try discriminate;
    destruct (String.compare s2 s3) eqn:E23; try discriminate; intros _ _.
  - apply String.compare_eq_iff in E12, E23. subst.
    now rewrite string_compare_refl.
  - apply String.compare_eq_iff in E12. subst. now rewrite E23.
  - apply String.compare_eq_iff in E23. subst. now rewrite E12.
  - now rewrite (string_lt_trans _ _ _ E12 E23).
Qed.

Lemma string_leb_gt (x y : string) : String.leb x y = false -> String.leb y x = true.
Proof. destruct (String.leb_total x y); congruence. Qed.

Lemma insert_perm (x : string) (l : list string) : Permutation (insert x l) (x :: l).
Proof.
  induction l as [|y l IH]; cbn [insert]; [reflexivity|].
  destruct (String.leb x y); [reflexivity|].
  rewrite IH. apply perm_swap.
Qed.

Lemma sorted_perm (l : list string) : Permutation (sorted l) l.
Proof.
  induction l as [|x l IH]; [reflexivity|].
  unfold sorted in *. cbn [fold_right]. rewrite insert_perm. now constructor.
Qed.

Lemma insert_sorted (x : string) (l : list string) :
  StronglySorted le_str l -> StronglySorted le_str (insert x l).
Proof.
  induction 1 as [|y l Hs IH Hall]; cbn [insert].
  - repeat constructor.
  - destruct (String.leb x y) eqn:E.
    + constructor; [now constructor|]. constructor; [exact E|].
      eapply Forall_impl; [|exact Hall]. intros z Hz.
      now apply string_leb_trans with y.
    + constructor; [assumption|].
      eapply Permutation_Forall; [symmetry; apply insert_perm|].
      constructor; [now apply string_leb_gt | assumption].
Qed.

Lemma sorted_sorted (l : list string) : StronglySorted le_str (sorted l).
Proof.
  induction l as [|x l IH]; [constructor|].
  unfold sorted in *. cbn [fold_right]. now apply insert_sorted.
Qed.

(** Two ascending arrangements of the same strings are the same list. *)
Lemma sorted_unique (l1 : list string) :
  forall l2,
    Permutation l1 l2 -> StronglySorted le_str l1 -> StronglySorted le_str l2 ->
    l1 = l2.
Proof.
  induction l1 as [|x l1 IH]; intros l2 P S1 S2.
  - apply Permutation_nil in P. now subst.
  - destruct l2 as [|y l2]; [symmetry in P; now apply Permutation_nil in P|].
    inversion S1 as [|? ? S1' A1]; inversion S2 as [|? ? S2' A2]; subst.
    assert (E : x = y).
    { assert (Hy : In y (x :: l1))
        by (apply (Permutation_in y (Permutation_sym P)); now left).
      assert (Hx : In x (y :: l2)) by (apply (Permutation_in x P); now left).
      rewrite Forall_forall in A1, A2.
      destruct Hy as [Hy|Hy]; [assumption|].
      destruct Hx as [Hx|Hx]; [now symmetry|].
      apply String.leb_antisym; [now apply A1 | now apply A2]. }
    subst y. f_equal. apply IH; auto. now apply Permutation_cons_inv with x.
Qed.

(** [sorted] does not depend on the order in which it is given the strings. *)
Lemma sorted_order_free (l1 l2 : list string) :
  Permutation l1 l2 -> sorted l1 = sorted l2.
Proof.
  intros P. apply sorted_unique; try apply sorted_sorted.
  rewrite !sorted_perm. exact P.
Qed.

Lemma ascending_spec (l : list string) :
  StronglySorted le_str l -> NoDup l -> ascending l = true.
Proof.
  induction 1 as [|x l Hs IH Hall]; intros ND; [reflexivity|].
  inversion ND as [|? ? Hnot ND']; subst.
  cbn [ascending]. destruct l as [|y l]; [reflexivity|].
  rewrite IH by assumption. rewrite andb_true_r.
  inversion Hall as [|? ? Hxy _]; subst. unfold le_str, String.leb in Hxy.
  unfold String.ltb. destruct (String.compare x y) eqn:E; try discriminate.
  - apply String.compare_eq_iff in E. subst. exfalso. apply Hnot. now left.
  - reflexivity.
Qed.

Lemma set_of_In (xs : list string) (x : string) : In x (set_of xs) <-> In x xs.
Proof.
  induction xs as [|y xs IH]; cbn [set_of]; [reflexivity|].
  destruct (mem y xs) eqn:E; cbn [In]; rewrite IH; [|reflexivity].
  apply mem_In in E. split; [tauto|]. intros [<-|H]; assumption.
Qed.

Lemma set_of_nodup (xs : list string) : NoDup (set_of xs).
Proof.
  induction xs as [|y xs IH]; cbn [set_of]; [constructor|].
  destruct (mem y xs) eqn:E; [assumption|].
  constructor; [|assumption]. rewrite set_of_In, <- mem_In. congruence.
Qed.

Lemma set_and_In (s1 s2 : list string) (x : string) :
  In x (set_and s1 s2) <-> In x s1 /\ In x s2.
Proof. unfold set_and. now rewrite filter_In, mem_In. Qed.

Lemma set_and_nodup (s1 s2 : list string) : NoDup s1 -> NoDup (set_and s1 s2).
Proof. apply NoDup_filter. Qed.

(** ** Cross-tree matching *)

Lemma bind_print {A : Type} (m : message) (k : unit -> M A) (tr : list event) :
  bind (print m) k tr = k tt (tr ++ [EvPrint m])%list.
Proof. reflexivity. Qed.

Lemma bind_returned {A B : Type} (c : M A) (k : A -> M B) (a : A)
    (tr tr' : list event) :
  c tr = (Returned a, tr') -> bind c k tr = k a tr'.
Proof. unfold bind. now intros ->. Qed.

Lemma common_digests_In (A B : dict (list string)) (k : string) :
  In k (common_digests A B) <-> contains A k = true /\ contains B k = true.
Proof.
  unfold common_digests. rewrite set_and_In, !set_of_In, !contains_keys.
  now rewrite !mem_In.
Qed.

Lemma common_digests_nodup (A B : dict (list string)) : NoDup (common_digests A B).
Proof. apply set_and_nodup, set_of_nodup. Qed.

Lemma match_loop (A B : dict (list string)) (ks : list string) :
  forall (results : list CompareResources.group) (tr : list event),
    (forall k, In k ks -> contains A k = true /\ contains B k = true) ->
    for_each ks
      (fun md5_value results =>
         files1 <- CompareResources.lookup A md5_value ;;
         files2 <- CompareResources.lookup B md5_value ;;
         ret (results ++ [(md5_value, files1, files2)])%list)
      results tr
    = (Returned (results ++ map (fun k => (k, paths_at A k, paths_at B k)) ks)%list,
       tr).
Proof.
  induction ks as [|k ks IH]; intros results tr Hks; cbn [for_each map].
  - unfold ret. now rewrite app_nil_r.
  - destruct (Hks k (or_introl eq_refl)) as [HA HB].
    unfold bind at 1. unfold bind at 1. unfold CompareResources.lookup at 1.
    rewrite (contains_paths_at A k HA). unfold ret at 1.
    unfold bind at 1. unfold CompareResources.lookup at 1.
    rewrite (contains_paths_at B k HB). unfold ret at 1. unfold ret at 1.
    rewrite IH by (intros k' Hk'; apply Hks; now right).
    now rewrite <- app_assoc.
Qed.

Lemma match_across_spec (A B : dict (list string)) (tr : list event) :
  CompareResources.match_across A B tr
  = (Returned (groups_across A B),
     tr ++ [EvPrint (MsgCommon (List.length (common_digests A B)))])%list.
Proof.
  unfold CompareResources.match_across. rewrite bind_print.
  fold (common_digests A B). rewrite match_loop; [reflexivity|].
  intros k Hk. apply common_digests_In.
  now apply (Permutation_in k (sorted_perm (common_digests A B))).
Qed.

Lemma groups_across_digests (A B : dict (list string)) :
  map digest_of (groups_across A B) = sorted (common_digests A B).
Proof.
  unfold groups_across. rewrite map_map. cbn [digest_of fst]. apply map_id.
Qed.

Lemma groups_across_exact (A B : dict (list string)) :
  pairs_exactly A B (groups_across A B).
Proof.
  unfold pairs_exactly. rewrite groups_across_digests.
  assert (S : forall d, In d (sorted (common_digests A B))
                        <-> contains A d = true /\ contains B d = true).
  { intros d. rewrite <- common_digests_In. split; apply Permutation_in.
    - apply sorted_perm.
    - symmetry. apply sorted_perm. }
  split; [exact S|]. split.
  - intros d files1 files2 H. unfold groups_across in H.
    apply in_map_iff in H. destruct H as [k [E Hk]]. injection E as -> <- <-.
    apply S in Hk. destruct Hk. split; now apply contains_paths_at.
  - apply (Permutation_NoDup (Permutation_sym (sorted_perm _))).
    apply common_digests_nodup.
Qed.

Lemma compare_directories_spec (h : host) (dir1 dir2 : string) (tr : list event) :
  exists evs,
    CompareResources.compare_directories h dir1 dir2 tr
    = (Returned (groups_across (index_of (walk_files h (abspath h dir1)))
                               (index_of (walk_files h (abspath h dir2)))),
       tr ++ evs)%list
    /\ opened evs = (map fst (walk_files h (abspath h dir1))
                     ++ map fst (walk_files h (abspath h dir2)))%list
    /\ reported evs = (map fst (unreadable (walk_files h (abspath h dir1)))
                       ++ map fst (unreadable (walk_files h (abspath h dir2))))%list.
Proof.
  unfold CompareResources.compare_directories. rewrite !bind_print.
  destruct (cr_scan_directory_spec h dir1
              (((tr ++ [EvPrint MsgRule]) ++ [EvPrint MsgStartScan])
               ++ [EvPrint MsgRule])%list) as [e1 [E1 [O1 R1]]].
  rewrite (bind_returned _ _ _ _ _ E1).
  match goal with
  | |- context [bind (CompareResources.scan_directory h dir2) _ ?t] =>
      destruct (cr_scan_directory_spec h dir2 t) as [e2 [E2 [O2 R2]]]
  end.
  rewrite (bind_returned _ _ _ _ _ E2), match_across_spec.
  eexists ([EvPrint MsgRule; EvPrint MsgStartScan; EvPrint MsgRule]
           ++ e1 ++ e2 ++ [EvPrint (MsgCommon _)])%list.
  repeat split.
  - f_equal. rewrite <- !app_assoc. reflexivity.
  - rewrite !opened_app, O1, O2. cbn [opened flat_map app]. now rewrite app_nil_r.
  - rewrite !reported_app, R1, R2. cbn [reported flat_map app]. now rewrite app_nil_r.
Qed.

(** C1. For the two indexes that the scans of [compare_directories] build,
    and for any two indexes handed to its grouping step, a digest has a group
    in the result exactly when it is a key of both indexes; the group of a
    digest carries the first index's list as its first side and the second
    index's list as its second side; and no digest has two groups.  A digest
    that is a key of one index only has no group. *)
Theorem matching_correctness :
  (forall (A B : dict (list string)) (tr : list event),
      exists results,
        fst (CompareResources.match_across A B tr) = Returned results
        /\ pairs_exactly A B results)
  /\ (forall (h : host) (dir1 dir2 : string),
         exists A B results,
           fst (run (CompareResources.scan_directory h dir1)) = Returned A
           /\ fst (run (CompareResources.scan_directory h dir2)) = Returned B
           /\ fst (run (CompareResources.compare_directories h dir1 dir2))
              = Returned results
           /\ pairs_exactly A B results).
Proof.
  split.
  - intros A B tr. exists (groups_across A B). rewrite match_across_spec.
    split; [reflexivity | apply groups_across_exact].
  - intros h dir1 dir2. unfold run.
    destruct (cr_scan_directory_spec h dir1 []) as [e1 [E1 _]].
    destruct (cr_scan_directory_spec h dir2 []) as [e2 [E2 _]].
    destruct (compare_directories_spec h dir1 dir2 []) as [e3 [E3 _]].
    rewrite E1, E2, E3. do 3 eexists.
    split; [reflexivity|]. split; [reflexivity|]. split; [reflexivity|].
    apply groups_across_exact.
Qed.

(** ** Scanning past unreadable files *)

Lemma index_of_scanned (fs : list (string * file)) (evs : list event) :
  opened evs = map fst fs ->
  reported evs = map fst (unreadable fs) ->
  scanned_exactly fs (index_of fs) evs.
Proof.
  intros Ho Hr. unfold scanned_exactly.
  split; [intros d p; apply index_of_In|].
  split; [apply index_of_no_placeholder|].
  split; [apply index_of_nonempty|].
  now split.
Qed.

(** C3. A scan returns (it never exits or raises), whatever files cannot be
    read.  The index it returns lists a path under a digest exactly when a
    file of the walk with that path could be read and has that digest, so a
    file that cannot be read is under no digest; no key is the empty string,
    and no key has an empty list of paths.  Every file of the walk is opened,
    in walk order, also those after an unreadable one, and the unreadable
    files are exactly the ones reported.  This holds for [scan_directory] of
    the cross-tree scripts and for the scanning loop of the duplicate
    finders. *)
Theorem partial_failure_tolerance (h : host) (directory : string) :
  (exists idx evs,
      run (CompareResources.scan_directory h directory) = (Returned idx, evs)
      /\ scanned_exactly (walk_files h (abspath h directory)) idx evs)
  /\ (exists idx evs,
         run (FindDuplicates.scan h directory) = (Returned idx, evs)
         /\ scanned_exactly (walk_files h directory) idx evs).
Proof.
  unfold run. split.
  - destruct (cr_scan_directory_spec h directory []) as [evs [E [Ho Hr]]].
    exists (index_of (walk_files h (abspath h directory))), evs.
    split; [exact E | now apply index_of_scanned].
  - destruct (fd_scan_spec h directory []) as [evs [E [Ho Hr]]].
    exists (index_of (walk_files h directory)), evs.
    split; [exact E | now apply index_of_scanned].
Qed.

(** ** The fingerprint of a file *)

(** C10. A hex digest has 32 characters, all of them hexadecimal digits, so
    it is a true value; the value [calculate_md5] returns for a file that
    cannot be read is the empty string (cross-tree scripts) or [None]
    (duplicate finders), a false value.  Hence the guard [if md5_value] is
    true exactly for the files that could be read, and a turn of the scanning
    loop adds the path of a file to the index exactly when the file could be
    read. *)
Theorem sentinel_disjoint_from_digests :
  (forall ctx : Md5.md5_ctx,
      String.length (Md5.hexdigest ctx) = 32%nat
      /\ all_hex (Md5.hexdigest ctx) = true
      /\ truthy (Md5.hexdigest ctx) = true
      /\ truthy_opt (Some (Md5.hexdigest ctx)) = true)
  /\ truthy EmptyString = false
  /\ truthy_opt None = false
  /\ (forall (file_path : string) (f : file) (tr : list event),
         exists md5_value,
           fst (CompareResources.calculate_md5 file_path f tr) = Returned md5_value
           /\ truthy md5_value = reads_ok f
           /\ md5_value = if reads_ok f then Md5.md5_hex (content f)
                          else EmptyString)
  /\ (forall (file_path : string) (f : file) (tr : list event),
         exists md5_value,
           fst (FindDuplicates.calculate_md5 file_path f tr) = Returned md5_value
           /\ truthy_opt md5_value = reads_ok f
           /\ md5_value = if reads_ok f then Some (Md5.md5_hex (content f))
                          else None)
  /\ (forall root filename f md5_dict file_count tr,
         exists file_count',
           fst (CompareResources.scan_file root (filename, f)
                  (md5_dict, file_count) tr)
           = Returned
               (if reads_ok f
                then add_path md5_dict (Md5.md5_hex (content f)) (join root filename)
                else md5_dict, file_count'))
  /\ (forall root filename f md5_dict file_count tr,
         exists file_count',
           fst (FindDuplicates.scan_file root (filename, f)
                  (md5_dict, file_count) tr)
           = Returned
               (if reads_ok f
                then add_path md5_dict (Md5.md5_hex (content f)) (join root filename)
                else md5_dict, file_count')).
Proof.
  split; [|split; [reflexivity|split; [reflexivity|split; [|split; [|split]]]]].
  - intros ctx. split; [apply hexdigest_length|].
    split; [apply hex_of_bytes_all_hex|].
    split; [apply hexdigest_truthy|]. cbn [truthy_opt]. apply hexdigest_truthy.
  - intros file_path f tr. rewrite cr_calculate_md5_spec.
    destruct (reads_ok f); eexists; (split; [reflexivity|]);
      (split; [|reflexivity]); [apply hexdigest_truthy | reflexivity].
  - intros file_path f tr. rewrite fd_calculate_md5_spec.
    destruct (reads_ok f); eexists; (split; [reflexivity|]);
      (split; [|reflexivity]); [apply hexdigest_truthy | reflexivity].
  - intros root filename f md5_dict file_count tr.
    destruct (cr_scan_file_spec root (filename, f) (md5_dict, file_count) tr)
      as [evs [E _]].
    rewrite E. unfold cr_visit. cbn [fst snd].
    destruct (reads_ok f); eexists; reflexivity.
  - intros root filename f md5_dict file_count tr.
    destruct (fd_scan_file_spec root (filename, f) (md5_dict, file_count) tr)
      as [evs [E _]].
    rewrite E. unfold fd_visit. cbn [fst snd]. eexists. reflexivity.
Qed.

(** C5. Two files that can be read and have the same bytes get the same
    digest from [calculate_md5], whatever their paths, modification times
    and modes and whatever ran before; the digest is [md5_hex] of the
    content. *)
Theorem digest_of_content_alone
    (p1 p2 : string) (f1 f2 : file) (tr1 tr2 : list event) :
  reads_ok f1 = true -> reads_ok f2 = true -> content f1 = content f2 ->
  fst (CompareResources.calculate_md5 p1 f1 tr1)
  = fst (CompareResources.calculate_md5 p2 f2 tr2)
  /\ fst (FindDuplicates.calculate_md5 p1 f1 tr1)
     = fst (FindDuplicates.calculate_md5 p2 f2 tr2)
  /\ fst (CompareResources.calculate_md5 p1 f1 tr1)
     = Returned (Md5.md5_hex (content f1))
  /\ fst (FindDuplicates.calculate_md5 p1 f1 tr1)
     = Returned (Some (Md5.md5_hex (content f1))).
Proof.
  intros R1 R2 E. rewrite !cr_calculate_md5_spec, !fd_calculate_md5_spec.
  rewrite R1, R2, E. cbn [fst]. now repeat split.
Qed.

Lemma chunks_bounded (size : nat) (Hsize : (0 < size)%nat) (fuel : nat)
    (data : Md5.bytes) :
  Forall (fun c => (0 < List.length c <= size)%nat) (chunks fuel size data).
Proof.
  apply Forall_forall. intros c Hc. apply in_split in Hc.
  destruct Hc as [cs1 [cs2 E]].
  now destruct (chunks_sizes size Hsize fuel data cs1 c cs2 E).
Qed.

(** C6. For a file that can be read, the chunks that the loop feeds to the
    hash (4096 bytes each, the last one possibly shorter, none empty) make up
    the content, and feeding them one by one gives the digest of the whole
    content hashed in one step; the same holds for any other way of cutting
    bytes into pieces. *)
Theorem chunked_hash_is_whole_hash (f : file) :
  reads_ok f = true ->
  let cs := chunks (List.length (content f)) 4096 (content f) in
  List.concat cs = content f
  /\ Forall (fun c => (0 < List.length c <= 4096)%nat) cs
  /\ (forall cs1 c cs2,
         cs = (cs1 ++ c :: cs2)%list -> cs2 <> [] -> List.length c = 4096%nat)
  /\ hash_file f Md5.md5_new = Some (fold_left Md5.update cs Md5.md5_new)
  /\ Md5.hexdigest (fold_left Md5.update cs Md5.md5_new)
     = Md5.md5_hex (content f)
  /\ (forall pieces : list Md5.bytes,
         Md5.hexdigest (fold_left Md5.update pieces Md5.md5_new)
         = Md5.md5_hex (List.concat pieces))
  /\ (forall file_path tr,
         fst (CompareResources.calculate_md5 file_path f tr)
         = Returned (Md5.md5_hex (content f)))
  /\ (forall file_path tr,
         fst (FindDuplicates.calculate_md5 file_path f tr)
         = Returned (Some (Md5.md5_hex (content f)))).
Proof.
  intros R cs.
  assert (C : List.concat cs = content f) by (apply chunks_concat; lia).
  split; [exact C|].
  split; [apply chunks_bounded; lia|].
  split.
  { intros cs1 c cs2 Ecs Hne.
    assert (P : (0 < 4096)%nat) by lia.
    now apply (chunks_sizes 4096 P _ _ cs1 c cs2 Ecs). }
  split; [now rewrite hash_file_spec, R|].
  split; [now rewrite hexdigest_pieces, C|].
  split; [apply hexdigest_pieces|].
  split; intros file_path tr.
  - now rewrite cr_calculate_md5_spec, R.
  - now rewrite fd_calculate_md5_spec, R.
Qed.

(** ** Duplicates within one tree *)

Lemma isdir_exists (h : host) (directory : string) :
  isdir h directory = true -> exists_ h directory = true.
Proof.
  unfold isdir, exists_. now destruct (resolve (nodes h) directory) as [[|]|].
Qed.

Lemma find_duplicate_files_valid (h : host) (directory : string) (tr : list event) :
  isdir h directory = true ->
  exists evs,
    FindDuplicates.find_duplicate_files h directory tr
    = (Returned (FindDuplicates.duplicates (index_of (walk_files h directory))),
       tr ++ evs)%list
    /\ opened evs = map fst (walk_files h directory)
    /\ reported evs = map fst (unreadable (walk_files h directory)).
Proof.
  intros D. unfold FindDuplicates.find_duplicate_files.
  rewrite (isdir_exists h directory D), D. cbn [negb].
  destruct (fd_scan_spec h directory tr) as [evs [E [Ho Hr]]].
  exists evs. unfold bind at 1, ret at 1. unfold bind at 1, ret at 1.
  now rewrite (bind_returned _ _ _ _ _ E).
Qed.

Lemma find_duplicate_files_invalid (h : host) (directory : string)
    (tr : list event) :
  isdir h directory = false ->
  FindDuplicates.find_duplicate_files h directory tr
  = (Exited 1,
     tr ++ [EvPrint (if exists_ h directory
                     then MsgNotDir directory else MsgNotExist directory)])%list.
Proof.
  intros D. unfold FindDuplicates.find_duplicate_files.
  rewrite D. now destruct (exists_ h directory).
Qed.

Lemma getitem_absent {V : Type} (d : dict V) (k : string) :
  ~ In k (keys d) -> getitem d k = None.
Proof.
  intros Hk. pose proof (contains_keys d k) as C. unfold contains in C.
  destruct (getitem d k); [|reflexivity].
  symmetry in C. apply mem_In in C. contradiction.
Qed.

(** The comprehension keeps the entries with more than one path. *)
Lemma duplicates_getitem (d : dict (list string)) (k : string) :
  NoDup (keys d) ->
  getitem (FindDuplicates.duplicates d) k
  = match getitem d k with
    | Some paths => if (1 <? List.length paths)%nat then Some paths else None
    | None => None
    end.
Proof.
  unfold FindDuplicates.duplicates.
  induction d as [|[k0 v0] d IH]; intros ND; [reflexivity|].
  inversion ND as [|? ? Hnot ND']; subst. cbn [filter getitem].
  destruct (String.eqb_spec k0 k) as [->|Hk].
  - destruct (1 <? List.length v0)%nat; cbn [getitem].
    + now rewrite String.eqb_refl.
    + rewrite IH by assumption. now rewrite (getitem_absent d k Hnot).
  - destruct (1 <? List.length v0)%nat; cbn [getitem].
    + destruct (String.eqb_spec k0 k); [contradiction | now apply IH].
    + now apply IH.
Qed.

Lemma two_distinct_long (l : list string) (p1 p2 : string) :
  In p1 l -> In p2 l -> p1 <> p2 -> (1 < List.length l)%nat.
Proof.
  destruct l as [|a [|b l]]; cbn [In List.length]; intros H1 H2 N;
    [destruct H1 | | lia].
  destruct H1 as [E1|[]], H2 as [E2|[]]. congruence.
Qed.

Lemma long_two_distinct (l : list string) :
  NoDup l -> (1 < List.length l)%nat ->
  exists p1 p2, p1 <> p2 /\ In p1 l /\ In p2 l.
Proof.
  destruct l as [|a [|b l]]; cbn [List.length]; intros ND L; try lia.
  exists a, b. inversion ND as [|? ? Hnot _]; subst.
  split; [|split; [now left | right; now left]].
  intros ->. apply Hnot. now left.
Qed.

(** ** Empty files *)

(** C9. A file of zero bytes that can be read is hashed without a single
    update and gets the MD5 digest of the empty byte string.  It is listed in
    the index under that digest, so two such files of two trees are in one
    cross-tree group, and two such files of one tree are in one duplicate
    group. *)
Theorem empty_file_fingerprint (f : file) :
  content f = [] -> reads_ok f = true ->
  chunks (List.length (content f)) 4096 (content f) = []
  /\ hash_file f Md5.md5_new = Some Md5.md5_new
  /\ Md5.md5_hex [] = md5_of_nothing
  /\ (forall file_path tr,
         fst (CompareResources.calculate_md5 file_path f tr)
         = Returned md5_of_nothing)
  /\ (forall file_path tr,
         fst (FindDuplicates.calculate_md5 file_path f tr)
         = Returned (Some md5_of_nothing))
  /\ (forall fs p, In (p, f) fs -> In p (paths_at (index_of fs) md5_of_nothing))
  /\ (forall h dir1 dir2 p1 p2 f2,
         In (p1, f) (walk_files h (abspath h dir1)) ->
         In (p2, f2) (walk_files h (abspath h dir2)) ->
         content f2 = [] -> reads_ok f2 = true ->
         exists results files1 files2,
           fst (run (CompareResources.compare_directories h dir1 dir2))
           = Returned results
           /\ In (md5_of_nothing, files1, files2) results
           /\ In p1 files1 /\ In p2 files2)
  /\ (forall h directory p1 p2 f2,
         isdir h directory = true ->
         In (p1, f) (walk_files h directory) ->
         In (p2, f2) (walk_files h directory) ->
         content f2 = [] -> reads_ok f2 = true -> p1 <> p2 ->
         exists dups paths,
           fst (run (FindDuplicates.find_duplicate_files h directory))
           = Returned dups
           /\ getitem dups md5_of_nothing = Some paths
           /\ In p1 paths /\ In p2 paths).
Proof.
  intros E R.
  assert (V : Md5.md5_hex [] = md5_of_nothing) by (vm_compute; reflexivity).
  assert (I : forall fs p (g : file),
             content g = [] -> reads_ok g = true -> In (p, g) fs ->
             In p (paths_at (index_of fs) md5_of_nothing)).
  { intros fs p g Eg Rg Hin. apply index_of_In. exists g.
    split; [assumption|]. split; [assumption|]. now rewrite Eg, V. }
  split; [now rewrite E|].
  split; [rewrite hash_file_spec, R, E; reflexivity|].
  split; [exact V|].
  split; [intros file_path tr; now rewrite cr_calculate_md5_spec, R, E, V|].
  split; [intros file_path tr; now rewrite fd_calculate_md5_spec, R, E, V|].
  split; [intros fs p; now apply I|].
  split.
  - intros h dir1 dir2 p1 p2 f2 H1 H2 E2 R2. unfold run.
    destruct (compare_directories_spec h dir1 dir2 []) as [evs [Ec _]].
    rewrite Ec. cbn [fst].
    set (A := index_of (walk_files h (abspath h dir1))).
    set (B := index_of (walk_files h (abspath h dir2))).
    pose proof (I _ _ _ E R H1) as IA. pose proof (I _ _ _ E2 R2 H2) as IB.
    fold A in IA. fold B in IB.
    exists (groups_across A B), (paths_at A md5_of_nothing),
      (paths_at B md5_of_nothing).
    split; [reflexivity|]. split; [|now split].
    unfold groups_across. apply in_map_iff. exists md5_of_nothing.
    split; [reflexivity|].
    apply (Permutation_in _ (Permutation_sym (sorted_perm _))).
    apply common_digests_In. unfold contains, paths_at in *.
    destruct (getitem A md5_of_nothing); [|destruct IA].
    destruct (getitem B md5_of_nothing); [|destruct IB]. now split.
  - intros h directory p1 p2 f2 D H1 H2 E2 R2 N. unfold run.
    destruct (find_duplicate_files_valid h directory [] D) as [evs [Ef _]].
    rewrite Ef. cbn [fst].
    set (A := index_of (walk_files h directory)).
    pose proof (I _ _ _ E R H1) as I1. pose proof (I _ _ _ E2 R2 H2) as I2.
    fold A in I1, I2.
    exists (FindDuplicates.duplicates A), (paths_at A md5_of_nothing).
    split; [reflexivity|]. split; [|now split].
    rewrite duplicates_getitem by apply index_of_nodup.
    pose proof (two_distinct_long _ _ _ I1 I2 N) as L.
    unfold paths_at in *. destruct (getitem A md5_of_nothing); [|destruct I1].
    apply Nat.ltb_lt in L. now rewrite L.
Qed.

(** ** The shape of a group *)

(** C8. Every group of a cross-tree report has a non-empty list of paths on
    each side.  Every entry of a duplicate report (a digest with its one list
    of paths; there is no second side) has more than one path; the only other
    way [find_duplicate_files] ends is the exit on a root that is not a
    directory. *)
Theorem group_shapes (h : host) :
  (forall dir1 dir2,
      exists results,
        fst (run (CompareResources.compare_directories h dir1 dir2))
        = Returned results
        /\ Forall (fun g : CompareResources.group =>
                     snd (fst g) <> [] /\ snd g <> []) results)
  /\ (forall directory,
         match fst (run (FindDuplicates.find_duplicate_files h directory)) with
         | Returned dups =>
             Forall (fun e : string * list string =>
                       (1 < List.length (snd e))%nat) dups
         | Exited _ => isdir h directory = false
         | Uncaught _ => False
         end).
Proof.
  split.
  - intros dir1 dir2. unfold run.
    destruct (compare_directories_spec h dir1 dir2 []) as [evs [E _]].
    rewrite E. eexists. split; [reflexivity|].
    apply Forall_forall. intros g Hg. unfold groups_across in Hg.
    apply in_map_iff in Hg. destruct Hg as [k [<- Hk]]. cbn [fst snd].
    apply (Permutation_in _ (sorted_perm _)) in Hk.
    apply common_digests_In in Hk. destruct Hk.
    split; now apply index_of_nonempty.
  - intros directory. unfold run. destruct (isdir h directory) eqn:D.
    + destruct (find_duplicate_files_valid h directory [] D) as [evs [E _]].
      rewrite E. cbn [fst]. apply Forall_forall. intros [k paths] He.
      unfold FindDuplicates.duplicates in He. apply filter_In in He.
      destruct He as [_ L]. now apply Nat.ltb_lt in L.
    + now rewrite (find_duplicate_files_invalid h directory [] D).
Qed.

(** The two sides of a cross-tree group need not be of one length. *)
Example sides_may_differ :
  let empty := mk_file [] NoFault 0 0 in
  let h := mk_host
             [("/cn"%string, NDir (Dir [("a"%string, empty); ("b"%string, empty)] []));
              ("/en"%string, NDir (Dir [("c"%string, empty)] []))]
             (fun p => p) in
  fst (run (CompareResources.compare_directories h "/cn" "/en"))
  = Returned [(md5_of_nothing, ["/cn/a"; "/cn/b"], ["/en/c"])]%string.
Proof. vm_compute. reflexivity. Qed.

(** ** Roots that are not directories *)

Lemma call_spec (r : ending * list out_event) (tr : list event) :
  call r tr = (passed_on (fst r), (tr ++ map EvOut (snd r))%list).
Proof. reflexivity. Qed.

Lemma outs_app (a b : list event) : outs (a ++ b) = (outs a ++ outs b)%list.
Proof. unfold outs. apply flat_map_app. Qed.

Lemma outs_map (evs : list out_event) : outs (map EvOut evs) = evs.
Proof.
  unfold outs. induction evs as [|e evs IH]; [reflexivity|].
  cbn [map flat_map app]. now rewrite IH.
Qed.

Lemma cr_main_invalid (h : host) (os : os_view) (dir1 dir2 output : string) :
  isdir h dir1 = false \/ isdir h dir2 = false ->
  exists d,
    run (CompareResourcesCli.main h os dir1 dir2 output)
    = (Returned tt, [EvPrint (MsgDirMissing d)])
    /\ (d = dir1 \/ d = dir2).
Proof.
  unfold run, CompareResourcesCli.main. intros H.
  destruct (isdir h dir1) eqn:D1; cbn [negb].
  - destruct H as [H|H]; [discriminate|]. rewrite H. cbn [negb].
    exists dir2. split; [reflexivity | now right].
  - exists dir1. split; [reflexivity | now left].
Qed.

Lemma bind_assoc {A B C : Type} (m : M A) (f : A -> M B) (g : B -> M C)
    (tr : list event) :
  bind (bind m f) g tr = bind m (fun x => bind (f x) g) tr.
Proof. unfold bind. destruct (m tr) as [[a|c|e] tr']; reflexivity. Qed.

Lemma bind_ret {A B : Type} (a : A) (k : A -> M B) (tr : list event) :
  bind (ret a) k tr = k a tr.
Proof. reflexivity. Qed.

Ltac trace_eq :=
  cbn [passed_on]; cbv beta iota; unfold print, emit; f_equal;
  rewrite <- ?app_assoc; cbn [app]; rewrite ?app_nil_r; reflexivity.

(** The run of the cross-tree [main] on roots that are directories, from
    what is known of [compare_directories]. *)
Lemma cr_main_with (P : list event -> Prop) (h : host) (os : os_view)
    (dir1 dir2 output : string) :
  (forall tr, exists evs,
      CompareResources.compare_directories h dir1 dir2 tr
      = (Returned (cross_groups h dir1 dir2), tr ++ evs)%list /\ P evs) ->
  isdir h dir1 = true -> isdir h dir2 = true ->
  let output_dir := PosixPath.dirname output in
  let out := Report.export_to_excel os (cross_groups h dir1 dir2)
               (Report.with_xlsx output) dir1 dir2 in
  if truthy output_dir && negb (path_exists os output_dir)
     && negb (can_create os output_dir)
  then run (CompareResourcesCli.main h os dir1 dir2 output)
       = (Uncaught OutputError, [])
  else
    exists evs,
      P evs
      /\ run (CompareResourcesCli.main h os dir1 dir2 output)
         = (match cross_groups h dir1 dir2 with
            | [] => Returned tt
            | _ :: _ => passed_on (fst out)
            end,
            (if truthy output_dir && negb (path_exists os output_dir)
             then [EvOut (OMakedirs output_dir); EvPrint (MsgCreatedDir output_dir)]
             else [])
            ++ [EvPrint MsgRule; EvPrint MsgTitle; EvPrint MsgRule;
                EvPrint (MsgDir1 dir1); EvPrint (MsgDir2 dir2);
                EvPrint (MsgOutputFile (Report.with_xlsx output))]
            ++ evs
            ++ match cross_groups h dir1 dir2 with
               | [] => [EvPrint MsgNoMatch]
               | _ :: _ =>
                   map EvOut (snd out)
                   ++ match fst out with
                      | Completed => [EvPrint MsgFinished]
                      | Failed => []
                      end
               end)%list.
Proof.
  intros C D1 D2 output_dir out.
  unfold run, CompareResourcesCli.main. rewrite D1, D2. cbn [negb].
  fold output_dir.
  destruct (truthy output_dir && negb (path_exists os output_dir)) eqn:MK;
    cbn [andb].
  - unfold makedirs. destruct (can_create os output_dir) eqn:CD; cbn [negb].
    + unfold emit at 1. unfold bind at 1. unfold bind at 1.
      unfold print at 1. unfold emit at 1. cbv beta iota.
      rewrite !bind_print.
      match goal with
      | |- context [bind (CompareResources.compare_directories h dir1 dir2) _ ?t] =>
          destruct (C t) as [evs [E Pe]]
      end.
      exists evs. split; [exact Pe|].
      rewrite (bind_returned _ _ _ _ _ E). fold out.
      destruct (cross_groups h dir1 dir2) as [|g gs].
      * trace_eq.
      * unfold bind. rewrite call_spec. destruct (fst out); trace_eq.
    + reflexivity.
  - unfold ret at 1. unfold bind at 1. rewrite !bind_print.
    match goal with
    | |- context [bind (CompareResources.compare_directories h dir1 dir2) _ ?t] =>
        destruct (C t) as [evs [E Pe]]
    end.
    exists evs. split; [exact Pe|].
    rewrite (bind_returned _ _ _ _ _ E). fold out.
    destruct (cross_groups h dir1 dir2) as [|g gs].
    + trace_eq.
    + unfold bind. rewrite call_spec. destruct (fst out); trace_eq.
Qed.

Lemma cr_main_outcome (h : host) (os : os_view) (dir1 dir2 output : string) :
  isdir h dir1 = true -> isdir h dir2 = true ->
  fst (run (CompareResourcesCli.main h os dir1 dir2 output))
  = if dir_ready os output then
      match cross_groups h dir1 dir2 with
      | [] => Returned tt
      | _ :: _ =>
          passed_on
            (fst (Report.export_to_excel os (cross_groups h dir1 dir2)
                    (Report.with_xlsx output) dir1 dir2))
      end
    else Uncaught OutputError.
Proof.
  intros D1 D2.
  pose proof (cr_main_with (fun _ => True) h os dir1 dir2 output) as W.
  cbv zeta in W. unfold dir_ready.
  destruct (truthy (PosixPath.dirname output)
            && negb (path_exists os (PosixPath.dirname output))) eqn:MK;
    cbn [andb negb orb] in *.
  - destruct (can_create os (PosixPath.dirname output)); cbn [negb] in *.
    + destruct W as [evs [_ E]]; trivial.
      * intros tr. destruct (compare_directories_spec h dir1 dir2 tr) as [evs [E _]].
        now exists evs.
      * now rewrite E.
    + rewrite W; trivial.
      intros tr. destruct (compare_directories_spec h dir1 dir2 tr) as [evs [E _]].
      now exists evs.
  - destruct W as [evs [_ E]]; trivial.
    + intros tr. destruct (compare_directories_spec h dir1 dir2 tr) as [evs [E _]].
      now exists evs.
    + now rewrite E.
Qed.

Lemma fd_main_invalid (h : host) (os : os_view) (script directory : string)
    (rest : list string) :
  isdir h directory = false ->
  exists m1 m,
    run (FindDuplicatesCli.main h os (script :: directory :: rest))
    = (Exited 1, [EvPrint m1; EvPrint m])
    /\ (m1 = MsgOutputGiven (report_path h directory rest)
        \/ m1 = MsgOutputSibling (report_path h directory rest))
    /\ (m = MsgNotExist directory \/ m = MsgNotDir directory).
Proof.
  intros D. unfold run, FindDuplicatesCli.main, report_path.
  destruct rest as [|output_path rest];
    rewrite bind_assoc, bind_print, bind_ret; unfold bind;
    rewrite (find_duplicate_files_invalid h directory _ D);
    do 2 eexists; (split; [reflexivity|]); (split; [tauto|]);
    destruct (exists_ h directory); tauto.
Qed.

Lemma fd_main_with (P : list event -> Prop) (h : host) (os : os_view)
    (script directory : string) (rest : list string) :
  (forall tr, exists evs,
      FindDuplicates.find_duplicate_files h directory tr
      = (Returned (duplicate_groups h directory), tr ++ evs)%list /\ P evs) ->
  let out := Report.export_to_csv os (duplicate_groups h directory)
               (report_path h directory rest) in
  exists m1 evs,
    P evs
    /\ (m1 = MsgOutputGiven (report_path h directory rest)
        \/ m1 = MsgOutputSibling (report_path h directory rest))
    /\ run (FindDuplicatesCli.main h os (script :: directory :: rest))
       = (passed_on (fst out), (EvPrint m1 :: evs ++ map EvOut (snd out))%list).
Proof.
  intros C out. unfold run, FindDuplicatesCli.main.
  destruct rest as [|output_path rest];
    rewrite bind_assoc, bind_print, bind_ret;
    match goal with
    | |- context [bind (FindDuplicates.find_duplicate_files h directory) _ ?t] =>
        destruct (C t) as [evs [E Pe]]
    end;
    rewrite (bind_returned _ _ _ _ _ E), call_spec;
    eexists; exists evs; (split; [exact Pe|]); (split; [|reflexivity]); tauto.
Qed.

Lemma fd_main_outcome (h : host) (os : os_view) (script directory : string)
    (rest : list string) :
  isdir h directory = true ->
  fst (run (FindDuplicatesCli.main h os (script :: directory :: rest)))
  = passed_on
      (fst (Report.export_to_csv os (duplicate_groups h directory)
              (report_path h directory rest))).
Proof.
  intros D.
  destruct (fd_main_with (fun _ => True) h os script directory rest)
    as [m1 [evs [_ [_ E]]]]; [|now rewrite E].
  intros tr. destruct (find_duplicate_files_valid h directory tr D) as [evs [E _]].
  now exists evs.
Qed.

(** *** When nothing fails on the output side *)

Lemma writerows_accepts (os : os_view) (output_file : string) (rows : list row) :
  forall n,
    (forall i r, nth_error rows i = Some r ->
                 can_write os output_file (n + i) r = true) ->
    Report.writerows os output_file n rows
    = (Completed, map (OWriterow output_file) rows).
Proof.
  induction rows as [|r rows IH]; intros n W; cbn [Report.writerows map];
    [reflexivity|].
  rewrite <- (Nat.add_0_r n) at 1. rewrite (W 0%nat r eq_refl).
  rewrite IH; [reflexivity|].
  intros i r' Hi. rewrite Nat.add_succ_comm. now apply W.
Qed.

Lemma write_csv_completes (os : os_view) (d : dict (list string))
    (output_file : string) (before : list out_event) :
  can_create os output_file = true ->
  writable os output_file (Report.csv_header :: Report.csv_groups os 1 d) ->
  fst (Report.write_csv os d output_file before) = Completed.
Proof.
  intros C W. unfold Report.write_csv. rewrite C.
  rewrite writerows_accepts; [reflexivity|]. intros i r. apply W.
Qed.

Lemma export_to_csv_completes (os : os_view) (d : dict (list string))
    (output_file : string) :
  dir_ready os output_file = true ->
  can_create os output_file = true ->
  writable os output_file (Report.csv_header :: Report.csv_groups os 1 d) ->
  fst (Report.export_to_csv os d output_file) = Completed.
Proof.
  intros R C W. unfold Report.export_to_csv, dir_ready in *.
  destruct d as [|e d]; [reflexivity|].
  destruct (truthy (PosixPath.dirname output_file)
            && negb (path_exists os (PosixPath.dirname output_file)));
    cbn [negb orb] in R.
  - rewrite R. now apply write_csv_completes.
  - now apply write_csv_completes.
Qed.

Lemma excel_groups_generous (os : os_view) (dir1 dir2 : string)
    (results : list CompareResources.group) :
  (forall p, getsize os p <> None) ->
  forall idx, Report.excel_groups os dir1 dir2 idx results <> None.
Proof.
  intros G. induction results as [|[[md5 files1] files2] results IH]; intros idx;
    cbn [Report.excel_groups]; [discriminate|].
  unfold Report.excel_group.
  assert (Hs : match files1 with p :: _ => getsize os p | [] => Some 0 end <> None)
    by (destruct files1; [discriminate | apply G]).
  destruct (match files1 with p :: _ => getsize os p | [] => Some 0 end);
    [|now elim Hs].
  specialize (IH (S idx)).
  destruct (Report.excel_groups os dir1 dir2 (S idx) results);
    [discriminate | now elim IH].
Qed.

Lemma export_to_excel_generous (os : os_view)
    (results : list CompareResources.group) (output_path dir1 dir2 : string) :
  generous os ->
  fst (Report.export_to_excel os results output_path dir1 dir2) = Completed.
Proof.
  intros [C [_ G]]. unfold Report.export_to_excel.
  pose proof (excel_groups_generous os dir1 dir2 results G 1) as N.
  destruct (Report.excel_groups os dir1 dir2 1 results); [|now elim N].
  now rewrite C.
Qed.

(** C7, as the code has it.  A duplicate finder given a root that does not
    exist or is not a directory prints the error and exits with status 1; no
    file has been opened and nothing has been done on the output side.  A
    cross-tree script checks both roots first and, when one is not a
    directory, prints the error and returns from [main], so that the exit
    status is 0; no file of either tree has been opened.  With roots that are
    directories neither script ever calls [sys.exit]: the scan runs to its
    end whatever files cannot be read, and the run ends as its output stage
    ends, with an exception that nothing catches when the directory of the
    report cannot be made or the exporter fails.  So when nothing fails on
    the output side the exit status is 0, whatever files were skipped. *)
Theorem fatal_root_handling (h : host) (os : os_view) :
  (forall directory,
      isdir h directory = false ->
      exists m,
        run (FindDuplicates.find_duplicate_files h directory)
        = (Exited 1, [EvPrint m])
        /\ (m = MsgNotExist directory \/ m = MsgNotDir directory))
  /\ (forall script directory rest,
         isdir h directory = false ->
         let r := run (FindDuplicatesCli.main h os (script :: directory :: rest)) in
         exit_status (fst r) = 1 /\ opened (snd r) = [] /\ outs (snd r) = [])
  /\ (forall dir1 dir2 output,
         isdir h dir1 = false \/ isdir h dir2 = false ->
         exists d,
           run (CompareResourcesCli.main h os dir1 dir2 output)
           = (Returned tt, [EvPrint (MsgDirMissing d)])
           /\ (d = dir1 \/ d = dir2))
  /\ (forall script directory rest,
         isdir h directory = true ->
         fst (run (FindDuplicatesCli.main h os (script :: directory :: rest)))
         = passed_on
             (fst (Report.export_to_csv os (duplicate_groups h directory)
                     (report_path h directory rest))))
  /\ (forall dir1 dir2 output,
         isdir h dir1 = true -> isdir h dir2 = true ->
         fst (run (CompareResourcesCli.main h os dir1 dir2 output))
         = if dir_ready os output then
             match cross_groups h dir1 dir2 with
             | [] => Returned tt
             | _ :: _ =>
                 passed_on
                   (fst (Report.export_to_excel os (cross_groups h dir1 dir2)
                           (Report.with_xlsx output) dir1 dir2))
             end
           else Uncaught OutputError)
  /\ (generous os ->
      (forall script directory rest,
          isdir h directory = true ->
          exit_status
            (fst (run (FindDuplicatesCli.main h os (script :: directory :: rest))))
          = 0)
      /\ (forall dir1 dir2 output,
             isdir h dir1 = true -> isdir h dir2 = true ->
             exit_status (fst (run (CompareResourcesCli.main h os dir1 dir2 output)))
             = 0)).
Proof.
  split; [|split; [|split; [|split; [|split]]]].
  - intros directory D. unfold run.
    rewrite (find_duplicate_files_invalid h directory [] D).
    eexists. split; [reflexivity|].
    destruct (exists_ h directory); [now right | now left].
  - intros script directory rest D r. subst r.
    destruct (fd_main_invalid h os script directory rest D) as [m1 [m [E _]]].
    rewrite E. now repeat split.
  - intros dir1 dir2 output. apply cr_main_invalid.
  - intros script directory rest D. now apply fd_main_outcome.
  - intros dir1 dir2 output D1 D2. now apply cr_main_outcome.
  - intros G. pose proof G as [C [W _]]. split.
    + intros script directory rest D.
      rewrite (fd_main_outcome h os script directory rest D).
      rewrite export_to_csv_completes; [reflexivity | | apply C |].
      * unfold dir_ready. rewrite C. apply orb_true_r.
      * intros i r _. apply W.
    + intros dir1 dir2 output D1 D2.
      rewrite (cr_main_outcome h os dir1 dir2 output D1 D2).
      unfold dir_ready. rewrite C, orb_true_r.
      destruct (cross_groups h dir1 dir2); [reflexivity|].
      now rewrite export_to_excel_generous.
Qed.

(** ** Paths of a tree are distinct *)
Section Paths.
Local Open Scope string_scope.

Lemma append_assoc (a b c : string) : (a ++ b) ++ c = a ++ (b ++ c).
Proof. induction a as [|x a IH]; cbn; [reflexivity | now rewrite IH]. Qed.

Lemma append_nil_r (a : string) : a ++ "" = a.
Proof. induction a as [|x a IH]; cbn; [reflexivity | now rewrite IH]. Qed.

Lemma append_inj_l (a x y : string) : a ++ x = a ++ y -> x = y.
Proof.
  induction a as [|c a IH]; cbn; [trivial|]. intros [= E]. now apply IH.
Qed.

Lemma has_sep_endswith (s : string) : endswith_sep s = true -> has_sep s = true.
Proof.
  induction s as [|c s IH]; [discriminate|]. cbn [endswith_sep has_sep].
  destruct s as [|c' s'].
  - intros ->. reflexivity.
  - intros E. rewrite (IH E). apply orb_true_r.
Qed.

Lemma endswith_sep_append (a d : string) :
  d <> "" -> endswith_sep (a ++ d) = endswith_sep d.
Proof.
  intros Hd. induction a as [|c a IH]; [reflexivity|].
  cbn [String.append endswith_sep]. rewrite IH.
  destruct (a ++ d) eqn:E; [|reflexivity].
  destruct a; cbn in E; [contradiction | discriminate].
Qed.

Lemma name_ok_spec (n : string) :
  name_ok n = true -> n <> "" /\ has_sep n = false.
Proof.
  unfold name_ok. rewrite andb_true_iff, !negb_true_iff.
  intros [E S]. split; [now apply String.eqb_neq | exact S].
Qed.

Lemma name_no_leading_sep (n : string) : has_sep n = false -> startswith_sep n = false.
Proof.
  destruct n as [|c n]; [reflexivity|]. cbn [has_sep startswith_sep].
  now intros [E _]%orb_false_iff.
Qed.

(** [join] puts [base top] before a name. *)
Lemma join_name (top n : string) : name_ok n = true -> join top n = base top ++ n.
Proof.
  intros [_ S]%name_ok_spec. unfold join, base.
  rewrite (name_no_leading_sep n S).
  destruct (String.eqb top "" || endswith_sep top)%bool; [reflexivity|].
  now rewrite append_assoc.
Qed.

Lemma base_join (top d : string) :
  name_ok d = true -> base (join top d) = base top ++ d ++ "/".
Proof.
  intros Hd. rewrite (join_name top d Hd).
  destruct (name_ok_spec d Hd) as [Ne S]. unfold base at 1.
  rewrite (endswith_sep_append (base top) d Ne).
  assert (E : endswith_sep d = false).
  { destruct (endswith_sep d) eqn:E; [|reflexivity].
    apply has_sep_endswith in E. congruence. }
  rewrite E, orb_false_r.
  destruct (String.eqb_spec (base top ++ d) "") as [Z|_].
  - destruct (base top); cbn in Z; [contradiction | discriminate].
  - now rewrite append_assoc.
Qed.

(** A name without separator, followed by nothing or by a separator, can be
    read off the front of a string in one way only. *)
Lemma name_split (n1 : string) :
  forall n2 r1 r2,
    n1 ++ r1 = n2 ++ r2 ->
    has_sep n1 = false -> has_sep n2 = false ->
    (r1 = "" \/ startswith_sep r1 = true) ->
    (r2 = "" \/ startswith_sep r2 = true) ->
    n1 = n2.
Proof.
  induction n1 as [|c1 n1 IH]; intros [|c2 n2] r1 r2 E S1 S2 H1 H2.
  - reflexivity.
  - cbn in E. subst r1. cbn [has_sep] in S2. apply orb_false_iff in S2.
    destruct S2 as [S2 _]. destruct H1 as [H1|H1]; [discriminate|].
    cbn [startswith_sep] in H1. congruence.
  - cbn in E. subst r2. cbn [has_sep] in S1. apply orb_false_iff in S1.
    destruct S1 as [S1 _]. destruct H2 as [H2|H2]; [discriminate|].
    cbn [startswith_sep] in H2. congruence.
  - cbn in E. injection E as -> E. cbn [has_sep] in S1, S2.
    apply orb_false_iff in S1, S2. f_equal.
    apply (IH n2 r1 r2 E); tauto.
Qed.

Lemma tree_rect_nested (P : tree -> Prop) :
  (forall files subdirs,
      Forall (fun d => P (snd d)) subdirs -> P (Dir files subdirs)) ->
  forall t, P t.
Proof.
  intros Hdir. fix IH 1. intros [files subdirs]. apply Hdir.
  induction subdirs as [|d ds IHds]; constructor; [apply IH | exact IHds].
Qed.

Lemma tree_ok_Dir (files : list (string * file)) (subdirs : list (string * tree)) :
  tree_ok (Dir files subdirs)
  <-> NoDup (map fst files ++ map fst subdirs)%list
      /\ Forall (fun n => name_ok n = true) (map fst files ++ map fst subdirs)%list
      /\ Forall (fun d => tree_ok (snd d)) subdirs.
Proof.
  cbn [tree_ok].
  assert (A : forall ds : list (string * tree),
             (fix all_ok (ds : list (string * tree)) : Prop :=
                match ds with
                | []%list => True
                | (d :: ds')%list => tree_ok (snd d) /\ all_ok ds'
                end) ds
             <-> Forall (fun d => tree_ok (snd d)) ds).
  { induction ds as [|d ds IHds]; [split; constructor|].
    rewrite Forall_cons_iff, IHds. reflexivity. }
  now rewrite A.
Qed.

Lemma flat_map_flat_map {A B C : Type} (f : A -> list B) (g : B -> list C)
    (l : list A) :
  flat_map g (flat_map f l) = flat_map (fun x => flat_map g (f x)) l.
Proof.
  induction l as [|x l IH]; [reflexivity|].
  cbn [flat_map]. now rewrite flat_map_app, IH.
Qed.

Lemma map_flat_map {A B C : Type} (f : A -> list B) (g : B -> C) (l : list A) :
  map g (flat_map f l) = flat_map (fun x => map g (f x)) l.
Proof.
  induction l as [|x l IH]; [reflexivity|].
  cbn [flat_map]. now rewrite map_app, IH.
Qed.

Lemma tree_paths_Dir (top : string) (files : list (string * file))
    (subdirs : list (string * tree)) :
  tree_paths top (Dir files subdirs)
  = (map (fun e => join top (fst e)) files
     ++ flat_map (fun d => tree_paths (join top (fst d)) (snd d)) subdirs)%list.
Proof.
  unfold tree_paths. cbn [walk flat_map]. rewrite map_app, map_map. f_equal.
  - apply map_ext. now intros [filename f].
  - now rewrite flat_map_flat_map, map_flat_map.
Qed.

(** Every path below [top] is [base top], an entry name, and then nothing or
    a separator and more. *)
Lemma tree_paths_shape (t : tree) :
  tree_ok t ->
  forall top p,
    In p (tree_paths top t) ->
    exists n rest,
      p = base top ++ n ++ rest /\ name_ok n = true
      /\ (rest = "" \/ startswith_sep rest = true).
Proof.
  induction t as [files subdirs IH] using tree_rect_nested.
  intros [ND [Names Subs]]%tree_ok_Dir top p Hp.
  rewrite tree_paths_Dir in Hp. apply in_app_or in Hp.
  rewrite Forall_app in Names. destruct Names as [NF NS].
  rewrite Forall_forall in NF, NS, IH, Subs.
  destruct Hp as [Hp|Hp].
  - apply in_map_iff in Hp. destruct Hp as [[n f] [<- Hin]]. cbn [fst].
    assert (Hn : name_ok n = true) by (apply NF; now apply (in_map fst) in Hin).
    exists n, "". rewrite append_nil_r. split; [now apply join_name|].
    split; [assumption | now left].
  - apply in_flat_map in Hp. destruct Hp as [[d sub] [Hin Hp]]. cbn [fst snd] in Hp.
    assert (Hd : name_ok d = true) by (apply NS; now apply (in_map fst) in Hin).
    destruct (IH _ Hin (Subs _ Hin) _ _ Hp) as [n [rest [-> [Hn Hr]]]].
    exists d, ("/" ++ n ++ rest). rewrite (base_join top d Hd).
    split; [now rewrite !append_assoc|]. split; [assumption | now right].
Qed.

Lemma under_subdir (top d p : string) (sub : tree) :
  name_ok d = true -> tree_ok sub ->
  In p (tree_paths (join top d) sub) ->
  exists rest, p = base top ++ d ++ rest /\ startswith_sep rest = true.
Proof.
  intros Hd Hsub Hp.
  destruct (tree_paths_shape sub Hsub _ _ Hp) as [n [rest [-> _]]].
  exists ("/" ++ n ++ rest). rewrite (base_join top d Hd).
  split; [now rewrite !append_assoc | reflexivity].
Qed.

(** In a tree whose entries have proper and distinct names, no path is
    walked twice. *)
Lemma tree_paths_nodup (t : tree) :
  tree_ok t -> forall top, NoDup (tree_paths top t).
Proof.
  induction t as [files subdirs IH] using tree_rect_nested.
  intros [ND [Names Subs]]%tree_ok_Dir top.
  rewrite tree_paths_Dir.
  rewrite Forall_app in Names. destruct Names as [NF NS].
  rewrite Forall_forall in NF.
  assert (Sep : forall n, name_ok n = true -> has_sep n = false)
    by (intros n Hn; now destruct (name_ok_spec n Hn)).
  apply NoDup_app.
  - rewrite <- (map_map fst (join top)).
    apply NoDup_map_NoDup_ForallPairs; [|now apply NoDup_app_remove_r in ND].
    intros n1 n2 H1 H2 E.
    rewrite (join_name top n1 (NF _ H1)), (join_name top n2 (NF _ H2)) in E.
    now apply append_inj_l in E.
  - apply NoDup_app_remove_l in ND. clear NF.
    induction subdirs as [|[d sub] ds IHds]; [constructor|].
    cbn [flat_map map fst snd] in *.
    inversion ND as [|? ? Hnot ND']; subst.
    inversion NS as [|? ? Hd NS']; subst.
    inversion Subs as [|? ? Hsub Subs']; subst.
    inversion IH as [|? ? IHsub IH']; subst. cbn [snd] in *.
    apply NoDup_app; [now apply IHsub | now apply IHds|].
    intros p Hp Hq. apply in_flat_map in Hq.
    destruct Hq as [[d' sub'] [Hin Hq]]. cbn [fst snd] in Hq.
    rewrite Forall_forall in NS', Subs'.
    assert (Hd' : name_ok d' = true)
      by (apply NS'; now apply (in_map fst) in Hin).
    destruct (under_subdir top d p sub Hd Hsub Hp) as [r1 [E1 S1]].
    destruct (under_subdir top d' p sub' Hd' (Subs' _ Hin) Hq) as [r2 [E2 S2]].
    rewrite E1 in E2. apply append_inj_l in E2.
    apply name_split in E2; auto. subst d'.
    apply Hnot. now apply (in_map fst) in Hin.
  - intros p Hp Hq. apply in_map_iff in Hp. destruct Hp as [[n f] [<- Hin]].
    cbn [fst] in Hq. apply in_flat_map in Hq.
    destruct Hq as [[d sub] [Hd Hq]]. cbn [fst snd] in Hq.
    assert (Hn : name_ok n = true) by (apply NF; now apply (in_map fst) in Hin).
    rewrite Forall_forall in NS, Subs.
    assert (Hdn : name_ok d = true) by (apply NS; now apply (in_map fst) in Hd).
    destruct (under_subdir top d _ sub Hdn (Subs _ Hd) Hq) as [r [E S]].
    rewrite (join_name top n Hn) in E. apply append_inj_l in E.
    rewrite <- (append_nil_r n) in E. apply name_split in E; auto.
    subst d. apply (in_map fst) in Hin, Hd. cbn [fst] in Hin, Hd.
    clear - ND Hin Hd. induction (map fst files) as [|x l IHl]; [destruct Hin|].
    cbn [app] in ND. inversion ND as [|? ? Hnot ND']; subst.
    destruct Hin as [->|Hin]; [|now apply IHl].
    apply Hnot, in_or_app. now right.
Qed.

End Paths.

(** ** Duplicate groups *)

Lemma walk_files_paths (h : host) (directory : string) (t : tree) :
  resolve (nodes h) directory = Some (NDir t) ->
  map fst (walk_files h directory) = tree_paths directory t.
Proof. unfold walk_files, os_walk, tree_paths. now intros ->. Qed.

Lemma fingerprint_paths (fs : list (string * file)) (k : string) :
  map snd (filter (fun e => String.eqb (fst e) k) (fingerprints fs))
  = map fst (filter (fun pf => reads_ok (snd pf)
                               && String.eqb (Md5.md5_hex (content (snd pf))) k)
                    fs).
Proof.
  induction fs as [|[p f] fs IH]; [reflexivity|].
  unfold fingerprints in *. cbn [flat_map filter snd fst].
  rewrite filter_app, map_app, IH.
  destruct (reads_ok f); cbn [andb filter fst app map]; [|reflexivity].
  destruct (String.eqb (Md5.md5_hex (content f)) k); reflexivity.
Qed.

Lemma nodup_map_filter {A B : Type} (g : A -> B) (q : A -> bool) (l : list A) :
  NoDup (map g l) -> NoDup (map g (filter q l)).
Proof.
  induction l as [|x l IH]; cbn [map filter]; [trivial|].
  intros ND. inversion ND as [|? ? Hnot ND']; subst.
  destruct (q x); cbn [map]; [|now apply IH].
  constructor; [|now apply IH].
  intros Hin. apply Hnot. apply in_map_iff in Hin.
  destruct Hin as [y [E Hy]]. apply filter_In in Hy.
  apply in_map_iff. exists y. tauto.
Qed.

(** When no path is walked twice, no path is listed twice under a digest. *)
Lemma index_of_paths_nodup (fs : list (string * file)) (k : string) :
  NoDup (map fst fs) -> NoDup (paths_at (index_of fs) k).
Proof.
  intros ND. rewrite index_of_paths_at, fingerprint_paths.
  now apply nodup_map_filter.
Qed.

Lemma paths_at_tail (k0 : string) (v0 : list string) (d : dict (list string))
    (k : string) :
  k <> k0 -> paths_at ((k0, v0) :: d) k = paths_at d k.
Proof.
  intros N. unfold paths_at. cbn [getitem].
  destruct (String.eqb_spec k0 k); [congruence | reflexivity].
Qed.

(** The comprehension keeps the order in which the index holds its keys. *)
Lemma duplicates_keys (d : dict (list string)) :
  NoDup (keys d) ->
  keys (FindDuplicates.duplicates d)
  = filter (fun k => (1 <? List.length (paths_at d k))%nat) (keys d).
Proof.
  unfold FindDuplicates.duplicates, keys.
  induction d as [|[k0 v0] d IH]; intros ND; [reflexivity|].
  inversion ND as [|? ? Hnot ND']; subst. cbn [filter map fst].
  assert (T : filter (fun k => (1 <? List.length (paths_at ((k0, v0) :: d) k))%nat)
                (map fst d)
              = filter (fun k => (1 <? List.length (paths_at d k))%nat) (map fst d)).
  { apply filter_ext_in. intros k Hk. rewrite paths_at_tail; [reflexivity|].
    intros ->. contradiction. }
  rewrite T. unfold paths_at at 1. cbn [getitem]. rewrite String.eqb_refl.
  destruct (1 <? List.length v0)%nat; cbn [map fst]; now rewrite IH.
Qed.

Lemma duplicates_nodup (d : dict (list string)) :
  NoDup (keys d) -> NoDup (keys (FindDuplicates.duplicates d)).
Proof. intros ND. rewrite duplicates_keys by assumption. now apply NoDup_filter. Qed.

Lemma duplicates_contains (d : dict (list string)) (k : string) :
  NoDup (keys d) ->
  contains (FindDuplicates.duplicates d) k
  = (1 <? List.length (paths_at d k))%nat.
Proof.
  intros ND. unfold contains, paths_at. rewrite duplicates_getitem by assumption.
  destruct (getitem d k) as [paths|]; [|reflexivity].
  now destruct (1 <? List.length paths)%nat.
Qed.

(** C2. For a directory whose entries have proper and distinct names, the
    result of [find_duplicate_files] has a group for a digest exactly when
    the index lists two different paths under that digest; the group's list
    of paths is the index's list; a digest with one path has no group; and no
    digest has two groups. *)
Theorem duplicate_correctness (h : host) (directory : string) (t : tree) :
  resolve (nodes h) directory = Some (NDir t) ->
  tree_ok t ->
  exists idx dups,
    fst (run (FindDuplicates.scan h directory)) = Returned idx
    /\ fst (run (FindDuplicates.find_duplicate_files h directory)) = Returned dups
    /\ (forall d,
           contains dups d = true
           <-> exists p1 p2,
                 p1 <> p2 /\ In p1 (paths_at idx d) /\ In p2 (paths_at idx d))
    /\ (forall d paths, getitem dups d = Some paths -> getitem idx d = Some paths)
    /\ (forall d p, paths_at idx d = [p] -> contains dups d = false)
    /\ NoDup (keys dups).
Proof.
  intros Hres Hok.
  assert (D : isdir h directory = true) by (unfold isdir; now rewrite Hres).
  unfold run.
  destruct (fd_scan_spec h directory []) as [e1 [E1 _]].
  destruct (find_duplicate_files_valid h directory [] D) as [e2 [E2 _]].
  rewrite E1, E2. cbn [fst].
  set (idx := index_of (walk_files h directory)).
  assert (NK : NoDup (keys idx)) by apply index_of_nodup.
  assert (NP : forall d, NoDup (paths_at idx d)).
  { intros d. apply index_of_paths_nodup.
    rewrite (walk_files_paths h directory t Hres). now apply tree_paths_nodup. }
  exists idx, (FindDuplicates.duplicates idx).
  split; [reflexivity|]. split; [reflexivity|]. split; [|split; [|split]].
  - intros d. rewrite duplicates_contains by assumption. rewrite Nat.ltb_lt. split.
    + intros L. now apply long_two_distinct.
    + intros [p1 [p2 [N [H1 H2]]]]. now apply two_distinct_long with p1 p2.
  - intros d paths. rewrite duplicates_getitem by assumption.
    destruct (getitem idx d) as [l|]; [|discriminate].
    destruct (1 <? List.length l)%nat; [trivial | discriminate].
  - intros d p E. rewrite duplicates_contains by assumption. now rewrite E.
  - now apply duplicates_nodup.
Qed.

(** Without the condition on names the groups are still the entries of the
    index that have more than one path. *)
Lemma duplicates_by_length (h : host) (directory : string) :
  isdir h directory = true ->
  exists dups,
    fst (run (FindDuplicates.find_duplicate_files h directory)) = Returned dups
    /\ forall d,
         getitem dups d
         = match getitem (index_of (walk_files h directory)) d with
           | Some paths => if (1 <? List.length paths)%nat then Some paths else None
           | None => None
           end.
Proof.
  intros D. unfold run.
  destruct (find_duplicate_files_valid h directory [] D) as [e [E _]].
  rewrite E. eexists. split; [reflexivity|].
  intros d. apply duplicates_getitem, index_of_nodup.
Qed.

(** ** The order of the groups *)

Section Order.
Let addf := fun (d : dict (list string)) (e : string * string) =>
              let '(k, p) := e in add_path d k p.

Lemma fold_keys (es : list (string * string)) :
  forall d : dict (list string),
    keys (fold_left addf es d) = (keys d ++ firsts (keys d) (map fst es))%list.
Proof.
  induction es as [|[k p] es IH]; intros d; cbn [fold_left map fst firsts].
  - now rewrite app_nil_r.
  - rewrite IH. unfold addf. rewrite keys_add_path, <- contains_keys.
    destruct (contains d k); [reflexivity | now rewrite <- app_assoc].
Qed.

(** The keys of an index are the digests in the order of first discovery. *)
Lemma index_of_keys (fs : list (string * file)) :
  keys (index_of fs) = discovery_order fs.
Proof. unfold index_of, discovery_order. fold addf. now rewrite fold_keys. Qed.

End Order.

Lemma sorted_common_nodup (A B : dict (list string)) :
  NoDup (sorted (common_digests A B)).
Proof.
  apply (Permutation_NoDup (Permutation_sym (sorted_perm _))).
  apply common_digests_nodup.
Qed.

Lemma fingerprints_perm (fs fs' : list (string * file)) :
  Permutation fs fs' -> Permutation (fingerprints fs) (fingerprints fs').
Proof. apply Permutation_flat_map. Qed.

(** The keys of an index do not depend, as a set, on the order of the walk. *)
Lemma index_of_contains_perm (fs fs' : list (string * file)) (k : string) :
  Permutation fs fs' -> contains (index_of fs) k = contains (index_of fs') k.
Proof.
  intros P. rewrite !index_of_contains. apply fingerprints_perm in P.
  apply eq_true_iff_eq. rewrite !existsb_exists.
  split; intros [e [Hin Hk]]; exists e; (split; [|exact Hk]).
  - now apply (Permutation_in e P).
  - now apply (Permutation_in e (Permutation_sym P)).
Qed.

(** The digests of a cross-tree report are [sorted] of any enumeration of
    the shared keys. *)
Lemma groups_across_any_enumeration (A B : dict (list string)) (e : list string) :
  NoDup e ->
  (forall k, In k e <-> contains A k = true /\ contains B k = true) ->
  map digest_of (groups_across A B) = sorted e.
Proof.
  intros ND He. rewrite groups_across_digests. apply sorted_order_free.
  apply NoDup_Permutation; [apply common_digests_nodup | exact ND|].
  intros k. now rewrite common_digests_In, He.
Qed.

Lemma groups_across_same_keys (A B A' B' : dict (list string)) :
  (forall k, contains A k = contains A' k) ->
  (forall k, contains B k = contains B' k) ->
  map digest_of (groups_across A B) = map digest_of (groups_across A' B').
Proof.
  intros HA HB. rewrite (groups_across_digests A' B').
  apply groups_across_any_enumeration; [apply common_digests_nodup|].
  intros k. now rewrite HA, HB, <- common_digests_In.
Qed.

(** C4, as the code has it.  The groups of a cross-tree report are in
    ascending order of their digests, each digest once.  The sequence of
    digests is [sorted] of any enumeration of the keys the two indexes share,
    so it does not depend on the order in which the set of shared keys is
    iterated, and it is the same when the files of either tree are walked in
    another order.  The groups of a duplicate report are not sorted: they
    follow the order in which the walk first met their digests. *)
Theorem group_order :
  (forall h dir1 dir2,
      exists results,
        fst (run (CompareResources.compare_directories h dir1 dir2))
        = Returned results
        /\ StronglySorted le_str (map digest_of results)
        /\ ascending (map digest_of results) = true)
  /\ (forall A B tr,
         exists results,
           fst (CompareResources.match_across A B tr) = Returned results
           /\ ascending (map digest_of results) = true
           /\ forall e,
                NoDup e ->
                (forall k, In k e <-> contains A k = true /\ contains B k = true) ->
                map digest_of results = sorted e)
  /\ (forall fs1 fs1' fs2 fs2' tr tr',
         Permutation fs1 fs1' -> Permutation fs2 fs2' ->
         exists results results',
           fst (CompareResources.match_across (index_of fs1) (index_of fs2) tr)
           = Returned results
           /\ fst (CompareResources.match_across (index_of fs1') (index_of fs2') tr')
              = Returned results'
           /\ map digest_of results = map digest_of results')
  /\ (forall h directory,
         isdir h directory = true ->
         exists dups,
           fst (run (FindDuplicates.find_duplicate_files h directory))
           = Returned dups
           /\ keys dups
              = filter (fun k =>
                          (1 <? List.length
                                  (paths_at (index_of (walk_files h directory)) k))%nat)
                       (discovery_order (walk_files h directory))).
Proof.
  assert (Asc : forall A B, ascending (map digest_of (groups_across A B)) = true).
  { intros A B. rewrite groups_across_digests.
    apply ascending_spec; [apply sorted_sorted | apply sorted_common_nodup]. }
  split; [|split; [|split]].
  - intros h dir1 dir2. unfold run.
    destruct (compare_directories_spec h dir1 dir2 []) as [evs [E _]].
    rewrite E. eexists. split; [reflexivity|]. split; [|apply Asc].
    rewrite groups_across_digests. apply sorted_sorted.
  - intros A B tr. rewrite match_across_spec. eexists.
    split; [reflexivity|]. split; [apply Asc|].
    intros e. apply groups_across_any_enumeration.
  - intros fs1 fs1' fs2 fs2' tr tr' P1 P2. rewrite !match_across_spec.
    do 2 eexists. split; [reflexivity|]. split; [reflexivity|].
    apply groups_across_same_keys; intros k; now apply index_of_contains_perm.
  - intros h directory D. unfold run.
    destruct (find_duplicate_files_valid h directory [] D) as [evs [E _]].
    rewrite E. eexists. split; [reflexivity|].
    rewrite duplicates_keys by apply index_of_nodup. now rewrite index_of_keys.
Qed.

(** The claim C4 fails in duplicate mode: the two duplicate groups of the
    sample tree come in the order of discovery, the larger digest first. *)
Lemma duplicate_groups_unsorted :
  fst (run (FindDuplicates.find_duplicate_files sample_host "/t"))
  = Returned [(md5_of_nothing, ["/t/e1"; "/t/e2"]);
              (md5_of_a, ["/t/a1"; "/t/sub/a2"])]%string
  /\ ascending [md5_of_nothing; md5_of_a] = false
  /\ String.leb md5_of_nothing md5_of_a = false.
Proof. vm_compute. repeat split. Qed.

(** The theorem on the sample host. *)
Lemma group_order_witness :
  isdir sample_host "/t" = true
  /\ exists dups,
       fst (run (FindDuplicates.find_duplicate_files sample_host "/t"))
       = Returned dups
       /\ keys dups
          = filter (fun k =>
                      (1 <? List.length
                              (paths_at (index_of (walk_files sample_host "/t")) k))%nat)
                   (discovery_order (walk_files sample_host "/t")).
Proof.
  split; [reflexivity|].
  apply (proj2 (proj2 (proj2 group_order)) sample_host "/t"%string).
  reflexivity.
Defined.

(** ** The sample host *)

Lemma sample_tree_ok : tree_ok sample_tree.
Proof.
  cbn. repeat split; repeat constructor; cbn;
    intuition (try discriminate; auto).
Qed.

(** The scan of the sample tree: the two files that cannot be read are
    opened, reported and left out; the scan goes on after them. *)
Example sample_scan :
  fst (run (FindDuplicates.scan sample_host "/t"))
  = Returned [(md5_of_nothing, ["/t/e1"; "/t/e2"]);
              (md5_of_a, ["/t/a1"; "/t/sub/a2"])]%string
  /\ opened (snd (run (FindDuplicates.scan sample_host "/t")))
     = ["/t/e1"; "/t/e2"; "/t/a1"; "/t/locked"; "/t/sub/a2"; "/t/sub/torn"]%string
  /\ reported (snd (run (FindDuplicates.scan sample_host "/t")))
     = ["/t/locked"; "/t/sub/torn"]%string.
Proof. vm_compute. repeat split. Qed.

Example sample_compare :
  fst (run (CompareResources.compare_directories sample_host "/t" "/u"))
  = Returned [(md5_of_a, ["/t/a1"; "/t/sub/a2"], ["/u/copy"]);
              (md5_of_nothing, ["/t/e1"; "/t/e2"], ["/u/nothing"])]%string.
Proof. vm_compute. reflexivity. Qed.

(** A file of 4097 bytes is read as a chunk of 4096 bytes and one of 1. *)
Example two_chunks_read :
  map (@List.length byte) (chunks (List.length (content two_chunks)) 4096
                             (content two_chunks))
  = [4096; 1]%nat
  /\ fst (run (CompareResources.calculate_md5 "/u/big" two_chunks))
     = Returned "95914f3c1b52390238277d19f0457c53"%string.
Proof. vm_compute. split; reflexivity. Qed.

Lemma duplicate_correctness_witness :
  resolve (nodes sample_host) "/t" = Some (NDir sample_tree)
  /\ tree_ok sample_tree
  /\ exists idx dups,
       fst (run (FindDuplicates.scan sample_host "/t")) = Returned idx
       /\ fst (run (FindDuplicates.find_duplicate_files sample_host "/t"))
          = Returned dups
       /\ (forall d,
              contains dups d = true
              <-> exists p1 p2,
                    p1 <> p2 /\ In p1 (paths_at idx d) /\ In p2 (paths_at idx d))
       /\ (forall d paths, getitem dups d = Some paths -> getitem idx d = Some paths)
       /\ (forall d p, paths_at idx d = [p] -> contains dups d = false)
       /\ NoDup (keys dups).
Proof.
  split; [reflexivity|]. split; [exact sample_tree_ok|].
  exact (duplicate_correctness sample_host "/t"%string sample_tree
           eq_refl sample_tree_ok).
Defined.

Lemma digest_of_content_alone_witness :
  reads_ok letter_a = true /\ reads_ok letter_a_again = true
  /\ content letter_a = content letter_a_again
  /\ mtime letter_a <> mtime letter_a_again
  /\ fst (CompareResources.calculate_md5 "/t/a1" letter_a [])
     = fst (CompareResources.calculate_md5 "/u/copy" letter_a_again [EvPrint MsgRule]).
Proof.
  split; [reflexivity|]. split; [reflexivity|]. split; [reflexivity|].
  split; [discriminate|].
  exact (proj1 (digest_of_content_alone "/t/a1"%string "/u/copy"%string
                  letter_a letter_a_again [] [EvPrint MsgRule]
                  eq_refl eq_refl eq_refl)).
Defined.

Lemma two_chunks_reads_ok : reads_ok two_chunks = true.
Proof. vm_compute. reflexivity. Qed.

Lemma chunked_hash_is_whole_hash_witness :
  reads_ok two_chunks = true
  /\ Md5.hexdigest
       (fold_left Md5.update
          (chunks (List.length (content two_chunks)) 4096 (content two_chunks))
          Md5.md5_new)
     = Md5.md5_hex (content two_chunks).
Proof.
  split; [exact two_chunks_reads_ok|].
  exact (proj1 (proj2 (proj2 (proj2 (proj2
           (chunked_hash_is_whole_hash two_chunks two_chunks_reads_ok)))))).
Defined.

Lemma empty_file_fingerprint_witness :
  content empty_file = [] /\ reads_ok empty_file = true
  /\ forall file_path tr,
       fst (CompareResources.calculate_md5 file_path empty_file tr)
       = Returned md5_of_nothing.
Proof.
  split; [reflexivity|]. split; [reflexivity|].
  exact (proj1 (proj2 (proj2 (proj2
           (empty_file_fingerprint empty_file eq_refl eq_refl))))).
Defined.

(** The claim C7 fails for the cross-tree scripts: with a root that does not
    exist, or one that is a file, [main] prints the error and returns, and
    the exit status is 0. *)
Lemma bad_root_status_zero :
  isdir sample_host "/missing" = false
  /\ isdir sample_host "/f" = false
  /\ run (CompareResourcesCli.main sample_host plain_os "/missing" "/t" "/out/r.xlsx")
     = (Returned tt, [EvPrint (MsgDirMissing "/missing")])
  /\ exit_status
       (fst (run (CompareResourcesCli.main sample_host plain_os
                    "/missing" "/t" "/out/r.xlsx"))) = 0
  /\ exit_status
       (fst (run (CompareResourcesCli.main sample_host plain_os
                    "/t" "/f" "/out/r.xlsx"))) = 0.
Proof. vm_compute. repeat split. Qed.

Lemma plain_os_generous : generous plain_os.
Proof. repeat split; discriminate. Qed.

Lemma fatal_root_handling_witness :
  isdir sample_host "/f" = false
  /\ isdir sample_host "/t" = true
  /\ generous plain_os
  /\ map fst (unreadable (walk_files sample_host "/t"))
     = ["/t/locked"; "/t/sub/torn"]%string
  /\ (exit_status
        (fst (run (FindDuplicatesCli.main sample_host plain_os
                     ["find.py"; "/f"]%string))) = 1
      /\ opened
           (snd (run (FindDuplicatesCli.main sample_host plain_os
                        ["find.py"; "/f"]%string))) = []
      /\ outs
           (snd (run (FindDuplicatesCli.main sample_host plain_os
                        ["find.py"; "/f"]%string))) = [])
  /\ exit_status
       (fst (run (FindDuplicatesCli.main sample_host plain_os
                    ["find.py"; "/t"]%string))) = 0.
Proof.
  split; [reflexivity|]. split; [reflexivity|].
  split; [exact plain_os_generous|]. split; [reflexivity|]. split.
  - exact (proj1 (proj2 (fatal_root_handling sample_host plain_os))
             "find.py"%string "/f"%string [] eq_refl).
  - exact (proj1 (proj2 (proj2 (proj2 (proj2 (proj2
             (fatal_root_handling sample_host plain_os)))))
             plain_os_generous)
             "find.py"%string "/t"%string [] eq_refl).
Defined.

(** * More properties of the scripts *)

(** ** The lists of an index *)

Lemma setitem_absent {V : Type} (d : dict V) (k : string) (v : V) :
  getitem d k = None -> setitem d k v = (d ++ [(k, v)])%list.
Proof.
  induction d as [|[k0 v0] d IH]; cbn [getitem setitem app]; [reflexivity|].
  destruct (String.eqb k0 k); [discriminate|]. intros E. now rewrite IH.
Qed.

Lemma setitem_present_paths (d : dict (list string)) (k p : string)
    (l : list string) :
  getitem d k = Some l ->
  Permutation (flat_map snd (setitem d k (l ++ [p])%list))
              (flat_map snd d ++ [p])%list.
Proof.
  induction d as [|[k0 v0] d IH]; cbn [getitem setitem flat_map snd];
    [discriminate|].
  destruct (String.eqb k0 k).
  - intros [= ->]. cbn [flat_map snd]. rewrite <- !app_assoc.
    apply Permutation_app_head, Permutation_app_comm.
  - intros E. cbn [flat_map snd]. rewrite <- app_assoc.
    now apply Permutation_app_head, IH.
Qed.

Lemma add_path_paths (d : dict (list string)) (k p : string) :
  Permutation (flat_map snd (add_path d k p)) (flat_map snd d ++ [p])%list.
Proof.
  unfold add_path. destruct (getitem d k) as [l|] eqn:E.
  - now apply setitem_present_paths.
  - rewrite (setitem_absent d k [p] E), flat_map_app. cbn [flat_map snd app].
    reflexivity.
Qed.

Lemma fold_add_paths (es : list (string * string)) :
  forall d : dict (list string),
    Permutation
      (flat_map snd (fold_left (fun d '(k, p) => add_path d k p) es d))
      (flat_map snd d ++ map snd es)%list.
Proof.
  induction es as [|[k p] es IH]; intros d; cbn [fold_left map snd].
  - now rewrite app_nil_r.
  - rewrite IH, add_path_paths, <- app_assoc. reflexivity.
Qed.

Lemma fingerprints_paths (fs : list (string * file)) :
  map snd (fingerprints fs) = map fst (readable fs).
Proof.
  unfold fingerprints, readable.
  induction fs as [|[p f] fs IH]; [reflexivity|].
  cbn [flat_map filter snd]. rewrite map_app, IH.
  destruct (reads_ok f); reflexivity.
Qed.

Lemma list_sum_lengths (d : dict (list string)) :
  list_sum (map (fun e => List.length (snd e)) d) = List.length (flat_map snd d).
Proof.
  induction d as [|[k v] d IH]; [reflexivity|].
  cbn [map flat_map snd]. rewrite length_app, <- IH. reflexivity.
Qed.

(** The index as a partition of the readable files. *)
Lemma index_of_partition (fs : list (string * file)) :
  Permutation (flat_map snd (index_of fs)) (map fst (readable fs))
  /\ list_sum (map (fun e => List.length (snd e)) (index_of fs))
     = List.length (readable fs).
Proof.
  assert (P : Permutation (flat_map snd (index_of fs)) (map fst (readable fs))).
  { unfold index_of. rewrite fold_add_paths. cbn [flat_map app].
    now rewrite fingerprints_paths. }
  split; [exact P|].
  rewrite list_sum_lengths, (Permutation_length P). apply length_map.
Qed.

(** X1. The list of paths that a scan holds under a digest is the list of
    the walked files that could be read and have that digest, in walk order;
    so are the two sides of every group of [compare_directories]. *)
Theorem paths_in_walk_order (h : host) :
  let same d := fun pf : string * file =>
                  reads_ok (snd pf)
                  && String.eqb (Md5.md5_hex (content (snd pf))) d in
  (forall directory d,
      exists idx,
        fst (run (CompareResources.scan_directory h directory)) = Returned idx
        /\ paths_at idx d
           = map fst (filter (same d) (walk_files h (abspath h directory))))
  /\ (forall directory d,
         exists idx,
           fst (run (FindDuplicates.scan h directory)) = Returned idx
           /\ paths_at idx d = map fst (filter (same d) (walk_files h directory)))
  /\ (forall dir1 dir2,
         exists results,
           fst (run (CompareResources.compare_directories h dir1 dir2))
           = Returned results
           /\ forall d files1 files2,
                In (d, files1, files2) results ->
                files1 = map fst (filter (same d) (walk_files h (abspath h dir1)))
                /\ files2 = map fst (filter (same d) (walk_files h (abspath h dir2)))).
Proof.
  intros same.
  assert (A : forall fs d, paths_at (index_of fs) d = map fst (filter (same d) fs))
    by (intros fs d; now rewrite index_of_paths_at, fingerprint_paths).
  split; [|split].
  - intros directory d. unfold run.
    destruct (cr_scan_directory_spec h directory []) as [evs [E _]].
    rewrite E. eexists. split; [reflexivity | apply A].
  - intros directory d. unfold run.
    destruct (fd_scan_spec h directory []) as [evs [E _]].
    rewrite E. eexists. split; [reflexivity | apply A].
  - intros dir1 dir2. unfold run.
    destruct (compare_directories_spec h dir1 dir2 []) as [evs [E _]].
    rewrite E. eexists. split; [reflexivity|].
    intros d files1 files2 Hin. unfold groups_across in Hin.
    apply in_map_iff in Hin. destruct Hin as [k [Ek _]].
    injection Ek as -> <- <-. split; apply A.
Qed.

(** X2. A scan puts every file that could be read in exactly one list: the
    lists of the index, one after the other, are a rearrangement of the paths
    of the readable files of the walk, and their lengths add up to the number
    of these files. *)
Theorem index_partitions_readable_files (h : host) (directory : string) :
  (exists idx,
      fst (run (CompareResources.scan_directory h directory)) = Returned idx
      /\ Permutation (flat_map snd idx)
           (map fst (readable (walk_files h (abspath h directory))))
      /\ list_sum (map (fun e => List.length (snd e)) idx)
         = List.length (readable (walk_files h (abspath h directory))))
  /\ (exists idx,
         fst (run (FindDuplicates.scan h directory)) = Returned idx
         /\ Permutation (flat_map snd idx)
              (map fst (readable (walk_files h directory)))
         /\ list_sum (map (fun e => List.length (snd e)) idx)
            = List.length (readable (walk_files h directory))).
Proof.
  unfold run. split.
  - destruct (cr_scan_directory_spec h directory []) as [evs [E _]].
    rewrite E. eexists. split; [reflexivity | apply index_of_partition].
  - destruct (fd_scan_spec h directory []) as [evs [E _]].
    rewrite E. eexists. split; [reflexivity | apply index_of_partition].
Qed.

(** ** What a scan prints last *)

Section ForEachEvents.
Context {X S : Type}.
Variables (body : X -> S -> M S) (g : X -> S -> S) (P : event -> Prop).

Hypothesis body_events :
  forall x s tr, exists evs,
    body x s tr = (Returned (g x s), tr ++ evs)%list /\ Forall P evs.

Lemma for_each_events (xs : list X) :
  forall s tr, exists evs,
    for_each xs body s tr
    = (Returned (fold_left (fun s x => g x s) xs s), tr ++ evs)%list
    /\ Forall P evs.
Proof.
  induction xs as [|x xs IH]; intros s tr; cbn [for_each fold_left].
  - exists []. unfold ret. rewrite app_nil_r. now split.
  - destruct (body_events x s tr) as [e1 [E1 F1]].
    destruct (IH (g x s) (tr ++ e1)%list) as [e2 [E2 F2]].
    exists (e1 ++ e2)%list. unfold bind. rewrite E1, E2, app_assoc.
    split; [reflexivity | now apply Forall_app].
Qed.

End ForEachEvents.

Lemma cr_scan_file_events (root : string) (x : string * file)
    (st : dict (list string) * nat) (tr : list event) :
  exists evs,
    CompareResources.scan_file root x st tr
    = (Returned (cr_visit root x st), tr ++ evs)%list
    /\ Forall scan_event evs.
Proof.
  destruct x as [filename f], st as [d n].
  unfold CompareResources.scan_file, cr_visit, bind. cbn [fst snd].
  rewrite cr_calculate_md5_spec. destruct (reads_ok f) eqn:R.
  - unfold Md5.md5_hex at 1. rewrite hexdigest_truthy.
    fold (Md5.md5_hex (content f)).
    set (k := Md5.md5_hex (content f)). set (p := join root filename).
    assert (A : forall tr0,
               CompareResources.append_at
                 (if negb (contains d k) then setitem d k [] else d) k p tr0
               = (Returned (add_path d k p), tr0)).
    { intros tr0. unfold CompareResources.append_at, add_path, contains.
      destruct (getitem d k) as [paths|] eqn:E; cbn [negb].
      - now rewrite E.
      - rewrite getitem_setitem, String.eqb_refl. unfold ret.
        now rewrite setitem_setitem. }
    rewrite A.
    destruct (Nat.eqb (S n mod 100) 0).
    + exists [EvOpen p; EvPrint (MsgProcessed (S n))].
      unfold print, emit, ret. rewrite <- app_assoc.
      split; [reflexivity | repeat constructor].
    + exists [EvOpen p]. split; [reflexivity | repeat constructor].
  - cbn [truthy String.eqb negb]. unfold ret.
    exists [EvOpen (join root filename); EvPrint (MsgMd5Failed (join root filename))].
    split; [reflexivity | repeat constructor].
Qed.

Lemma fd_scan_file_events (root : string) (x : string * file)
    (st : dict (list string) * nat) (tr : list event) :
  exists evs,
    FindDuplicates.scan_file root x st tr
    = (Returned (fd_visit root x st), tr ++ evs)%list
    /\ Forall scan_event evs.
Proof.
  destruct (fd_scan_file_spec root x st tr) as [evs [E [Ho Hr]]].
  exists evs. split; [exact E|].
  destruct x as [filename f], st as [d n].
  unfold FindDuplicates.scan_file, bind in E. cbn [fst snd] in E.
  assert (Q : forall tr0 o tr1,
             FindDuplicates.calculate_md5 (join root filename) f tr0 = (o, tr1) ->
             exists e, tr1 = (tr0 ++ e)%list /\ Forall scan_event e).
  { intros tr0 o tr1. rewrite fd_calculate_md5_spec.
    destruct (reads_ok f); intros [= _ <-]; eexists;
      (split; [reflexivity | repeat constructor]). }
  destruct (Nat.eqb (S n mod 100) 0).
  - unfold print, emit in E.
    destruct (FindDuplicates.calculate_md5 _ f _) as [o tr1] eqn:C.
    destruct (Q _ _ _ C) as [e [-> Fe]].
    assert (T : (tr ++ evs)%list
                = ((tr ++ [EvPrint (MsgScanned (S n))]) ++ e)%list).
    { destruct o as [v| |]; [|discriminate E|discriminate E].
      destruct (truthy_opt v); [destruct v|]; unfold ret in E;
        now injection E as _ <-. }
    rewrite <- app_assoc in T. apply app_inv_head in T. subst evs.
    apply Forall_app. split; [repeat constructor | exact Fe].
  - unfold ret at 1 in E.
    destruct (FindDuplicates.calculate_md5 _ f _) as [o tr1] eqn:C.
    destruct (Q _ _ _ C) as [e [-> Fe]].
    assert (T : (tr ++ evs)%list = (tr ++ e)%list).
    { destruct o as [v| |]; [|discriminate E|discriminate E].
      destruct (truthy_opt v); [destruct v|]; unfold ret in E;
        now injection E as _ <-. }
    apply app_inv_head in T. now subst evs.
Qed.

Lemma cr_count (root : string) (files : list (string * file)) :
  forall st : dict (list string) * nat,
    snd (fold_left (fun s x => cr_visit root x s) files st)
    = (snd st + List.length (readable (map (fun '(filename, f) =>
                                              (join root filename, f)) files)))%nat.
Proof.
  unfold readable.
  induction files as [|[filename f] files IH]; intros st;
    cbn [fold_left map filter snd]; [cbn [List.length]; lia|].
  rewrite IH. unfold cr_visit. cbn [snd fst].
  destruct (reads_ok f); cbn [snd List.length]; lia.
Qed.

Lemma fd_count (root : string) (files : list (string * file)) :
  forall st : dict (list string) * nat,
    snd (fold_left (fun s x => fd_visit root x s) files st)
    = (snd st + List.length files)%nat.
Proof.
  induction files as [|x files IH]; intros st; cbn [fold_left List.length]; [lia|].
  rewrite IH. unfold fd_visit. cbn [snd]. lia.
Qed.

Lemma cr_count_walk (w : list (string * list string * list (string * file))) :
  forall st : dict (list string) * nat,
    snd (fold_left
           (fun s (x : string * list string * list (string * file)) =>
              let '(root, dirs, files) := x in
              fold_left (fun s x => cr_visit root x s) files s) w st)
    = (snd st
       + List.length
           (readable
              (flat_map (fun '(root, dirs, files) =>
                           map (fun '(filename, f) => (join root filename, f)) files)
                        w)))%nat.
Proof.
  induction w as [|[[root dirs] files] w IH]; intros st;
    cbn [fold_left flat_map]; [cbn; lia|].
  rewrite IH, cr_count. unfold readable. rewrite filter_app, length_app. lia.
Qed.

Lemma fd_count_walk (w : list (string * list string * list (string * file))) :
  forall st : dict (list string) * nat,
    snd (fold_left
           (fun s (x : string * list string * list (string * file)) =>
              let '(root, dirs, files) := x in
              fold_left (fun s x => fd_visit root x s) files s) w st)
    = (snd st
       + List.length
           (flat_map (fun '(root, dirs, files) =>
                        map (fun '(filename, f) => (join root filename, f)) files)
                     w))%nat.
Proof.
  induction w as [|[[root dirs] files] w IH]; intros st;
    cbn [fold_left flat_map]; [cbn; lia|].
  rewrite IH, fd_count, length_app, length_map. lia.
Qed.

(** The whole trace of [scan_directory]: the first line, the events of the
    files, the summary. *)
Lemma cr_scan_directory_trace (h : host) (directory : string) (tr : list event) :
  exists evs,
    CompareResources.scan_directory h directory tr
    = (Returned (index_of (walk_files h (abspath h directory))),
       tr ++ [EvPrint (MsgScanning (abspath h directory))] ++ evs
          ++ [EvPrint
                (MsgScanDone
                   (List.length (readable (walk_files h (abspath h directory))))
                   (List.length (index_of (walk_files h (abspath h directory)))))])%list
    /\ Forall scan_event evs.
Proof.
  unfold CompareResources.scan_directory, bind, print, emit.
  set (w := os_walk h (abspath h directory)).
  set (body := fun '((root, dirs, files)
                        : string * list string * list (string * file))
                     (st : dict (list string) * nat) =>
                 for_each files (CompareResources.scan_file root) st).
  destruct (for_each_events body
              (fun x st => let '(root, dirs, files) := x in
                           fold_left (fun s x => cr_visit root x s) files st)
              scan_event)
    with (xs := w) (s := (@nil (string * list string), 0%nat))
         (tr := (tr ++ [EvPrint (MsgScanning (abspath h directory))])%list)
    as [evs [E Fe]].
  { intros [[root dirs] files] s tr0. unfold body.
    apply for_each_events. intros x s0 tr1. apply cr_scan_file_events. }
  rewrite E.
  pose proof (outer_index cr_visit cr_visit_index w ([], 0%nat)) as OI.
  pose proof (cr_count_walk w ([], 0%nat)) as CW.
  match type of OI with
  | fst ?st = _ => destruct st as [d n] eqn:F
  end.
  cbn [fst snd] in OI, CW. unfold ret.
  exists evs. split; [|exact Fe].
  subst d n. unfold index_of, walk_files. fold w.
  now rewrite <- !app_assoc.
Qed.

Lemma fd_scan_trace (h : host) (directory : string) (tr : list event) :
  exists evs,
    FindDuplicates.scan h directory tr
    = (Returned (index_of (walk_files h directory)),
       tr ++ [EvPrint (MsgScanning directory)] ++ evs
          ++ [EvPrint (MsgScanComplete (List.length (walk_files h directory)))])%list
    /\ Forall scan_event evs.
Proof.
  unfold FindDuplicates.scan, bind, print, emit.
  set (w := os_walk h directory).
  set (body := fun '((root, dirs, files)
                        : string * list string * list (string * file))
                     (st : dict (list string) * nat) =>
                 for_each files (FindDuplicates.scan_file root) st).
  destruct (for_each_events body
              (fun x st => let '(root, dirs, files) := x in
                           fold_left (fun s x => fd_visit root x s) files st)
              scan_event)
    with (xs := w) (s := (@nil (string * list string), 0%nat))
         (tr := (tr ++ [EvPrint (MsgScanning directory)])%list)
    as [evs [E Fe]].
  { intros [[root dirs] files] s tr0. unfold body.
    apply for_each_events. intros x s0 tr1. apply fd_scan_file_events. }
  rewrite E.
  pose proof (outer_index fd_visit fd_visit_index w ([], 0%nat)) as OI.
  pose proof (fd_count_walk w ([], 0%nat)) as CW.
  match type of OI with
  | fst ?st = _ => destruct st as [d n] eqn:F
  end.
  cbn [fst snd] in OI, CW. unfold ret.
  exists evs. split; [|exact Fe].
  subst d n. unfold index_of, walk_files. fold w.
  now rewrite <- !app_assoc.
Qed.

(** X3. The last line of [scan_directory] gives the number of files that
    could be read and the number of digests in the index, which is the number
    of different digests met; the last line of the scanning loop of
    [find_duplicate_files] gives the number of all files of the walk, the
    unreadable ones included. *)
Theorem scan_summary_counts (h : host) (directory : string) :
  (exists idx evs,
      run (CompareResources.scan_directory h directory)
      = (Returned idx,
         evs ++ [EvPrint
                   (MsgScanDone
                      (List.length
                         (readable (walk_files h (abspath h directory))))
                      (List.length (keys idx)))])%list
      /\ keys idx = discovery_order (walk_files h (abspath h directory))
      /\ NoDup (keys idx))
  /\ (exists idx evs,
         run (FindDuplicates.scan h directory)
         = (Returned idx,
            evs ++ [EvPrint
                      (MsgScanComplete (List.length (walk_files h directory)))])%list).
Proof.
  unfold run. split.
  - destruct (cr_scan_directory_trace h directory []) as [evs [E _]].
    rewrite E. do 2 eexists. split; [|split].
    + unfold keys. rewrite length_map. cbn [app]. rewrite app_comm_cons.
      reflexivity.
    + apply index_of_keys.
    + apply index_of_nodup.
  - destruct (fd_scan_trace h directory []) as [evs [E _]].
    rewrite E. do 2 eexists. cbn [app]. rewrite app_comm_cons. reflexivity.
Qed.

(** ** The two trees exchanged *)

Lemma common_digests_swap (A B : dict (list string)) :
  sorted (common_digests B A) = sorted (common_digests A B).
Proof.
  apply sorted_order_free.
  apply NoDup_Permutation; try apply common_digests_nodup.
  intros k. rewrite !common_digests_In. tauto.
Qed.

Lemma groups_across_swap (A B : dict (list string)) :
  groups_across B A = map swap_sides (groups_across A B).
Proof.
  unfold groups_across. now rewrite map_map, common_digests_swap.
Qed.

(** X4. Comparing the directories in the other order gives the same groups
    in the same order, each with its two sides exchanged. *)
Theorem compare_directories_swap (h : host) (dir1 dir2 : string) :
  exists results results',
    fst (run (CompareResources.compare_directories h dir1 dir2)) = Returned results
    /\ fst (run (CompareResources.compare_directories h dir2 dir1))
       = Returned results'
    /\ results' = map swap_sides results.
Proof.
  unfold run.
  destruct (compare_directories_spec h dir1 dir2 []) as [e1 [E1 _]].
  destruct (compare_directories_spec h dir2 dir1 []) as [e2 [E2 _]].
  rewrite E1, E2. do 2 eexists.
  split; [reflexivity|]. split; [reflexivity|]. apply groups_across_swap.
Qed.

(** ** When a report is written *)

Lemma index_contains_iff (fs : list (string * file)) (d : string) :
  contains (index_of fs) d = existsb (has_digest d) fs.
Proof.
  rewrite index_of_contains. apply eq_true_iff_eq. rewrite !existsb_exists. split.
  - intros [[k p] [Hin Hk]]. cbn [fst] in Hk. apply String.eqb_eq in Hk. subst k.
    apply In_fingerprints in Hin. destruct Hin as [f [Hin [R E]]].
    exists (p, f). split; [assumption|]. unfold has_digest. cbn [snd].
    now rewrite R, <- E, String.eqb_refl.
  - intros [[p f] [Hin Hd]]. unfold has_digest in Hd. cbn [snd] in Hd.
    apply andb_true_iff in Hd. destruct Hd as [R E]. apply String.eqb_eq in E.
    exists (d, p). split; [|apply String.eqb_refl].
    apply In_fingerprints. exists f. now repeat split.
Qed.

Lemma groups_across_nonempty (fs1 fs2 : list (string * file)) :
  groups_across (index_of fs1) (index_of fs2) <> []
  <-> exists d, shared_digest fs1 fs2 d.
Proof.
  unfold shared_digest, groups_across. split.
  - intros N. destruct (sorted _) as [|k ks] eqn:E; [now elim N|].
    exists k. rewrite <- !index_contains_iff. apply common_digests_In.
    apply (Permutation_in k (sorted_perm _)). rewrite E. now left.
  - intros [d Hd]. rewrite <- !index_contains_iff in Hd.
    apply common_digests_In in Hd.
    apply (Permutation_in d (Permutation_sym (sorted_perm _))) in Hd.
    destruct (sorted _); [destruct Hd | discriminate].
Qed.

Lemma compare_directories_trace (h : host) (dir1 dir2 : string) (tr : list event) :
  exists evs,
    CompareResources.compare_directories h dir1 dir2 tr
    = (Returned (groups_across (index_of (walk_files h (abspath h dir1)))
                               (index_of (walk_files h (abspath h dir2)))),
       tr ++ evs)%list
    /\ Forall scan_event evs.
Proof.
  unfold CompareResources.compare_directories. rewrite !bind_print.
  match goal with
  | |- context [bind (CompareResources.scan_directory h dir1) _ ?t] =>
      destruct (cr_scan_directory_trace h dir1 t) as [e1 [E1 F1]]
  end.
  rewrite (bind_returned _ _ _ _ _ E1).
  match goal with
  | |- context [bind (CompareResources.scan_directory h dir2) _ ?t] =>
      destruct (cr_scan_directory_trace h dir2 t) as [e2 [E2 F2]]
  end.
  rewrite (bind_returned _ _ _ _ _ E2), match_across_spec.
  eexists. split.
  - f_equal. rewrite <- !app_assoc. reflexivity.
  - repeat (apply Forall_app; split); repeat constructor; assumption.
Qed.

Lemma find_duplicate_files_trace (h : host) (directory : string)
    (tr : list event) :
  isdir h directory = true ->
  exists evs,
    FindDuplicates.find_duplicate_files h directory tr
    = (Returned (FindDuplicates.duplicates (index_of (walk_files h directory))),
       tr ++ evs)%list
    /\ Forall scan_event evs.
Proof.
  intros D. unfold FindDuplicates.find_duplicate_files.
  rewrite (isdir_exists h directory D), D. cbn [negb].
  destruct (fd_scan_trace h directory tr) as [evs [E Fe]].
  unfold bind at 1, ret at 1. unfold bind at 1, ret at 1.
  rewrite (bind_returned _ _ _ _ _ E). eexists. split; [reflexivity|].
  repeat (apply Forall_app; split); repeat constructor; assumption.
Qed.

Lemma duplicates_nonempty (fs : list (string * file)) :
  FindDuplicates.duplicates (index_of fs) <> [] <-> exists d, duplicated fs d.
Proof.
  assert (A : forall d, paths_at (index_of fs) d = map fst (filter (has_digest d) fs))
    by (intros d; now rewrite index_of_paths_at, fingerprint_paths).
  pose proof (index_of_nodup fs) as ND.
  unfold duplicated. split.
  - intros N. destruct (FindDuplicates.duplicates (index_of fs)) as [|[k v] l] eqn:E;
      [now elim N|].
    assert (Hin : In (k, v) (FindDuplicates.duplicates (index_of fs)))
      by (rewrite E; now left).
    unfold FindDuplicates.duplicates in Hin. apply filter_In in Hin.
    destruct Hin as [Hin L]. apply Nat.ltb_lt in L.
    apply (In_getitem _ _ _ ND) in Hin. exists k.
    rewrite <- (length_map fst), <- A. unfold paths_at. now rewrite Hin.
  - intros [d L]. rewrite <- (length_map fst), <- A in L.
    unfold paths_at in L. destruct (getitem (index_of fs) d) as [v|] eqn:G;
      [|cbn in L; lia].
    apply getitem_In in G.
    assert (Hin : In (d, v) (FindDuplicates.duplicates (index_of fs))).
    { unfold FindDuplicates.duplicates. apply filter_In. split; [exact G|].
      now apply Nat.ltb_lt. }
    intros E. rewrite E in Hin. destruct Hin.
Qed.

(** ** The CSV sheet of the duplicate finder *)
Section CsvSheet.
Import Report.
Variable os : os_view.

Lemma csv_groups_entries (d : dict (list string)) :
  forall n, flat_map csv_entry (csv_groups os n d) = entries d.
Proof.
  unfold entries.
  induction d as [|[md5 paths] d IH]; intros n; [reflexivity|].
  cbn [csv_groups flat_map fst snd]. rewrite flat_map_app, IH. f_equal.
  induction paths as [|p paths IHp]; [reflexivity|].
  cbn [map flat_map csv_row csv_entry app]. now rewrite IHp.
Qed.

Lemma csv_groups_numbers (d : dict (list string)) :
  forall n, flat_map first_cell (csv_groups os n d) = group_numbers n d.
Proof.
  induction d as [|[md5 paths] d IH]; intros n; [reflexivity|].
  cbn [csv_groups group_numbers snd]. rewrite flat_map_app, IH. f_equal.
  induction paths as [|p paths IHp]; [reflexivity|].
  cbn [map flat_map csv_row first_cell app repeat List.length]. now rewrite IHp.
Qed.

Lemma csv_groups_length (d : dict (list string)) :
  forall n,
    List.length (csv_groups os n d)
    = list_sum (map (fun e => List.length (snd e)) d).
Proof.
  induction d as [|[md5 paths] d IH]; intros n; [reflexivity|].
  cbn [csv_groups map snd]. rewrite length_app, length_map, IH. reflexivity.
Qed.

Lemma csv_groups_width (d : dict (list string)) :
  forall n, Forall (fun r => List.length r = 4%nat) (csv_groups os n d).
Proof.
  induction d as [|[md5 paths] d IH]; intros n; [constructor|].
  cbn [csv_groups]. apply Forall_app. split; [|apply IH].
  apply Forall_forall. intros r Hr. apply in_map_iff in Hr.
  now destruct Hr as [p [<- _]].
Qed.

End CsvSheet.

(** X7. The data rows of the CSV sheet, whatever sizes can be read: there is
    one row of four cells for every path of every group, in the order of the
    groups and of their paths, carrying the digest and the path; the first
    column numbers the groups from 1, each number repeated for the paths of
    its group; a size that cannot be read does not remove a row. *)
Theorem csv_rows_layout (os : os_view) (duplicate_files : dict (list string)) :
  let rows := Report.csv_groups os 1 duplicate_files in
  flat_map Report.csv_entry rows = entries duplicate_files
  /\ flat_map first_cell rows = group_numbers 1 duplicate_files
  /\ List.length rows
     = list_sum (map (fun e => List.length (snd e)) duplicate_files)
  /\ Forall (fun r => List.length r = 4%nat) rows.
Proof.
  cbv zeta. split; [apply csv_groups_entries|].
  split; [apply csv_groups_numbers|].
  split; [apply csv_groups_length | apply csv_groups_width].
Qed.

(** ** From the sheet back to the groups *)

Lemma getitem_last {V : Type} (d : dict V) (k : string) (v : V) :
  ~ In k (keys d) -> getitem (d ++ [(k, v)]) k = Some v.
Proof.
  induction d as [|[k0 v0] d IH]; cbn [app getitem keys map fst In]; intros N.
  - now rewrite String.eqb_refl.
  - destruct (String.eqb_spec k0 k) as [->|_]; [tauto|]. apply IH. tauto.
Qed.

Lemma setitem_last {V : Type} (d : dict V) (k : string) (v v' : V) :
  ~ In k (keys d) -> setitem (d ++ [(k, v)]) k v' = (d ++ [(k, v')])%list.
Proof.
  induction d as [|[k0 v0] d IH]; cbn [app setitem keys map fst In]; intros N.
  - now rewrite String.eqb_refl.
  - destruct (String.eqb_spec k0 k) as [->|_]; [tauto|]. rewrite IH; tauto.
Qed.

Lemma add_path_absent (d : dict (list string)) (k p : string) :
  ~ In k (keys d) -> add_path d k p = (d ++ [(k, [p])])%list.
Proof.
  intros N. unfold add_path. rewrite (getitem_absent d k N).
  apply setitem_absent. now apply getitem_absent.
Qed.

Lemma add_path_last (d : dict (list string)) (k p : string) (l : list string) :
  ~ In k (keys d) ->
  add_path (d ++ [(k, l)])%list k p = (d ++ [(k, l ++ [p])])%list.
Proof.
  intros N. unfold add_path. rewrite (getitem_last d k l N).
  now apply setitem_last.
Qed.

Lemma add_paths_last (d : dict (list string)) (k : string) (ps : list string) :
  ~ In k (keys d) ->
  forall l,
    fold_left (fun d e => let '(k, p) := e in add_path d k p)
      (map (pair k) ps) (d ++ [(k, l)])%list
    = (d ++ [(k, l ++ ps)])%list.
Proof.
  intros N. induction ps as [|p ps IH]; intros l; cbn [map fold_left].
  - now rewrite app_nil_r.
  - rewrite (add_path_last d k p l N), IH. now rewrite <- app_assoc.
Qed.

Lemma rebuild (d2 : dict (list string)) :
  forall d1 : dict (list string),
    NoDup (keys (d1 ++ d2)) ->
    (forall k v, In (k, v) d2 -> v <> []) ->
    fold_left (fun d e => let '(k, p) := e in add_path d k p) (entries d2) d1
    = (d1 ++ d2)%list.
Proof.
  unfold entries.
  induction d2 as [|[k v] d2 IH]; intros d1 ND NE; cbn [flat_map fst snd].
  - now rewrite app_nil_r.
  - rewrite fold_left_app.
    assert (N : ~ In k (keys d1)).
    { unfold keys in *. rewrite map_app in ND. cbn [map fst] in ND.
      apply NoDup_remove_2 in ND. intros H. apply ND, in_or_app. now left. }
    destruct v as [|p v]; [now elim (NE k [] (or_introl eq_refl))|].
    cbn [map fold_left]. rewrite (add_path_absent d1 k p N).
    rewrite (add_paths_last d1 k v N [p]). cbn [app].
    rewrite IH.
    + now rewrite <- app_assoc.
    + now rewrite <- app_assoc.
    + intros k' v' H. apply (NE k' v'). now right.
Qed.

(** X8. The sheet holds the groups: feeding the digest and path of its data
    rows, in order, to the operation with which the scanner builds its index
    gives back the groups that were exported, when no digest has two groups
    and no group is empty. *)
Theorem csv_round_trip (os : os_view) (duplicate_files : dict (list string)) :
  NoDup (keys duplicate_files) ->
  (forall k v, In (k, v) duplicate_files -> v <> []) ->
  fold_left (fun d e => let '(k, p) := e in add_path d k p)
    (flat_map Report.csv_entry (Report.csv_groups os 1 duplicate_files)) []
  = duplicate_files.
Proof.
  intros ND NE. rewrite csv_groups_entries. now apply (rebuild duplicate_files []).
Qed.

(** ** What [export_to_csv] does *)
Section CsvExport.
Import Report PosixPath.
Variable os : os_view.

Lemma details_quiet (d : dict (list string)) :
  forall n, created (details os n d) = [] /\ handed (details os n d) = []
            /\ totals (details os n d) = [] /\ made_dirs (details os n d) = []
            /\ ~ In (OPrint NoDuplicates) (details os n d).
Proof.
  induction d as [|[md5 paths] d IH]; intros n; [now repeat split|].
  cbn [details]. unfold created, handed, totals, made_dirs in *.
  cbn [flat_map app]. rewrite !flat_map_app.
  destruct (IH (S n)) as [-> [-> [-> [-> N]]]]. rewrite !app_nil_r.
  assert (P : forall l : list string,
             flat_map (fun e => match e with OOpen p => [p] | _ => [] end)
               (map (fun path => OPrint (DetailPath path (getsize os path))) l) = []
             /\ flat_map (fun e => match e with OWriterow _ r => [r] | _ => [] end)
                  (map (fun path => OPrint (DetailPath path (getsize os path))) l) = []
             /\ flat_map (fun e => match e with
                                   | OPrint (TotalDuplicates n) => [n]
                                   | _ => []
                                   end)
                  (map (fun path => OPrint (DetailPath path (getsize os path))) l) = []
             /\ flat_map (fun e => match e with OMakedirs d => [d] | _ => [] end)
                  (map (fun path => OPrint (DetailPath path (getsize os path))) l) = []
             /\ ~ In (OPrint NoDuplicates)
                  (map (fun path => OPrint (DetailPath path (getsize os path))) l)).
  { induction l as [|p l IHl]; [now repeat split|].
    cbn [map flat_map app In]. destruct IHl as [A [B [C [D E]]]].
    repeat split; try assumption. intros [H|H]; [discriminate | now apply E]. }
  destruct (P paths) as [A [B [C [D E]]]].
  repeat split; try assumption.
  intros [H|H]; [discriminate|]. apply in_app_or in H. tauto.
Qed.

Lemma writerows_quiet (output_file : string) (rows : list row) :
  created (map (OWriterow output_file) rows) = []
  /\ handed (map (OWriterow output_file) rows) = rows
  /\ totals (map (OWriterow output_file) rows) = []
  /\ made_dirs (map (OWriterow output_file) rows) = []
  /\ ~ In (OPrint NoDuplicates) (map (OWriterow output_file) rows).
Proof.
  unfold created, handed, totals, made_dirs.
  induction rows as [|r rows [A [B [C [D E]]]]]; [now repeat split|].
  cbn [map flat_map app In]. rewrite B. repeat split; try assumption.
  intros [H|H]; [discriminate | now apply E].
Qed.

(** The rows handed over are the rows up to the first that is refused. *)
Lemma writerows_spec (output_file : string) (rows : list row) :
  forall n,
  exists k,
    snd (writerows os output_file n rows)
    = map (OWriterow output_file) (firstn k rows)
    /\ (forall i r, (i < k)%nat -> nth_error rows i = Some r ->
                    can_write os output_file (n + i) r = true)
    /\ match fst (writerows os output_file n rows) with
       | Completed => firstn k rows = rows
       | Failed => exists r, nth_error rows k = Some r
                             /\ can_write os output_file (n + k) r = false
       end.
Proof.
  induction rows as [|r rows IH]; intros n; cbn [writerows].
  - exists 0%nat. split; [reflexivity|]. split; [|reflexivity]. intros i r H. lia.
  - destruct (can_write os output_file n r) eqn:W.
    + destruct (IH (S n)) as [k [E [A F]]].
      destruct (writerows os output_file (S n) rows) as [e evs].
      cbn [fst snd] in *. exists (S k). cbn [firstn map].
      split; [now rewrite E|]. split.
      * intros [|i] r' Hi Hn; cbn [nth_error] in Hn.
        -- injection Hn as <-. now rewrite Nat.add_0_r.
        -- rewrite <- Nat.add_succ_comm. apply A; [lia | exact Hn].
      * destruct e; [now rewrite F|]. destruct F as [r' [Hn Hw]].
        exists r'. cbn [nth_error]. split; [exact Hn|].
        now rewrite <- Nat.add_succ_comm.
    + exists 0%nat. cbn [fst snd firstn map]. split; [reflexivity|].
      split; [intros i r' H; lia|]. exists r. split; [reflexivity|].
      now rewrite Nat.add_0_r.
Qed.

Lemma writerows_completed (output_file : string) (rows : list row) :
  fst (writerows os output_file 0 rows) = Completed
  <-> writable os output_file rows.
Proof.
  split.
  - intros C i r Hn.
    destruct (writerows_spec output_file rows 0) as [k [_ [A F]]].
    rewrite C in F. apply (A i r); [|exact Hn].
    assert (L : (i < List.length rows)%nat)
      by (apply nth_error_Some; now rewrite Hn).
    rewrite <- F, length_firstn in L. lia.
  - intros W. rewrite writerows_accepts; [reflexivity|]. intros i r. apply W.
Qed.

Lemma write_csv_spec (d : dict (list string)) (output_file : string)
    (before : list out_event) :
  created before = [] -> handed before = [] -> totals before = [] ->
  ~ In (OPrint NoDuplicates) before ->
  let out := write_csv os d output_file before in
  let rows := csv_header :: csv_groups os 1 d in
  (fst out = Completed
   <-> can_create os output_file = true /\ writable os output_file rows)
  /\ created (snd out) = (if can_create os output_file then [output_file] else [])
  /\ (exists k,
        handed (snd out) = firstn k rows
        /\ (forall i r, (i < k)%nat -> nth_error rows i = Some r ->
                        can_write os output_file i r = true)
        /\ (fst out = Failed -> can_create os output_file = true ->
            exists r, nth_error rows k = Some r
                      /\ can_write os output_file k r = false))
  /\ (fst out = Completed ->
      handed (snd out) = rows
      /\ totals (snd out) = [List.length (csv_groups os 1 d)])
  /\ (fst out = Failed -> totals (snd out) = [])
  /\ made_dirs (snd out) = made_dirs before
  /\ ~ In (OPrint NoDuplicates) (snd out)
  /\ (handed (snd out) = rows -> fst out = Completed).
Proof.
  intros Cb Hb Tb Nb out rows. subst out. unfold write_csv. fold rows.
  destruct (can_create os output_file) eqn:C.
  2:{ cbn [fst snd]. split; [split; [discriminate | intros [H _]; discriminate H]|].
      split; [exact Cb|]. split.
      - exists 0%nat. split; [exact Hb|]. split; [intros i r H; lia | discriminate].
      - split; [discriminate|]. split; [intros _; exact Tb|].
        split; [reflexivity|]. split; [exact Nb|]. rewrite Hb. discriminate. }
  pose proof (writerows_completed output_file rows) as WC.
  destruct (writerows_spec output_file rows 0) as [k [E [A F]]].
  destruct (writerows os output_file 0 rows) as [e ws].
  cbn [fst snd] in *. subst ws.
  destruct (writerows_quiet output_file (firstn k rows)) as [Qc [Qh [Qt [Qm Qn]]]].
  destruct (details_quiet d 1) as [Dc [Dh [Dt [Dm Dn]]]].
  destruct e; cbn [fst snd].
  - split; [split; [intros _; split; [reflexivity | now apply WC] | reflexivity]|].
    unfold created, handed, totals, made_dirs in *.
    rewrite !flat_map_app. cbn [flat_map app]. rewrite !flat_map_app.
    cbn [flat_map app]. rewrite Cb, Hb, Tb, Qc, Qh, Qt, Qm, Dc, Dh, Dt, Dm.
    cbn [app]. rewrite ?app_nil_r, F.
    split; [reflexivity|]. split.
    + exists k. rewrite F. split; [reflexivity|]. split; [exact A | discriminate].
    + split; [intros _; split; [reflexivity | now rewrite csv_groups_length]|].
      split; [discriminate|]. split; [reflexivity|]. split; [|reflexivity].
      intros H. apply in_app_or in H. destruct H as [H|H]; [now apply Nb|].
      destruct H as [H|H]; [discriminate|]. apply in_app_or in H.
      destruct H as [H|H]; [rewrite <- F in H; now apply Qn|].
      cbn [In] in H. destruct H as [H|[H|[H|[H|H]]]]; try discriminate H.
      now apply Dn.
  - split; [split; [discriminate|]|].
    { intros [_ W]. apply WC in W. discriminate W. }
    unfold created, handed, totals, made_dirs in *.
    rewrite !flat_map_app. cbn [flat_map app].
    rewrite Cb, Hb, Tb, Qc, Qh, Qt, Qm. cbn [app].
    split; [reflexivity|]. split.
    + exists k. split; [reflexivity|]. split; [exact A|]. intros _ _. exact F.
    + split; [discriminate|]. split; [reflexivity|]. split; [now rewrite app_nil_r|].
      split.
      * intros H. apply in_app_or in H. destruct H as [H|H]; [now apply Nb|].
        destruct H as [H|H]; [discriminate | now apply Qn].
      * intros H. exfalso. destruct F as [r [Hn _]].
        assert (L : (k < List.length rows)%nat)
          by (apply nth_error_Some; now rewrite Hn).
        apply (f_equal (@List.length row)) in H.
        rewrite length_firstn in H. lia.
Qed.

End CsvExport.

Lemma export_to_csv_spec (os : os_view)
    (duplicate_files : dict (list string)) (output_file : string) :
  let out := Report.export_to_csv os duplicate_files output_file in
  let rows := Report.csv_header :: Report.csv_groups os 1 duplicate_files in
  (duplicate_files = [] -> out = (Completed, [OPrint NoDuplicates]))
  /\ (duplicate_files <> [] ->
      (fst out = Completed
       <-> dir_ready os output_file = true
           /\ can_create os output_file = true
           /\ writable os output_file rows)
      /\ Report.created (snd out)
         = (if dir_ready os output_file && can_create os output_file
            then [output_file] else [])
      /\ (exists k,
            Report.handed (snd out) = firstn k rows
            /\ (forall i r, (i < k)%nat -> nth_error rows i = Some r ->
                            can_write os output_file i r = true)
            /\ (fst out = Failed -> dir_ready os output_file = true ->
                can_create os output_file = true ->
                exists r, nth_error rows k = Some r
                          /\ can_write os output_file k r = false))
      /\ (fst out = Completed ->
          Report.handed (snd out) = rows
          /\ totals (snd out)
             = [List.length (Report.csv_groups os 1 duplicate_files)])
      /\ (fst out = Failed -> totals (snd out) = [])
      /\ ~ In (OPrint NoDuplicates) (snd out)
      /\ (Report.handed (snd out) = rows -> fst out = Completed))
  /\ (forall dir,
         In dir (Report.made_dirs (snd out)) ->
         dir = PosixPath.dirname output_file /\ dir <> EmptyString
         /\ path_exists os dir = false).
Proof.
  cbv zeta. unfold Report.export_to_csv, dir_ready.
  destruct duplicate_files as [|e d].
  { split; [reflexivity|]. split; [intros N; now elim N | intros dir []]. }
  set (dd := e :: d). set (dir := PosixPath.dirname output_file).
  split; [discriminate|].
  destruct (truthy dir && negb (path_exists os dir)) eqn:MK; cbn [negb orb].
  - apply andb_true_iff in MK. destruct MK as [Tr Ex].
    apply negb_true_iff in Ex.
    assert (Ne : dir <> EmptyString)
      by (intros E; rewrite E in Tr; discriminate Tr).
    destruct (can_create os dir) eqn:CD; cbn [andb].
    + destruct (write_csv_spec os dd output_file
                  [OMakedirs dir; OPrint (CreatedDir dir)]
                  eq_refl eq_refl eq_refl)
        as [C [Cr [[k [Hk [A F]]] [Co [Fa [Mk [Nd Hc]]]]]]].
      { cbn [In]. intuition discriminate. }
      split.
      * intros _. split; [rewrite C; tauto|]. split; [exact Cr|].
        split; [exists k; split; [exact Hk|]; split; [exact A|]; auto|].
        split; [exact Co|]. split; [exact Fa|]. split; [exact Nd | exact Hc].
      * intros x Hx. rewrite Mk in Hx. destruct Hx as [<-|[]]. now repeat split.
    + cbn [fst snd]. split.
      * intros _. split; [split; [discriminate | intros [H _]; discriminate H]|].
        split; [reflexivity|]. split.
        -- exists 0%nat. split; [reflexivity|]. split; [intros i r H; lia|].
           intros _ H. discriminate H.
        -- split; [discriminate|]. split; [reflexivity|].
           split; [intros [] | discriminate].
      * intros x [].
  - cbn [andb].
    destruct (write_csv_spec os dd output_file [] eq_refl eq_refl eq_refl)
      as [C [Cr [[k [Hk [A F]]] [Co [Fa [Mk [Nd Hc]]]]]]]; [intros []|].
    split.
    + intros _. split; [rewrite C; tauto|]. split; [exact Cr|].
      split; [exists k; split; [exact Hk|]; split; [exact A|]; auto|].
      split; [exact Co|]. split; [exact Fa|]. split; [exact Nd | exact Hc].
    + intros x Hx. rewrite Mk in Hx. destruct Hx.
Qed.


(** ** The sheet of the cross-tree script *)
Section ExcelSheet.
Import Report.
Variable os : os_view.

Lemma nth_error_column {A B : Type} (f : A -> B) (dflt : B) (l : list A) :
  forall m a,
    (List.length l <= m)%nat ->
    map (fun i => match nth_error l (i - a) with
                  | Some x => f x
                  | None => dflt
                  end) (seq a m)
    = (map f l ++ repeat dflt (m - List.length l))%list.
Proof.
  induction l as [|x l IH]; intros m a L.
  - cbn [map app List.length]. rewrite Nat.sub_0_r.
    rewrite (map_ext _ (fun _ => dflt)) by (intros i; now destruct (i - a)%nat).
    clear L. revert a. induction m as [|m IHm]; intros a; [reflexivity|].
    cbn [seq map repeat]. now rewrite IHm.
  - destruct m as [|m]; [cbn in L; lia|].
    cbn [seq map List.length app]. rewrite Nat.sub_diag. cbn [nth_error].
    f_equal. cbn [Nat.sub]. rewrite <- (IH m (S a)) by (cbn in L; lia).
    apply map_ext_in. intros i Hi. apply in_seq in Hi.
    replace (i - a)%nat with (S (i - S a)) by lia. reflexivity.
Qed.

Lemma excel_group_columns (dir1 dir2 : string) (idx : nat) (md5_value : string)
    (files1 files2 : list string) (file_size : Z) :
  let m := Nat.max (List.length files1) (List.length files2) in
  let rows := map (excel_row os dir1 dir2 idx md5_value files1 files2 file_size)
                  (seq 0 m) in
  map (cell_at 0) rows = first_only (CInt (Z.of_nat idx)) m
  /\ map (cell_at 1) rows = first_only (CStr md5_value) m
  /\ map (cell_at 2) rows = padded os dir1 files1 m
  /\ map (cell_at 3) rows = padded os dir2 files2 m
  /\ map (cell_at 4) rows = first_only (CInt file_size) m.
Proof.
  cbv zeta. set (m := Nat.max _ _). rewrite !map_map.
  unfold first_only, padded, cell_at, excel_row. cbn [nth].
  split; [reflexivity|]. split; [reflexivity|].
  assert (C : forall base_dir files,
             (List.length files <= m)%nat ->
             map (fun i => CStr match nth_error files i with
                                | Some p => get_relative_path os p base_dir
                                | None => EmptyString
                                end) (seq 0 m)
             = (map (fun p => CStr (get_relative_path os p base_dir)) files
                ++ repeat (CStr EmptyString) (m - List.length files))%list).
  { intros base_dir files L.
    rewrite <- (nth_error_column
                  (fun p => CStr (get_relative_path os p base_dir))
                  (CStr EmptyString) files m 0 L).
    apply map_ext. intros i. rewrite Nat.sub_0_r.
    now destruct (nth_error files i). }
  split; [apply C; subst m; lia|]. split; [apply C; subst m; lia | reflexivity].
Qed.

Lemma excel_group_length (dir1 dir2 : string) (idx : nat)
    (g : CompareResources.group) (rows : list row) :
  excel_group os dir1 dir2 idx g = Some rows ->
  List.length rows = group_height g.
Proof.
  destruct g as [[md5 files1] files2]. unfold excel_group, group_height.
  cbn [fst snd].
  destruct (match files1 with p :: _ => getsize os p | [] => Some 0 end);
    [|discriminate].
  intros [= <-]. now rewrite length_map, length_seq.
Qed.

Lemma excel_group_sized (dir1 dir2 : string) (idx : nat)
    (g : CompareResources.group) :
  excel_group os dir1 dir2 idx g <> None <-> sized os g.
Proof.
  destruct g as [[md5 files1] files2]. unfold excel_group, sized. cbn [fst snd].
  destruct files1 as [|p files1]; [split; [trivial | discriminate]|].
  destruct (getsize os p); split; try discriminate; tauto.
Qed.

Lemma excel_groups_length (dir1 dir2 : string) (results : list CompareResources.group) :
  forall idx rows,
    excel_groups os dir1 dir2 idx results = Some rows ->
    List.length rows = list_sum (map group_height results).
Proof.
  induction results as [|g results IH]; intros idx rows; cbn [excel_groups].
  - now intros [= <-].
  - destruct (excel_group os dir1 dir2 idx g) as [r|] eqn:G; [|discriminate].
    destruct (excel_groups os dir1 dir2 (S idx) results) as [more|] eqn:E;
      [|discriminate].
    intros [= <-]. cbn [map list_sum].
    now rewrite length_app, (excel_group_length _ _ _ _ _ G), (IH _ _ E).
Qed.

Lemma excel_groups_sized (dir1 dir2 : string) (results : list CompareResources.group) :
  forall idx,
    excel_groups os dir1 dir2 idx results <> None <-> Forall (sized os) results.
Proof.
  induction results as [|g results IH]; intros idx; cbn [excel_groups].
  - split; [constructor | discriminate].
  - rewrite Forall_cons_iff, <- (IH (S idx)), <- (excel_group_sized dir1 dir2 idx g).
    destruct (excel_group os dir1 dir2 idx g);
      destruct (excel_groups os dir1 dir2 (S idx) results);
      intuition congruence.
Qed.

End ExcelSheet.

(** X10. The rows of one group of the cross-tree sheet, when the size of its
    first file can be read: there are as many rows as the longer side has
    files; the two path columns hold the relative paths of the two sides in
    their order, the shorter side filled up with empty cells; the number of
    the group, the digest and the size stand on the first row only. *)
Theorem excel_group_layout (os : os_view) (dir1 dir2 : string) (idx : nat)
    (md5_value : string) (files1 files2 : list string) (rows : list row) :
  Report.excel_group os dir1 dir2 idx (md5_value, files1, files2) = Some rows ->
  let m := Nat.max (List.length files1) (List.length files2) in
  List.length rows = m
  /\ map (cell_at 0) rows = first_only (CInt (Z.of_nat idx)) m
  /\ map (cell_at 1) rows = first_only (CStr md5_value) m
  /\ map (cell_at 2) rows = padded os dir1 files1 m
  /\ map (cell_at 3) rows = padded os dir2 files2 m
  /\ exists file_size,
       map (cell_at 4) rows = first_only (CInt file_size) m
       /\ match files1 with
          | p :: _ => getsize os p = Some file_size
          | [] => file_size = 0
          end.
Proof.
  intros E m. unfold Report.excel_group in E.
  assert (S : exists file_size,
             rows = map (Report.excel_row os dir1 dir2 idx md5_value files1 files2
                           file_size) (seq 0 m)
             /\ match files1 with
                | p :: _ => getsize os p = Some file_size
                | [] => file_size = 0
                end).
  { destruct files1 as [|p files1].
    - exists 0. now injection E as <-.
    - destruct (getsize os p) as [sz|]; [|discriminate E].
      exists sz. now injection E as <-. }
  destruct S as [file_size [-> Hs]].
  destruct (excel_group_columns os dir1 dir2 idx md5_value files1 files2 file_size)
    as [C0 [C1 [C2 [C3 C4]]]].
  split; [now rewrite length_map, length_seq|].
  split; [exact C0|]. split; [exact C1|]. split; [exact C2|]. split; [exact C3|].
  exists file_size. now split.
Qed.

(** X11. [export_to_excel] completes exactly when the size of the first file
    of every group can be read and the workbook can be saved.  When it fails
    nothing is saved, not even the rows of the groups before the one whose
    size could not be read; when it completes, one workbook is saved, with the
    header and, for every group, as many rows as its longer side has files. *)
Theorem export_to_excel_outcomes (os : os_view)
    (results : list CompareResources.group) (output_path dir1 dir2 : string) :
  let out := Report.export_to_excel os results output_path dir1 dir2 in
  (fst out = Completed
   <-> Forall (sized os) results /\ can_create os output_path = true)
  /\ (fst out = Failed -> Report.written (snd out) = [])
  /\ (fst out = Completed ->
      exists rows,
        Report.written (snd out)
        = [(output_path, Report.excel_header dir1 dir2 :: rows)]
        /\ List.length rows = list_sum (map group_height results)).
Proof.
  cbv zeta. unfold Report.export_to_excel.
  pose proof (excel_groups_sized os dir1 dir2 results 1) as S.
  pose proof (excel_groups_length os dir1 dir2 results 1) as L.
  destruct (Report.excel_groups os dir1 dir2 1 results) as [rows|].
  - assert (F : Forall (sized os) results) by (apply S; discriminate).
    destruct (can_create os output_path); cbn [fst snd].
    + split; [tauto|]. split; [discriminate|]. intros _. exists rows.
      split; [reflexivity | now apply L].
    + split; [split; [discriminate | intros [_ H]; discriminate H]|].
      split; [reflexivity | discriminate].
  - cbn [fst snd]. split.
    + split; [discriminate|]. intros [F _]. apply S in F. now elim F.
    + split; [reflexivity | discriminate].
Qed.

(** ** The extension of the workbook *)

Lemma lower_append (a b : string) :
  Report.lower (a ++ b) = (Report.lower a ++ Report.lower b)%string.
Proof. induction a as [|c a IH]; cbn; [reflexivity | now rewrite IH]. Qed.

Lemma endswith_append (a b : string) : Report.endswith (a ++ b) b = true.
Proof.
  induction a as [|c a IH]; cbn [String.append].
  - destruct b; cbn [Report.endswith]; now rewrite String.eqb_refl.
  - cbn [Report.endswith]. rewrite IH. now destruct (String.eqb _ b).
Qed.

(** X12. The output name that [main] of the cross-tree script passes on
    always ends in ".xlsx", in small or capital letters.  A name that ends so
    already is kept as it is, and no other name is kept: any other name gets
    ".xlsx" appended.  Giving the name its extension twice changes nothing
    more. *)
Theorem with_xlsx_extension (output : string) :
  Report.endswith (Report.lower (Report.with_xlsx output)) ".xlsx" = true
  /\ Report.with_xlsx (Report.with_xlsx output) = Report.with_xlsx output
  /\ (Report.endswith (Report.lower output) ".xlsx" = true ->
      Report.with_xlsx output = output)
  /\ (Report.endswith (Report.lower output) ".xlsx" = false ->
      Report.with_xlsx output = (output ++ ".xlsx")%string)
  /\ (Report.with_xlsx output = output
      <-> Report.endswith (Report.lower output) ".xlsx" = true).
Proof.
  assert (E : Report.endswith (Report.lower (Report.with_xlsx output)) ".xlsx"
              = true).
  { unfold Report.with_xlsx.
    destruct (Report.endswith (Report.lower output) ".xlsx") eqn:T; cbn [negb];
      [exact T|].
    rewrite lower_append. apply endswith_append. }
  assert (K : Report.endswith (Report.lower output) ".xlsx" = true ->
              Report.with_xlsx output = output)
    by (intros T; unfold Report.with_xlsx; now rewrite T).
  split; [exact E|].
  split; [unfold Report.with_xlsx at 1; rewrite E; reflexivity|].
  split; [exact K|]. split.
  - intros T. unfold Report.with_xlsx. now rewrite T.
  - split; [|exact K]. intros S. now rewrite <- S.
Qed.

(** ** The scripts from end to end *)

Lemma scan_events_outs (evs : list event) : Forall scan_event evs -> outs evs = [].
Proof.
  unfold outs. induction 1 as [|e evs He _ IH]; [reflexivity|].
  cbn [flat_map]. rewrite IH. now destruct e.
Qed.

Lemma scan_events_free (evs : list event) (e : event) :
  Forall scan_event evs -> ~ scan_event e -> ~ In e evs.
Proof. intros F N H. rewrite Forall_forall in F. now apply N, F. Qed.

Lemma export_to_excel_spec (os : os_view)
    (results : list CompareResources.group) (output_path dir1 dir2 : string) :
  let out := Report.export_to_excel os results output_path dir1 dir2 in
  (fst out = Completed
   <-> Forall (sized os) results /\ can_create os output_path = true)
  /\ match fst out with
     | Completed => exists rows, Report.written (snd out) = [(output_path, rows)]
     | Failed => Report.written (snd out) = []
     end.
Proof.
  cbv zeta. unfold Report.export_to_excel.
  pose proof (excel_groups_sized os dir1 dir2 results 1) as S.
  destruct (Report.excel_groups os dir1 dir2 1 results) as [rows|].
  - assert (F : Forall (sized os) results) by (apply S; discriminate).
    destruct (can_create os output_path); cbn [fst snd].
    + split; [tauto|]. eexists. reflexivity.
    + split; [|reflexivity]. split; [discriminate | intros [_ H]; discriminate H].
  - cbn [fst snd]. split; [|reflexivity].
    split; [discriminate|]. intros [F _]. apply S in F. now elim F.
Qed.

Lemma cr_main_trace (h : host) (os : os_view) (dir1 dir2 output : string) :
  isdir h dir1 = true -> isdir h dir2 = true ->
  let out := Report.export_to_excel os (cross_groups h dir1 dir2)
               (Report.with_xlsx output) dir1 dir2 in
  if dir_ready os output then
    exists pre evs,
      Report.written (outs pre) = []
      /\ (forall m, In (EvPrint m) pre -> exists d, m = MsgCreatedDir d)
      /\ Forall scan_event evs
      /\ snd (run (CompareResourcesCli.main h os dir1 dir2 output))
         = (pre
            ++ [EvPrint MsgRule; EvPrint MsgTitle; EvPrint MsgRule;
                EvPrint (MsgDir1 dir1); EvPrint (MsgDir2 dir2);
                EvPrint (MsgOutputFile (Report.with_xlsx output))]
            ++ evs
            ++ match cross_groups h dir1 dir2 with
               | [] => [EvPrint MsgNoMatch]
               | _ :: _ =>
                   map EvOut (snd out)
                   ++ match fst out with
                      | Completed => [EvPrint MsgFinished]
                      | Failed => []
                      end
               end)%list
  else run (CompareResourcesCli.main h os dir1 dir2 output)
       = (Uncaught OutputError, []).
Proof.
  intros D1 D2 out.
  pose proof (cr_main_with (Forall scan_event) h os dir1 dir2 output
                (compare_directories_trace h dir1 dir2) D1 D2) as W.
  cbv zeta in W. fold out in W. unfold dir_ready.
  destruct (truthy (PosixPath.dirname output)
            && negb (path_exists os (PosixPath.dirname output)));
    cbn [andb negb orb] in *.
  - destruct (can_create os (PosixPath.dirname output)); cbn [negb] in *;
      [|exact W].
    destruct W as [evs [F E]]. do 2 eexists.
    split; [|split; [|split; [exact F | rewrite E; reflexivity]]];
      [reflexivity|].
    intros m [H|[H|[]]]; [discriminate|]. injection H as <-. now eexists.
  - destruct W as [evs [F E]]. exists [], evs.
    split; [reflexivity|]. split; [intros m []|]. split; [exact F|].
    now rewrite E.
Qed.

(** X5. [main] of the cross-tree script saves a workbook exactly when both
    roots are directories, the directory of the output is there or can be
    made, some file of the first tree that can be read has the digest of
    some file of the second that can be read, the size of the first file of
    every group can be read, and the workbook can be saved; the workbook is
    then the only one, under the output name with its extension, and only
    then is the run reported as finished.  The warning that nothing matches
    is printed exactly when the roots are directories, the directory of the
    output is ready and no digest is shared.  When the roots are directories
    and the directory of the output cannot be made, the exception ends the
    run before anything is printed or scanned. *)
Theorem main_saves_workbook_iff (h : host) (os : os_view)
    (dir1 dir2 output : string) :
  let r := run (CompareResourcesCli.main h os dir1 dir2 output) in
  let roots := isdir h dir1 = true /\ isdir h dir2 = true in
  let shared := exists d, shared_digest (walk_files h (abspath h dir1))
                            (walk_files h (abspath h dir2)) d in
  (Report.written (outs (snd r)) <> []
   <-> roots /\ dir_ready os output = true /\ shared
       /\ Forall (sized os) (cross_groups h dir1 dir2)
       /\ can_create os (Report.with_xlsx output) = true)
  /\ (Report.written (outs (snd r)) <> [] ->
      exists rows,
        Report.written (outs (snd r)) = [(Report.with_xlsx output, rows)])
  /\ (In (EvPrint MsgFinished) (snd r) <-> Report.written (outs (snd r)) <> [])
  /\ (In (EvPrint MsgNoMatch) (snd r)
      <-> roots /\ dir_ready os output = true /\ ~ shared)
  /\ (roots -> dir_ready os output = false -> r = (Uncaught OutputError, [])).
Proof.
  cbv zeta.
  destruct (isdir h dir1) eqn:D1; [destruct (isdir h dir2) eqn:D2|].
  2,3: destruct (cr_main_invalid h os dir1 dir2 output) as [d [E _]];
    [rewrite ?D1, ?D2; tauto|]; rewrite E; cbn;
    (split; [split; [intros N; now elim N | intros [[? ?] _]; discriminate]|]);
    (split; [intros N; now elim N|]);
    (split; [split; [intros [H|[]]; discriminate H | intros N; now elim N]|]);
    (split; [split; [intros [H|[]]; discriminate H
                    | intros [[? ?] _]; discriminate]|]);
    intros [? ?]; discriminate.
  pose proof (cr_main_trace h os dir1 dir2 output D1 D2) as T. cbv zeta in T.
  pose proof (groups_across_nonempty (walk_files h (abspath h dir1))
                (walk_files h (abspath h dir2))) as NE.
  fold (cross_groups h dir1 dir2) in NE.
  destruct (export_to_excel_spec os (cross_groups h dir1 dir2)
              (Report.with_xlsx output) dir1 dir2) as [C W].
  destruct (dir_ready os output) eqn:R.
  2:{ rewrite T. cbn.
      split; [split; [intros N; now elim N | intros [_ [H _]]; discriminate H]|].
      split; [intros N; now elim N|].
      split; [split; [intros [] | intros N; now elim N]|].
      split; [split; [intros [] | intros [_ [H _]]; discriminate H]|].
      reflexivity. }
  destruct T as [pre [evs [Wp [Pp [F E]]]]]. rewrite E. clear E.
  remember (Report.export_to_excel os (cross_groups h dir1 dir2)
              (Report.with_xlsx output) dir1 dir2) as out eqn:Eo.
  match goal with
  | |- context [(evs ++ ?t)%list] => set (tail := t)
  end.
  match goal with
  | |- context [(pre ++ ?f ++ evs ++ tail)%list] => set (front := f)
  end.
  assert (Ow : Report.written (outs (pre ++ front ++ evs ++ tail))
               = Report.written (outs tail)).
  { rewrite !outs_app, (scan_events_outs evs F). unfold Report.written in *.
    rewrite !flat_map_app, Wp. reflexivity. }
  assert (Hin : forall m,
             m = MsgFinished \/ m = MsgNoMatch ->
             (In (EvPrint m) (pre ++ front ++ evs ++ tail)
              <-> In (EvPrint m) tail)).
  { intros m Hm. rewrite !in_app_iff. split; [|tauto].
    intros [H|[H|[H|H]]]; [| | |exact H]; exfalso.
    - apply Pp in H. destruct H as [d ->]. destruct Hm; discriminate.
    - cbn [In front] in H. destruct Hm as [-> | ->]; intuition discriminate.
    - revert H. apply (scan_events_free evs _ F).
      destruct Hm as [-> | ->]; cbn; tauto. }
  rewrite Ow, (Hin MsgFinished), (Hin MsgNoMatch) by tauto.
  clear Ow Hin. subst tail. clear front.
  destruct (cross_groups h dir1 dir2) as [|g gs] eqn:G.
  - assert (NS : ~ exists d, shared_digest (walk_files h (abspath h dir1))
                               (walk_files h (abspath h dir2)) d)
      by (intros S; apply NE in S; now apply S).
    cbn.
    split; [split; [intros N; now elim N | tauto]|].
    split; [intros N; now elim N|].
    split; [split; [intros [H|[]]; discriminate H | intros N; now elim N]|].
    split; [split; [tauto | auto]|]. intros _ H. discriminate H.
  - assert (S : exists d, shared_digest (walk_files h (abspath h dir1))
                            (walk_files h (abspath h dir2)) d)
      by (apply NE; discriminate).
    rewrite outs_app, outs_map.
    destruct (fst out) eqn:Fo.
    + destruct W as [rows W]. cbn [outs flat_map app]. rewrite app_nil_r, W.
      split; [split; [intros _; tauto | discriminate]|].
      split; [intros _; now exists rows|].
      split; [split; [discriminate|]|].
      { intros _. apply in_or_app. right. now left. }
      split; [|intros _ H; discriminate H].
      split; [|tauto]. intros H. apply in_app_or in H.
      destruct H as [H|[H|[]]]; [|discriminate H].
      apply in_map_iff in H. destruct H as [x [H _]]. discriminate H.
    + cbn [outs flat_map app]. rewrite app_nil_r, W.
      assert (NC : ~ (Forall (sized os) (g :: gs)
                      /\ can_create os (Report.with_xlsx output) = true))
        by (intros H; apply C in H; discriminate H).
      split; [split; [intros N; now elim N | tauto]|].
      split; [intros N; now elim N|].
      split; [split; [|intros N; now elim N]|].
      { intros H. apply in_app_or in H. destruct H as [H|[]].
        apply in_map_iff in H. destruct H as [x [H _]]. discriminate H. }
      split; [|intros _ H; discriminate H].
      split; [|tauto]. intros H. apply in_app_or in H. destruct H as [H|[]].
      apply in_map_iff in H. destruct H as [x [H _]]. discriminate H.
Qed.

Lemma fd_main_trace (h : host) (os : os_view) (script directory : string)
    (rest : list string) :
  isdir h directory = true ->
  let out := Report.export_to_csv os (duplicate_groups h directory)
               (report_path h directory rest) in
  exists m1 evs,
    Forall scan_event evs
    /\ (m1 = MsgOutputGiven (report_path h directory rest)
        \/ m1 = MsgOutputSibling (report_path h directory rest))
    /\ run (FindDuplicatesCli.main h os (script :: directory :: rest))
       = (passed_on (fst out), (EvPrint m1 :: evs ++ map EvOut (snd out))%list).
Proof.
  intros D.
  exact (fd_main_with (Forall scan_event) h os script directory rest
           (fun tr => find_duplicate_files_trace h directory tr D)).
Qed.

(** X6. [main] of the duplicate finder opens the file of its report, and so
    creates or empties it, exactly when the root is a directory, two walked
    files that can be read have one digest, the directory of the report is
    there or can be made, and the file can be opened; the file is the one
    named after the scanned directory.  The whole sheet is handed to the
    writer exactly when, moreover, the writer accepts every row; whatever
    happens, the rows handed over are the first rows of the sheet.  The run
    returns exactly when the root is a directory and either there are no
    duplicates or the whole sheet was written.  That there are no duplicates
    is printed exactly when the root is a directory without them.  With
    fewer than two arguments the usage is printed and the run exits with
    status 1 before anything is scanned. *)
Theorem fd_main_writes_report_iff (h : host) (os : os_view) :
  (forall script directory rest,
      let r := run (FindDuplicatesCli.main h os (script :: directory :: rest)) in
      let target := report_path h directory rest in
      let rows := Report.csv_header
                    :: Report.csv_groups os 1 (duplicate_groups h directory) in
      let dup := exists d, duplicated (walk_files h directory) d in
      (Report.created (outs (snd r)) <> []
       <-> isdir h directory = true /\ dup
           /\ dir_ready os target = true /\ can_create os target = true)
      /\ (Report.created (outs (snd r)) <> [] ->
          Report.created (outs (snd r)) = [target])
      /\ (Report.handed (outs (snd r)) = rows
          <-> isdir h directory = true /\ dup
              /\ dir_ready os target = true /\ can_create os target = true
              /\ writable os target rows)
      /\ (exists k, Report.handed (outs (snd r)) = firstn k rows)
      /\ (fst r = Returned tt
          <-> isdir h directory = true
              /\ (~ dup
                  \/ (dir_ready os target = true /\ can_create os target = true
                      /\ writable os target rows)))
      /\ (In (EvOut (OPrint NoDuplicates)) (snd r)
          <-> isdir h directory = true /\ ~ dup))
  /\ (forall argv,
         (List.length argv < 2)%nat ->
         run (FindDuplicatesCli.main h os argv)
         = (Exited 1,
            [EvPrint MsgUsage; EvPrint (MsgExample 1); EvPrint (MsgExample 2)])).
Proof.
  split.
  2:{ intros [|a [|b argv]] L; cbn [List.length] in L; try lia; reflexivity. }
  intros script directory rest. cbv zeta.
  pose proof (duplicates_nonempty (walk_files h directory)) as NE.
  fold (duplicate_groups h directory) in NE.
  destruct (isdir h directory) eqn:D.
  2:{ destruct (fd_main_invalid h os script directory rest D)
        as [m1 [m [E [H1 Hm]]]].
      rewrite E. cbn [fst snd outs flat_map app Report.created Report.handed].
      split; [split; [intros N; now elim N | intros [H _]; discriminate H]|].
      split; [intros N; now elim N|].
      split; [split; [discriminate | intros [H _]; discriminate H]|].
      split; [exists 0%nat; reflexivity|].
      split; [split; [discriminate | intros [H _]; discriminate H]|].
      split; [|intros [H _]; discriminate H].
      intros [H|[H|[]]]; [discriminate H|].
      destruct Hm as [-> | ->]; discriminate H. }
  destruct (fd_main_trace h os script directory rest D)
    as [m1 [evs [F [H1 E]]]].
  rewrite E. clear E. cbn [fst snd].
  set (target := report_path h directory rest).
  destruct (export_to_csv_spec os (duplicate_groups h directory) target)
    as [E0 [G _]].
  remember (Report.export_to_csv os (duplicate_groups h directory) target)
    as out eqn:Eo.
  assert (Oo : outs (EvPrint m1 :: evs ++ map EvOut (snd out)) = snd out).
  { change (EvPrint m1 :: evs ++ map EvOut (snd out))%list
      with ([EvPrint m1] ++ evs ++ map EvOut (snd out))%list.
    rewrite !outs_app, outs_map, (scan_events_outs evs F). reflexivity. }
  assert (Hin : In (EvOut (OPrint NoDuplicates))
                  (EvPrint m1 :: evs ++ map EvOut (snd out))
                <-> In (OPrint NoDuplicates) (snd out)).
  { split.
    - intros [H|H]; [discriminate H|]. apply in_app_or in H.
      destruct H as [H|H].
      + exfalso. revert H. apply (scan_events_free evs _ F). cbn. tauto.
      + apply in_map_iff in H. destruct H as [x [Hx H]]. now injection Hx as ->.
    - intros H. right. apply in_or_app. right. now apply in_map. }
  rewrite Oo, Hin. clear Oo Hin.
  destruct (duplicate_groups h directory) as [|g gs] eqn:Dg.
  - assert (NS : ~ exists d, duplicated (walk_files h directory) d)
      by (intros S; apply NE in S; now apply S).
    rewrite (E0 eq_refl). cbn [fst snd Report.created Report.handed flat_map app
                               passed_on In].
    split; [split; [intros N; now elim N | tauto]|].
    split; [intros N; now elim N|].
    split; [split; [discriminate | tauto]|].
    split; [exists 0%nat; reflexivity|].
    split; [split; [tauto | reflexivity]|].
    split; [tauto | auto].
  - assert (S : exists d, duplicated (walk_files h directory) d)
      by (apply NE; discriminate).
    destruct G as [C [Cr [[k [Hk _]] [Co [_ [Nd Hc]]]]]]; [discriminate|].
    split.
    { rewrite Cr. destruct (dir_ready os target), (can_create os target);
        cbn [andb]; split; try discriminate; try tauto;
        intros [_ [_ [H1' H2']]]; discriminate. }
    split.
    { rewrite Cr. destruct (dir_ready os target && can_create os target);
        [reflexivity | intros N; now elim N]. }
    split.
    { split; [intros H; apply Hc, C in H; tauto|].
      intros [_ [_ H]]. apply C in H. now apply Co. }
    split; [now exists k|].
    split.
    { destruct (fst out) eqn:Fo; cbn [passed_on].
      - split; [|reflexivity]. intros _. split; [reflexivity|]. right.
        now apply C.
      - split; [discriminate|]. intros [_ [H|H]]; [now elim H|].
        apply C in H. discriminate H. }
    split; [intros H; now elim Nd | intros [_ H]; now elim H].
Qed.

(** ** The target directory of a move *)
Section Target.
Import PosixPath MoveOldFiles.
Local Open Scope string_scope.



Lemma split_last_app (p : string) :
  fst (split_last p) ++ snd (split_last p) = p.
Proof.
  induction p as [|c p IH]; [reflexivity|]. cbn [split_last].
  destruct (has_sep p).
  - destruct (split_last p) as [head tail]. cbn [fst snd] in *.
    cbn [String.append]. now rewrite IH.
  - destruct (Ascii.eqb_spec c sep) as [->|]; reflexivity.
Qed.







End Target.


(** ** The merged cells of the second duplicate finder *)
Section Merges.
Import Report FindDuplicatesV2.
Variable os : os_view.

Lemma list_sum_cons_eq (n : nat) (l : list nat) :
  list_sum (n :: l) = (n + list_sum l)%nat.
Proof. reflexivity. Qed.

Lemma write_paths_spec (md5 : string) (group_num : nat) (paths : list string) :
  forall row,
    fst (write_paths os row group_num md5 paths) = (row + List.length paths)%nat
    /\ merged (snd (write_paths os row group_num md5 paths)) = [].
Proof.
  induction paths as [|p paths IH]; intros row; cbn [write_paths].
  - cbn. split; [lia | reflexivity].
  - destruct (IH (S row)) as [R Mg].
    destruct (write_paths os (S row) group_num md5 paths) as [row' ops].
    cbn [fst snd] in *. split; [cbn [List.length]; lia | exact Mg].
Qed.

Lemma write_groups_spec (d : dict (list string)) :
  Forall (fun e => (1 < List.length (snd e))%nat) d ->
  forall row group_num,
    fst (write_groups os row group_num d)
    = (row + list_sum (map (fun e => List.length (snd e)) d))%nat
    /\ merged (snd (write_groups os row group_num d))
       = tiles row (map (fun e => List.length (snd e)) d).
Proof.
  induction 1 as [|[md5 paths] d L _ IH]; intros row group_num;
    cbn [write_groups map tiles snd].
  - cbn. split; [lia | reflexivity].
  - cbn [snd] in L. destruct (write_paths_spec md5 group_num paths row) as [R Mg].
    destruct (write_paths os row group_num md5 paths) as [row1 ops].
    cbn [fst snd] in R, Mg. subst row1.
    destruct (IH (row + List.length paths)%nat (S group_num)) as [R2 Mg2].
    destruct (write_groups os (row + List.length paths) (S group_num) d)
      as [row2 more].
    cbn [fst snd] in *.
    split; [rewrite list_sum_cons_eq; lia|].
    destruct (Nat.eqb_spec row (row + List.length paths - 1)) as [E|_]; [lia|].
    unfold merged in *. rewrite !flat_map_app, Mg, Mg2. reflexivity.
Qed.

Lemma tiles_ordered (heights : list nat) :
  Forall (fun n => (1 < n)%nat) heights ->
  forall start,
    Forall (fun r => (start <= fst r < snd r)%nat
                     /\ (snd r < start + list_sum heights)%nat)
           (tiles start heights).
Proof.
  induction 1 as [|n heights Ln _ IH]; intros start; cbn [tiles];
    constructor.
  - cbn [fst snd]. rewrite list_sum_cons_eq. lia.
  - eapply Forall_impl; [|apply (IH (start + n)%nat)].
    intros [s e]. cbn [fst snd]. rewrite list_sum_cons_eq. lia.
Qed.

End Merges.

(** X14. On the sheet of the second duplicate finder, written for the groups
    that [find_duplicate_files] returns, every group gets a merged range in
    the count column: the ranges follow one another without gap or overlap
    from row 2, each as high as its group has paths and at least two rows
    high, and the row counter ends after the last of them.  The branch for a
    group of one row is never taken. *)
Theorem merged_ranges_tile (os : os_view) (md5_dict : dict (list string)) :
  let groups := FindDuplicates.duplicates md5_dict in
  let heights := map (fun e => List.length (snd e)) groups in
  merged (snd (FindDuplicatesV2.sheet_ops os groups)) = tiles 2 heights
  /\ fst (FindDuplicatesV2.sheet_ops os groups) = (2 + list_sum heights)%nat
  /\ Forall (fun r => (2 <= fst r < snd r)%nat
                      /\ (snd r < 2 + list_sum heights)%nat)
            (tiles 2 heights).
Proof.
  cbv zeta. set (groups := FindDuplicates.duplicates md5_dict).
  assert (L : Forall (fun e => (1 < List.length (snd e))%nat) groups).
  { apply Forall_forall. intros [k v] Hin. unfold groups in Hin.
    unfold FindDuplicates.duplicates in Hin. apply filter_In in Hin.
    destruct Hin as [_ Hl]. now apply Nat.ltb_lt in Hl. }
  unfold FindDuplicatesV2.sheet_ops.
  destruct (write_groups_spec os groups L 2 1) as [R Mg].
  split; [exact Mg|]. split; [exact R|].
  apply tiles_ordered. apply Forall_map. exact L.
Qed.

(** ** The new definitions on examples *)

Example dirname_basename_examples :
  map (fun p => (PosixPath.dirname p, PosixPath.basename p))
      [""; "/"; "a"; "/a"; "a/b"; "/a/b/"; "//a"; "a//b"; "/a/b/c.csv"; "///"]%string
  = [("", ""); ("/", ""); ("", "a"); ("/", "a"); ("a", "b"); ("/a/b", "");
     ("//", "a"); ("a", "b"); ("/a/b", "c.csv"); ("///", "")]%string.
Proof. vm_compute. reflexivity. Qed.

Example with_xlsx_examples :
  map Report.with_xlsx ["report"; "a.XLSX"; ".xlsx"; "xlsx"]%string
  = ["report.xlsx"; "a.XLSX"; ".xlsx"; "xlsx.xlsx"]%string.
Proof. vm_compute. reflexivity. Qed.

Example sample_csv :
  Report.export_to_csv sample_os sample_duplicates "/out/same_file_in_t.csv"
  = (Completed,
     [OOpen "/out/same_file_in_t.csv";
      OWriterow "/out/same_file_in_t.csv" Report.csv_header;
      OWriterow "/out/same_file_in_t.csv"
        [CInt 1; CStr md5_of_nothing; CStr "/t/e1"; CInt 0];
      OWriterow "/out/same_file_in_t.csv"
        [CInt 1; CStr md5_of_nothing; CStr "/t/e2"; CStr "无法获取"];
      OWriterow "/out/same_file_in_t.csv"
        [CInt 2; CStr md5_of_a; CStr "/t/a1"; CInt 1];
      OWriterow "/out/same_file_in_t.csv"
        [CInt 2; CStr md5_of_a; CStr "/t/sub/a2"; CStr "无法获取"];
      OPrint (SavedTo "/out/same_file_in_t.csv");
      OPrint (GroupCount 2);
      OPrint (TotalDuplicates 4);
      OPrint DetailsTitle;
      OPrint (DetailGroup 1 md5_of_nothing);
      OPrint (DetailPath "/t/e1" (Some 0));
      OPrint (DetailPath "/t/e2" None);
      OPrint (DetailGroup 2 md5_of_a);
      OPrint (DetailPath "/t/a1" (Some 1));
      OPrint (DetailPath "/t/sub/a2" None)])%string.
Proof. vm_compute. reflexivity. Qed.

(** A directory that is missing is made; a file that cannot be opened, or a
    directory that cannot be made, ends the export before anything is
    written. *)
Example sample_csv_new_directory :
  Report.made_dirs
    (snd (Report.export_to_csv sample_os sample_duplicates "/new/r.csv"))
  = ["/new"]%string
  /\ Report.export_to_csv sample_os sample_duplicates "/out/locked.csv"
     = (Failed, [])
  /\ Report.export_to_csv sample_os sample_duplicates "/sealed/r.csv"
     = (Failed, []).
Proof. vm_compute. repeat split. Qed.

(** The writer refuses the fourth row: the file has been opened and holds
    the header and two rows, and no summary is printed. *)
Example sample_csv_partial :
  Report.export_to_csv sample_os sample_duplicates "/out/full.csv"
  = (Failed,
     [OOpen "/out/full.csv";
      OWriterow "/out/full.csv" Report.csv_header;
      OWriterow "/out/full.csv"
        [CInt 1; CStr md5_of_nothing; CStr "/t/e1"; CInt 0];
      OWriterow "/out/full.csv"
        [CInt 1; CStr md5_of_nothing; CStr "/t/e2"; CStr "无法获取"]])%string.
Proof. vm_compute. reflexivity. Qed.

(** Both roots are directories and share digests, but the directory of the
    output cannot be made: the cross-tree script ends with the exception
    before it scans, and its exit status is 1. *)
Example sample_cross_blocked :
  run (CompareResourcesCli.main sample_host sample_os "/t" "/u" "/sealed/r")
  = (Uncaught OutputError, [])
  /\ exit_status
       (fst (run (CompareResourcesCli.main sample_host sample_os
                    "/t" "/u" "/sealed/r"))) = 1.
Proof. vm_compute. split; reflexivity. Qed.

(** The duplicate finder scans the whole tree and finds duplicates, but the
    directory of the report cannot be made: nothing is written and the exit
    status is 1. *)
Example sample_duplicates_blocked :
  let r := run (FindDuplicatesCli.main sample_host sample_os
                  ["find.py"; "/t"; "/sealed"]%string) in
  fst r = Uncaught OutputError
  /\ exit_status (fst r) = 1
  /\ opened (snd r)
     = ["/t/e1"; "/t/e2"; "/t/a1"; "/t/locked"; "/t/sub/a2"; "/t/sub/torn"]%string
  /\ outs (snd r) = [].
Proof. vm_compute. repeat split. Qed.

(** A run of the cross-tree script in which nothing fails on the output
    side. *)
Example sample_cross_run :
  let r := run (CompareResourcesCli.main sample_host plain_os "/t" "/u" "/out/r") in
  fst r = Returned tt
  /\ map fst (Report.written (outs (snd r))) = ["/out/r.xlsx"]%string
  /\ reported (snd r) = ["/t/locked"; "/t/sub/torn"]%string.
Proof. vm_compute. repeat split. Qed.

(** The report of the duplicate finder is named after the scanned
    directory. *)
Example sample_report_path :
  report_path sample_host "/t" [] = "/same_file_in_t.csv"%string
  /\ report_path sample_host "/t" ["/out"%string] = "/out/same_file_in_t.csv"%string
  /\ run (FindDuplicatesCli.main sample_host sample_os ["find.py"]%string)
     = (Exited 1,
        [EvPrint MsgUsage; EvPrint (MsgExample 1); EvPrint (MsgExample 2)]).
Proof. vm_compute. repeat split. Qed.

Example sample_excel_group :
  Report.excel_group sample_os "/t" "/u" 1 sample_group
  = Some [[CInt 1; CStr md5_of_a; CStr "a1";
           CStr "copy"; CInt 1];
          [CStr ""; CStr ""; CStr "sub/a2";
           CStr ""; CStr ""]]%string.
Proof. vm_compute. reflexivity. Qed.

(** The size of the first file of the second group cannot be read: nothing
    is saved. *)
Example sample_excel_aborts :
  Report.export_to_excel sample_os
    [sample_group; (md5_of_nothing, ["/t/e2"], ["/u/nothing"])]%string
    "/out/r.xlsx" "/t" "/u"
  = (Failed, [OPrint (Generating "/out/r.xlsx")]).
Proof. vm_compute. reflexivity. Qed.

Example sample_target_dir :
  MoveOldFiles.find_available_target_dir
    (mk_host [("/res2"%string, NDir (Dir [] [])); ("/res"%string, NDir (Dir [] []));
              ("/res3"%string, NFile empty_file)] (fun p => p))
    "/res"
  = Some "/res4"%string.
Proof. vm_compute. reflexivity. Qed.

Example sample_merges :
  merged (snd (FindDuplicatesV2.sheet_ops sample_os
                 [("d1", ["a"; "b"; "c"]); ("d2", ["x"; "y"])]%string))
  = [(2, 4); (5, 6)]%nat.
Proof. vm_compute. reflexivity. Qed.

Lemma sample_duplicates_ok :
  NoDup (keys sample_duplicates)
  /\ forall k v, In (k, v) sample_duplicates -> v <> [].
Proof.
  split.
  - repeat constructor; cbn; intuition discriminate.
  - intros k v [E|[E|[]]]; injection E as _ <-; discriminate.
Qed.

Lemma csv_round_trip_witness :
  NoDup (keys sample_duplicates)
  /\ (forall k v, In (k, v) sample_duplicates -> v <> [])
  /\ fold_left (fun d e => let '(k, p) := e in add_path d k p)
       (flat_map Report.csv_entry (Report.csv_groups sample_os 1 sample_duplicates))
       []
     = sample_duplicates.
Proof.
  split; [exact (proj1 sample_duplicates_ok)|].
  split; [exact (proj2 sample_duplicates_ok)|].
  exact (csv_round_trip sample_os sample_duplicates
           (proj1 sample_duplicates_ok) (proj2 sample_duplicates_ok)).
Defined.

Lemma excel_group_layout_witness :
  exists rows,
    Report.excel_group sample_os "/t" "/u" 1 sample_group = Some rows
    /\ List.length rows = 2%nat
    /\ map (cell_at 3) rows = padded sample_os "/u" ["/u/copy"%string] 2.
Proof.
  eexists. split; [reflexivity|].
  pose proof (excel_group_layout sample_os "/t"%string "/u"%string 1 md5_of_a
                ["/t/a1"; "/t/sub/a2"]%string ["/u/copy"%string] _ eq_refl) as L.
  cbv zeta in L. split; [exact (proj1 L)|].
  exact (proj1 (proj2 (proj2 (proj2 (proj2 L))))).
Defined.

(** ** One tree, two scripts; one tree, twice *)

(** X15. The two families of scripts build the same index: [scan_directory]
    of the cross-tree scripts returns what the scanning loop of the duplicate
    finders returns for the absolute path of the directory, although one
    marks an unreadable file by the empty string and the other by [None]. *)
Theorem scans_agree (h : host) (directory : string) :
  fst (run (CompareResources.scan_directory h directory))
  = fst (run (FindDuplicates.scan h (abspath h directory)))
  /\ exists idx,
       fst (run (CompareResources.scan_directory h directory)) = Returned idx.
Proof.
  unfold run.
  destruct (cr_scan_directory_spec h directory []) as [e1 [E1 _]].
  destruct (fd_scan_spec h (abspath h directory) []) as [e2 [E2 _]].
  rewrite E1, E2. split; [reflexivity | eexists; reflexivity].
Qed.

Lemma common_with_itself (A : dict (list string)) :
  NoDup (keys A) -> sorted (common_digests A A) = sorted (keys A).
Proof.
  intros ND. apply sorted_order_free.
  apply NoDup_Permutation; [apply common_digests_nodup | exact ND|].
  intros k. rewrite common_digests_In, contains_keys, mem_In. tauto.
Qed.

(** X16. Comparing a directory with itself gives one group for every digest
    of its index, in ascending order of the digests, with the list of the
    digest on both sides. *)
Theorem compare_with_itself (h : host) (directory : string) :
  exists idx results,
    fst (run (CompareResources.scan_directory h directory)) = Returned idx
    /\ fst (run (CompareResources.compare_directories h directory directory))
       = Returned results
    /\ results = map (fun k => (k, paths_at idx k, paths_at idx k))
                     (sorted (keys idx))
    /\ List.length results = List.length idx.
Proof.
  unfold run.
  destruct (cr_scan_directory_spec h directory []) as [e1 [E1 _]].
  destruct (compare_directories_spec h directory directory []) as [e2 [E2 _]].
  rewrite E1, E2. do 2 eexists. split; [reflexivity|]. split; [reflexivity|].
  unfold groups_across. rewrite common_with_itself by apply index_of_nodup.
  split; [reflexivity|].
  rewrite length_map, (Permutation_length (sorted_perm _)). apply length_map.
Qed.
